(** * cook_soup.py: the SOUP report generator, embedded and verified

    The script [scripts/cook_soup.py] reads two license inventories,
    merges and deduplicates them, scores every dependency against the
    GitHub API and renders a markdown table into a template.

    Layout of this development:
    - [PyStr]: the [str] methods the script calls (ASCII alphabet);
    - [Re]: a backtracking matcher for the two patterns the script uses;
    - [Py]: exceptions and the state-and-exception monad of the effects;
    - [PyFloat] and [datetime]: the quotient of two integers as a binary64
      [float], and timestamps with and without a UTC offset;
    - the functions of the script, in source order and under their names;
    - the properties, grouped by function.

    Strings are [string]s over the 7-bit ASCII alphabet: [casefold],
    [lower], [strip] and [\d] are modelled there (code points from 128 on are
    left untouched by the case maps and are neither digits nor blanks). *)

From Stdlib Require Import Bool Arith ZArith NArith Lia List Ascii String.
From Stdlib Require Import Permutation Sorted.
Import ListNotations.

Local Open Scope string_scope.
Local Open Scope list_scope.

(* ===================================================================== *)
(** ** Python [str] primitives *)
(* ===================================================================== *)

Module PyStr.

Definition code (c : ascii) : N := N_of_ascii c.

Definition in_range (lo hi : N) (c : ascii) : bool :=
  (lo <=? code c)%N && (code c <=? hi)%N.

(** [c.isupper()] for an ASCII letter: 'A'..'Z'. *)
Definition is_upper (c : ascii) : bool := in_range 65 90 c.

(** [c.isdigit()] restricted to ASCII, which is also what [\d] matches there. *)
Definition is_digit (c : ascii) : bool := in_range 48 57 c.

(** [c.isspace()] on ASCII: HT, LF, VT, FF, CR, the four separators
    FS, GS, RS, US and the space. *)
Definition is_space (c : ascii) : bool :=
  in_range 9 13 c || in_range 28 32 c.

(** One character of [str.lower] and of [str.casefold]; the two agree on ASCII. *)
Definition lower_char (c : ascii) : ascii :=
  if is_upper c then ascii_of_N (code c + 32) else c.

Fixpoint map_chars (f : ascii -> ascii) (s : string) : string :=
  match s with
  | EmptyString => EmptyString
  | String c s' => String (f c) (map_chars f s')
  end.

Definition lower (s : string) : string := map_chars lower_char s.
Definition casefold (s : string) : string := map_chars lower_char s.

(** [c in chars] for a one-character [c]. *)
Fixpoint mem_char (c : ascii) (chars : string) : bool :=
  match chars with
  | EmptyString => false
  | String d chars' => Ascii.eqb c d || mem_char c chars'
  end.

(** Removal of the longest prefix whose characters satisfy [p]. *)
Fixpoint drop_while (p : ascii -> bool) (s : string) : string :=
  match s with
  | EmptyString => EmptyString
  | String c s' => if p c then drop_while p s' else s
  end.

(** Removal of the longest suffix whose characters satisfy [p]. *)
Fixpoint drop_while_end (p : ascii -> bool) (s : string) : string :=
  match s with
  | EmptyString => EmptyString
  | String c s' =>
      match drop_while_end p s' with
      | EmptyString => if p c then EmptyString else String c EmptyString
      | r => String c r
      end
  end.

(** [s.strip()]: blanks removed at both ends. *)
Definition strip (s : string) : string :=
  drop_while_end is_space (drop_while is_space s).

(** [s.lstrip(chars)] and [s.rstrip(chars)]: [chars] is a set of characters. *)
Definition lstrip_chars (chars s : string) : string :=
  drop_while (fun c => mem_char c chars) s.
Definition rstrip_chars (chars s : string) : string :=
  drop_while_end (fun c => mem_char c chars) s.

(** [s.rsplit(sep, 1)] for a one-character [sep]: the two pieces around the
    last [sep], or [s] alone when [sep] does not occur. *)
Fixpoint rsplit_last (sep : ascii) (s : string) : option (string * string) :=
  match s with
  | EmptyString => None
  | String c s' =>
      match rsplit_last sep s' with
      | Some (a, b) => Some (String c a, b)
      | None => if Ascii.eqb c sep then Some (EmptyString, s') else None
      end
  end.

Definition rsplit1 (sep : ascii) (s : string) : list string :=
  match rsplit_last sep s with
  | Some (a, b) => [a; b]
  | None => [s]
  end.

(** [s.replace(old, new)] for a non-empty [old]: occurrences are replaced
    from left to right without overlap.  [skip] counts the characters of an
    occurrence already replaced that are still to be passed over. *)
Fixpoint replace_from (old new s : string) (skip : nat) : string :=
  match s with
  | EmptyString => EmptyString
  | String c s' =>
      match skip with
      | S k => replace_from old new s' k
      | O =>
          if prefix old s
          then new ++ replace_from old new s' (String.length old - 1)
          else String c (replace_from old new s' 0)
      end
  end.

Definition replace (old new s : string) : string := replace_from old new s 0.

(** [sep.join(parts)]. *)
Definition join (sep : string) (parts : list string) : string :=
  String.concat sep parts.

(** [int(s)] for a string of ASCII decimal digits, most significant first. *)
Fixpoint int_of_digits_from (acc : Z) (s : string) : Z :=
  match s with
  | EmptyString => acc
  | String c s' => int_of_digits_from (10 * acc + Z.of_N (code c - 48)) s'
  end.

Definition int_of_digits (s : string) : Z := int_of_digits_from 0 s.

(** Truth value of a [str]: non-empty. *)
Definition nonempty (s : string) : bool :=
  match s with EmptyString => false | _ => true end.

(** The first [n] characters of [s]. *)
Fixpoint take (n : nat) (s : string) : string :=
  match n, s with
  | S k, String c s' => String c (take k s')
  | _, _ => EmptyString
  end.

End PyStr.

(* ===================================================================== *)
(** ** Regular expressions: the fragment of [re] the script uses *)
(* ===================================================================== *)

Module Re.

(** Patterns built from literal text, a greedy [[class]+], capturing
    groups (never nested in this program) and concatenation. *)
Inductive pattern : Type :=
| Lit (text : string)
| Plus (cls : ascii -> bool)
| Group (p : pattern)
| Seq (p q : pattern).

(** [s] without the prefix [text], when it has it. *)
Fixpoint strip_prefix (text s : string) : option string :=
  match text, s with
  | EmptyString, _ => Some s
  | String a text', String b s' =>
      if Ascii.eqb a b then strip_prefix text' s' else None
  | String _ _, EmptyString => None
  end.

(** The text consumed between the subject [s] and what is left of it. *)
Definition consumed (s rest : string) : string :=
  PyStr.take (String.length s - String.length rest) s.

Section Backtracking.
Context {R : Type}.

(** After one character of the class: take as many more as possible, and
    give characters back one at a time while the continuation fails. *)
Fixpoint plus_more (cls : ascii -> bool) (s : string)
         (k : string -> option R) : option R :=
  match s with
  | String c s' =>
      if cls c then
        match plus_more cls s' k with
        | Some r => Some r
        | None => k s
        end
      else k s
  | EmptyString => k s
  end.

(** The matcher in continuation-passing style: [k] receives the rest of
    the subject and the groups closed so far, in order of closing. *)
Fixpoint run (p : pattern) (s : string) (groups : list string)
         (k : string -> list string -> option R) : option R :=
  match p with
  | Lit text =>
      match strip_prefix text s with
      | Some rest => k rest groups
      | None => None
      end
  | Plus cls =>
      match s with
      | String c s' =>
          if cls c then plus_more cls s' (fun rest => k rest groups) else None
      | EmptyString => None
      end
  | Group p' =>
      run p' s groups (fun rest gs => k rest (gs ++ [consumed s rest]))
  | Seq p1 p2 =>
      run p1 s groups (fun rest gs => run p2 rest gs k)
  end.
End Backtracking.

(** [re.match(p, s)]: the groups of the match anchored at the start. *)
Definition match_ (p : pattern) (s : string) : option (list string) :=
  run p s [] (fun _ gs => Some gs).

(** [re.search(p, s)]: the leftmost position where [p] matches. *)
Fixpoint search (p : pattern) (s : string) : option (list string) :=
  match match_ p s with
  | Some gs => Some gs
  | None =>
      match s with
      | EmptyString => None
      | String _ s' => search p s'
      end
  end.

(** [m.group(n)] for [n >= 1]. *)
Definition group (n : nat) (gs : list string) : string :=
  nth (n - 1) gs EmptyString.

End Re.

(* ===================================================================== *)
(** ** Exceptions, JSON values and the monad of effects *)
(* ===================================================================== *)

Module Py.

(** [d.get(key)] on a dict given as its item list (keys are distinct). *)
Fixpoint dict_get {V : Type} (key : string) (d : list (string * V)) : option V :=
  match d with
  | [] => None
  | (k, v) :: d' => if String.eqb key k then Some v else dict_get key d'
  end.

(** The exceptions that occur in the script and in the library calls it
    makes.  All of them derive from [Exception]. *)
Inductive exn : Type :=
| NameError
| AttributeError
| TypeError
| ValueError
| ZeroDivisionError
| OverflowError
| FileNotFoundError
| JSONDecodeError
| HTTPError (code : Z)
| URLError
| TimeoutError
| OtherError (name : string).

(** The classes named in the [except] clauses of the script. *)
Inductive exn_class : Type :=
| Exception
| urllib_error_HTTPError.

Definition isinstance (e : exn) (c : exn_class) : bool :=
  match c, e with
  | Exception, _ => true
  | urllib_error_HTTPError, HTTPError _ => true
  | urllib_error_HTTPError, _ => false
  end.

Inductive outcome (A : Type) : Type :=
| Return (a : A)
| Raise (e : exn).
Arguments Return {A} a.
Arguments Raise {A} e.

(** A computation over a mutable state [S]: it returns or raises, and the
    state it leaves is kept in both cases (an exception undoes nothing). *)
Definition prog (S A : Type) : Type := S -> outcome A * S.

Definition ret {S A} (a : A) : prog S A := fun s => (Return a, s).
Definition raise {S A} (e : exn) : prog S A := fun s => (Raise e, s).

Definition bind {S A B} (m : prog S A) (f : A -> prog S B) : prog S B :=
  fun s =>
    match m s with
    | (Return a, s') => f a s'
    | (Raise e, s') => (Raise e, s')
    end.

(** Sequencing of pure steps that may raise. *)
Definition and_then {A B} (o : outcome A) (f : A -> outcome B) : outcome B :=
  match o with
  | Return a => f a
  | Raise e => Raise e
  end.

(** A pure step that may raise. *)
Definition lift_outcome {S A} (o : outcome A) : prog S A := fun s => (o, s).

(** [pass]. *)
Definition pass {S} : prog S unit := ret tt.

(** The first [except] clause whose class the exception is an instance of. *)
Fixpoint find_handler {S} (e : exn) (handlers : list (exn_class * (exn -> prog S unit)))
  : option (exn -> prog S unit) :=
  match handlers with
  | [] => None
  | (c, h) :: handlers' => if isinstance e c then Some h else find_handler e handlers'
  end.

(** [try: body  except C1 as e: h1  except C2: h2 ...]. *)
Definition try_except {S} (body : prog S unit)
           (handlers : list (exn_class * (exn -> prog S unit))) : prog S unit :=
  fun s =>
    match body s with
    | (Return tt, s') => (Return tt, s')
    | (Raise e, s') =>
        match find_handler e handlers with
        | Some h => h e s'
        | None => (Raise e, s')
        end
    end.

(** A block with a local variable of type [L] next to the outer state. *)
Definition with_local {S L A} (init : L) (m : prog (L * S) A) : prog S A :=
  fun s => let '(o, (_, s')) := m (init, s) in (o, s').
Definition outer {S L A} (m : prog S A) : prog (L * S) A :=
  fun ls => let '(o, s') := m (snd ls) in (o, (fst ls, s')).
Definition local {S L} : prog (L * S) L := fun ls => (Return (fst ls), ls).
Definition set_local {S L} (f : L -> L) : prog (L * S) unit :=
  fun ls => (Return tt, (f (fst ls), snd ls)).

(** [for x in xs: ...] collecting the value of each round. *)
Fixpoint for_each {S A B} (f : A -> prog S B) (xs : list A) : prog S (list B) :=
  match xs with
  | [] => ret []
  | x :: xs' => bind (f x) (fun y => bind (for_each f xs') (fun ys => ret (y :: ys)))
  end.

#[local] Set Warnings "-register-all".

(** Values decoded by [json.loads]/[json.load]; [JNull] is [None].
    Numbers are the integers (the counts of the GitHub API are). *)
Inductive json : Type :=
| JNull
| JBool (b : bool)
| JInt (n : Z)
| JStr (s : string)
| JList (items : list json)
| JDict (items : list (string * json)).

(** [bool(v)]. *)
Definition truthy (v : json) : bool :=
  match v with
  | JNull => false
  | JBool b => b
  | JInt n => negb (n =? 0)%Z
  | JStr s => PyStr.nonempty s
  | JList items => match items with [] => false | _ => true end
  | JDict items => match items with [] => false | _ => true end
  end.

(** [data.get(key, default)]: only a dict has the method. *)
Definition json_get (data : json) (key : string) (default : json) : outcome json :=
  match data with
  | JDict items =>
      Return (match dict_get key items with Some v => v | None => default end)
  | _ => Raise AttributeError
  end.

(** The receiver of a [str] method call. *)
Definition as_str (v : json) : outcome string :=
  match v with
  | JStr s => Return s
  | _ => Raise AttributeError
  end.

(** An operand of [<], [*], [/] or [max] next to an [int]: [bool] is a
    subclass of [int]. *)
Definition as_number (v : json) : outcome Z :=
  match v with
  | JInt n => Return n
  | JBool b => Return (Z.b2z b)
  | _ => Raise TypeError
  end.

End Py.

Export Py.

Declare Scope prog_scope.
Delimit Scope prog_scope with prog.
Notation "x <- m ;; k" := (Py.bind m (fun x => k))
  (at level 61, m at next level, right associativity) : prog_scope.
Notation "m ;;; k" := (Py.bind m (fun _ => k))
  (at level 61, right associativity) : prog_scope.
Notation "x <-? o ;; k" := (Py.and_then o (fun x => k))
  (at level 61, o at next level, right associativity) : prog_scope.
Local Open Scope prog_scope.

(* ===================================================================== *)
(** ** Python [float] and [datetime] values *)
(* ===================================================================== *)

Module PyFloat.

(** A finite [float] is a binary64 value, and every such value is an
    integer multiple of [2 ^ -1074], the smallest positive one: [units] is
    that multiple. *)
Record float := mkFloat { units : Z }.

(** The integer nearest to [n / d] for a positive [d]; of two that are
    equally near, the even one. *)
Definition round_half_even (n d : Z) : Z :=
  let q := (n / d)%Z in
  let r := (n mod d)%Z in
  if (2 * r <? d)%Z then q
  else if (d <? 2 * r)%Z then (q + 1)%Z
  else if Z.even q then q else (q + 1)%Z.

(** The quotient [a / b] of a natural number by a positive one, rounded to
    the nearest value with 53 significant bits on the grid of the units
    (ties to even), in units.  [bits] is the position of the leading bit of
    the quotient counted in units; below 52 the value is subnormal and the
    grid is the grid of the units itself. *)
Definition nearest (a b : Z) : Z :=
  let scaled := (a * 2 ^ 1074)%Z in
  let bits := Z.log2 (scaled / b) in
  let shift := Z.max (bits - 52) 0 in
  (round_half_even scaled (b * 2 ^ shift) * 2 ^ shift)%Z.

(** [x / y] on two [int]s: the true quotient correctly rounded;
    [ZeroDivisionError] for a zero divisor and [OverflowError] when the
    rounded quotient reaches [2 ^ 1024], one step beyond the largest
    [float]. *)
Definition true_div (x y : Z) : outcome float :=
  if (y =? 0)%Z then Raise ZeroDivisionError
  else
    let k := nearest (Z.abs x) (Z.abs y) in
    if (2 ^ 2098 <=? k)%Z then Raise OverflowError
    else Return (mkFloat (Z.sgn x * Z.sgn y * k)).

(** [f > n] for an [int] [n]: the two are compared exactly. *)
Definition gt_int (f : float) (n : Z) : bool := (n * 2 ^ 1074 <? units f)%Z.

End PyFloat.

(** A [datetime]: aware of its UTC offset, and then an instant in
    microseconds since the epoch, or naive, a reading of a wall clock. *)
Inductive datetime : Type :=
| Aware (instant : Z)
| Naive (wall : Z).

(** [a - b], a [timedelta] in microseconds: an aware and a naive [datetime]
    cannot be subtracted. *)
Definition datetime_sub (a b : datetime) : outcome Z :=
  match a, b with
  | Aware x, Aware y => Return (x - y)%Z
  | Naive x, Naive y => Return (x - y)%Z
  | _, _ => Raise TypeError
  end.

(** [delta.days]: whole days, rounded down. *)
Definition timedelta_days (delta : Z) : Z := (delta / 86400000000)%Z.

(* ===================================================================== *)
(** ** The license registry and normalization (source lines 30-87) *)
(* ===================================================================== *)

(** [class License]. *)
Record License := mkLicense {
  requires_license_file : bool;
  is_non_commercial_only : bool
}.

(** [LICENSE_MAPPING], in source order. *)
Definition LICENSE_MAPPING : list (string * License) :=
  [ ("apache-2.0",   mkLicense true  false);
    ("mit",          mkLicense true  false);
    ("bsd",          mkLicense true  false);
    ("bsd-2-clause", mkLicense true  false);
    ("bsd-3-clause", mkLicense true  false);
    ("gpl-2.0",      mkLicense true  false);
    ("gpl-3.0",      mkLicense true  false);
    ("lgpl-2.1",     mkLicense true  false);
    ("lgpl-3.0",     mkLicense true  false);
    ("mpl-2.0",      mkLicense true  false);
    ("cc0-1.0",      mkLicense false false);
    ("isc",          mkLicense true  false);
    ("agpl-3.0",     mkLicense true  false);
    ("unlicense",    mkLicense true  false);
    ("cc-by-nc-4.0", mkLicense true  true);
    ("unknown",      mkLicense false false) ].

(** [LICENSE_MAPPING["unknown"]], the default handed to [.get]; the key is
    present in the table, so the subscript cannot fail. *)
Definition unknown_license : License :=
  match dict_get "unknown" LICENSE_MAPPING with
  | Some l => l
  | None => mkLicense false false
  end.

Definition get_license_object (license_id : string) : License :=
  let normalized := PyStr.strip (PyStr.casefold license_id) in
  match dict_get normalized LICENSE_MAPPING with
  | Some l => l
  | None => unknown_license
  end.

Definition normalize_license (license_str : string) : string :=
  if negb (PyStr.nonempty license_str) then "unknown"
  else PyStr.strip (PyStr.casefold license_str).

(* ===================================================================== *)
(** ** What the script finds around it *)
(* ===================================================================== *)

(** A file of the working directory as [open] and [json.load] see it. *)
Inductive file (A : Type) : Type :=
| Absent
| Unreadable (e : exn)
| Holds (content : A).
Arguments Absent {A}.
Arguments Unreadable {A} e.
Arguments Holds {A} content.

(** The [licenses] field of license-checker: a string or a list of strings. *)
Inductive licenses_field : Type :=
| LicStr (s : string)
| LicList (items : list string).

(** One value of [licenses-npm.json]; [None] is an absent key. *)
Record npm_info := mkNpmInfo {
  npm_licenses : option licenses_field;
  npm_repository : option string;
  npm_url : option string
}.

(** One item of [licenses-poetry.json]; [None] is an absent key. *)
Record poetry_item := mkPoetryItem {
  poetry_Name : option string;
  poetry_Version : option string;
  poetry_URL : option string;
  poetry_License : option string
}.

(** [urllib.request.Request(url, headers=headers)]. *)
Record request := mkRequest {
  req_url : string;
  req_headers : list (string * string)
}.

(** What [urlopen], [resp.read().decode] and [json.loads] make of a request:
    some step raises, or a JSON value is decoded. *)
Inductive response : Type :=
| Fails (e : exn)
| Delivers (data : json).

(** What [open("SOUP.md", "w")] and the [write] inside it do with a
    content: the file cannot be opened and stays as it is; or it is opened,
    which empties it, and writing or closing raises after [stored]
    characters have reached it; or the whole content is written. *)
Inductive write_result : Type :=
| OpenFails (e : exn)
| WriteFails (e : exn) (stored : nat)
| Written.

(** The surroundings of one run.  Instants are microseconds since the epoch;
    [fromisoformat] is [None] where [datetime.fromisoformat] raises
    [ValueError] and otherwise the [datetime] it returns, aware when the
    string carries an offset and naive when it does not.
    [urlopen n req] answers the request issued after [n] earlier ones and
    [utc_now n] is the clock at its [n]-th reading.
    The script neither defines nor imports [parse_maintainer_from_url]:
    the field is the binding of that global name, [None] when the script
    runs as it is shipped, [Some f] when something outside has bound it. *)
Record host := mkHost {
  GITHUB_TOKEN : string;
  urlopen : nat -> request -> response;
  fromisoformat : string -> option datetime;
  utc_now : nat -> Z;
  parse_maintainer_from_url : option (string -> string);
  licenses_npm_json : file (list (string * npm_info));
  licenses_poetry_json : file (list poetry_item);
  cook_soup_template_md : file string;
  SOUP_md_writes : string -> write_result
}.

(** The script as shipped: nothing binds the missing name. *)
Definition shipped (h : host) : Prop := parse_maintainer_from_url h = None.

(** What a run changes: the requests sent so far (oldest first), the number
    of clock readings, and the report once it is written. *)
Record world := mkWorld {
  requests : list request;
  clock_reads : nat;
  SOUP_md : option string
}.

Definition urlopen_json (h : host) (req : request) : prog world json :=
  fun w =>
    let w' := mkWorld (requests w ++ [req]) (clock_reads w) (SOUP_md w) in
    match urlopen h (List.length (requests w)) req with
    | Fails e => (Raise e, w')
    | Delivers data => (Return data, w')
    end.

(** [datetime.now(timezone.utc)]: an aware [datetime]. *)
Definition datetime_now (h : host) : prog world datetime :=
  fun w =>
    (Return (Aware (utc_now h (clock_reads w))),
     mkWorld (requests w) (S (clock_reads w)) (SOUP_md w)).

(** [with open("SOUP.md", "w") as out_file: out_file.write(content)]:
    opening truncates the file before anything is written. *)
Definition write_SOUP_md (h : host) (content : string) : prog world unit :=
  fun w =>
    match SOUP_md_writes h content with
    | OpenFails e => (Raise e, w)
    | WriteFails e stored =>
        (Raise e, mkWorld (requests w) (clock_reads w) (Some (PyStr.take stored content)))
    | Written => (Return tt, mkWorld (requests w) (clock_reads w) (Some content))
    end.

(** [os.path.exists(path)]. *)
Definition os_path_exists {A} (f : file A) : bool :=
  match f with Absent => false | _ => true end.

(** [with open(path) as f: data = json.load(f)] (or [f.read()]). *)
Definition load {A} (f : file A) : outcome A :=
  match f with
  | Absent => Raise FileNotFoundError
  | Unreadable e => Raise e
  | Holds content => Return content
  end.

(* ===================================================================== *)
(** ** Ingestion adapters (source lines 90-142) *)
(* ===================================================================== *)

(** The dict every adapter builds for one dependency. *)
Record entry := mkEntry {
  name : string;
  version : string;
  url : string;
  license : string
}.

(** [d.get(key, default)] for an optional field. *)
Definition get_or {A} (field : option A) (default : A) : A :=
  match field with Some v => v | None => default end.

Definition process_poetry_licenses (file_path : file (list poetry_item))
  : outcome (list entry) :=
  data <-? load file_path ;;
  Return (map (fun item =>
                 let normalized := normalize_license (get_or (poetry_License item) EmptyString) in
                 mkEntry (get_or (poetry_Name item) "Unknown")
                         (get_or (poetry_Version item) "Unknown")
                         (get_or (poetry_URL item) EmptyString)
                         normalized)
              data).

(** [a or b] on strings and absent values: the first one that is true. *)
Definition or_else (a : option string) (b : string) : string :=
  match a with
  | Some s => if PyStr.nonempty s then s else b
  | None => b
  end.

(** The body of the loop of [process_npm_licenses].  An empty [licenses]
    list stays as it is and is as false as the empty string for
    [normalize_license]. *)
Definition npm_entry (package_key : string) (info : npm_info) : outcome entry :=
  name_version <-?
    (if PyStr.mem_char "@" package_key
     then match PyStr.rsplit1 "@" package_key with
          | [n; v] => Return (n, v)
          | _ => Raise ValueError
          end
     else Return (package_key, "unknown")) ;;
  let license_str := get_or (npm_licenses info) (LicStr EmptyString) in
  let license_str :=
    match license_str with
    | LicList (first :: _) => first
    | LicList [] => EmptyString
    | LicStr s => s
    end in
  let normalized := normalize_license license_str in
  let url := or_else (npm_repository info) (or_else (npm_url info) EmptyString) in
  Return (mkEntry (fst name_version) (snd name_version) url normalized).

Fixpoint npm_entries (items : list (string * npm_info)) : outcome (list entry) :=
  match items with
  | [] => Return []
  | (package_key, info) :: items' =>
      e <-? npm_entry package_key info ;;
      es <-? npm_entries items' ;;
      Return (e :: es)
  end.

Definition process_npm_licenses (file_path : file (list (string * npm_info)))
  : outcome (list entry) :=
  data <-? load file_path ;;
  npm_entries data.

(* ===================================================================== *)
(** ** Repository metadata fetcher (source lines 145-237) *)
(* ===================================================================== *)

(** The [result] dict of [fetch_github_repo_info]. *)
Record repo_info := mkRepoInfo {
  stars : json;
  last_commit_date : option datetime;
  latest_version : json;
  open_issues_count : json;
  last_release_date : option datetime;
  has_known_cve : bool
}.

Definition set_stars (v : json) (r : repo_info) : repo_info :=
  mkRepoInfo v (last_commit_date r) (latest_version r)
             (open_issues_count r) (last_release_date r) (has_known_cve r).
Definition set_last_commit_date (t : datetime) (r : repo_info) : repo_info :=
  mkRepoInfo (stars r) (Some t) (latest_version r)
             (open_issues_count r) (last_release_date r) (has_known_cve r).
Definition set_latest_version (v : json) (r : repo_info) : repo_info :=
  mkRepoInfo (stars r) (last_commit_date r) v
             (open_issues_count r) (last_release_date r) (has_known_cve r).
Definition set_open_issues_count (v : json) (r : repo_info) : repo_info :=
  mkRepoInfo (stars r) (last_commit_date r) (latest_version r)
             v (last_release_date r) (has_known_cve r).
Definition set_last_release_date (t : datetime) (r : repo_info) : repo_info :=
  mkRepoInfo (stars r) (last_commit_date r) (latest_version r)
             (open_issues_count r) (Some t) (has_known_cve r).
Definition set_has_known_cve (b : bool) (r : repo_info) : repo_info :=
  mkRepoInfo (stars r) (last_commit_date r) (latest_version r)
             (open_issues_count r) (last_release_date r) b.

(** The default values the function starts from. *)
Definition default_result : repo_info :=
  mkRepoInfo (JInt 0) None JNull (JInt 0) None false.

(** [datetime.fromisoformat(v.replace("Z", "+00:00"))]. *)
Definition parse_timestamp (h : host) (v : json) : outcome datetime :=
  s <-? as_str v ;;
  match fromisoformat h (PyStr.replace "Z" "+00:00" s) with
  | Some t => Return t
  | None => Raise ValueError
  end.

Definition request_headers (h : host) : list (string * string) :=
  let api_token := GITHUB_TOKEN h in
  [("Accept", "application/vnd.github+json")]
    ++ (if PyStr.nonempty api_token
        then [("Authorization", ("Bearer " ++ api_token)%string)]
        else []).

Definition base_repo_api_url (owner repo : string) : string :=
  ("https://api.github.com/repos/" ++ owner ++ "/" ++ repo)%string.
Definition releases_api_url (owner repo : string) : string :=
  (base_repo_api_url owner repo ++ "/releases/latest")%string.
Definition advisories_url (owner repo : string) : string :=
  ("https://api.github.com/repos/" ++ owner ++ "/" ++ repo ++ "/security/advisories")%string.

(** 1) Basic repo info: the body of the first [try]. *)
Definition fetch_repo_body (h : host) (owner repo : string)
  : prog (repo_info * world) unit :=
  data <- outer (urlopen_json h (mkRequest (base_repo_api_url owner repo) (request_headers h))) ;;
  stargazers <- lift_outcome (json_get data "stargazers_count" (JInt 0)) ;;
  set_local (set_stars stargazers) ;;;
  issues <- lift_outcome (json_get data "open_issues_count" (JInt 0)) ;;
  set_local (set_open_issues_count issues) ;;;
  pushed_at <- lift_outcome (json_get data "pushed_at" (JStr EmptyString)) ;;
  if truthy pushed_at
  then t <- lift_outcome (parse_timestamp h pushed_at) ;;
       set_local (set_last_commit_date t)
  else pass.

(** 2) Latest release info: the body of the second [try]. *)
Definition fetch_release_body (h : host) (owner repo : string)
  : prog (repo_info * world) unit :=
  data <- outer (urlopen_json h (mkRequest (releases_api_url owner repo) (request_headers h))) ;;
  tag_name <- lift_outcome (json_get data "tag_name" JNull) ;;
  set_local (set_latest_version tag_name) ;;;
  published_at <- lift_outcome (json_get data "published_at" (JStr EmptyString)) ;;
  if truthy published_at
  then t <- lift_outcome (parse_timestamp h published_at) ;;
       set_local (set_last_release_date t)
  else pass.

(** 3) Security advisories: the body of the third [try]. *)
Definition fetch_advisories_body (h : host) (owner repo : string)
  : prog (repo_info * world) unit :=
  advisories_data <- outer (urlopen_json h (mkRequest (advisories_url owner repo) (request_headers h))) ;;
  match advisories_data with
  | JList (_ :: _) => set_local (set_has_known_cve true)
  | _ => pass
  end.

Definition fetch_github_repo_info (h : host) (owner repo : string)
  : prog world repo_info :=
  with_local default_result
    (try_except (fetch_repo_body h owner repo)
       [ (Exception, fun _ => pass) ] ;;;
     try_except (fetch_release_body h owner repo)
       [ (urllib_error_HTTPError,
          fun e => match e with
                   | HTTPError code => if negb (code =? 404)%Z then pass else pass
                   | _ => pass
                   end);
         (Exception, fun _ => pass) ] ;;;
     try_except (fetch_advisories_body h owner repo)
       [ (urllib_error_HTTPError, fun _ => pass);
         (Exception, fun _ => pass) ] ;;;
     local).

(* ===================================================================== *)
(** ** Version comparison (source lines 240-253) *)
(* ===================================================================== *)

(** The pattern [(\d+)\.]. *)
Definition major_pattern : Re.pattern :=
  Re.Seq (Re.Group (Re.Plus PyStr.is_digit)) (Re.Lit ".").

Definition parse_major (ver_str : json) : outcome Z :=
  s <-? as_str ver_str ;;
  let ver_str := PyStr.lstrip_chars "v" s in
  match Re.match_ major_pattern ver_str with
  | Some groups => Return (PyStr.int_of_digits (Re.group 1 groups))
  | None => Return 0%Z
  end.

Definition is_significantly_older (local_version latest_version : json)
  : outcome bool :=
  if negb (truthy local_version) || negb (truthy latest_version)
  then Return false
  else
    local_major <-? parse_major local_version ;;
    latest_major <-? parse_major latest_version ;;
    Return (latest_major - local_major >=? 1)%Z.

(* ===================================================================== *)
(** ** Risk scorer (source lines 256-331) *)
(* ===================================================================== *)

(** The pattern [github\.com/([^/]+)/([^/]+)]. *)
Definition not_slash (c : ascii) : bool := negb (Ascii.eqb c "/").
Definition github_pattern : Re.pattern :=
  Re.Seq (Re.Lit "github.com/")
    (Re.Seq (Re.Group (Re.Plus not_slash))
       (Re.Seq (Re.Lit "/") (Re.Group (Re.Plus not_slash)))).

(** The two accumulators [score] and [notes_list]. *)
Record tally := mkTally {
  score : Z;
  notes_list : list string
}.

(** [score += points; notes_list.append(label)]. *)
Definition add_points (points : Z) (label : string) (t : tally) : tally :=
  mkTally (score t + points) (notes_list t ++ [label]).

(** Lines 282-331: the score of the fetched [info]. *)
Definition assess_risk_scoring (h : host) (local_version : string) (info : repo_info)
  : prog world (string * string) :=
  let t := mkTally 0 [] in
  (* (1) Infrequent Commits *)
  t <- match last_commit_date info with
       | Some pushed =>
           now <- datetime_now h ;;
           delta <- lift_outcome (datetime_sub now pushed) ;;
           let days_since_push := timedelta_days delta in
           ret (if (days_since_push >? 365)%Z
                then add_points 1 "Infrequent Commits" t else t)
       | None => ret t
       end ;;
  (* (2) Low Popularity *)
  stars_n <- lift_outcome (as_number (stars info)) ;;
  let t := if (stars_n <? 100)%Z then add_points 2 "Low Popularity" t else t in
  (* (3) Significantly Older Version *)
  older <- lift_outcome (is_significantly_older (JStr local_version) (latest_version info)) ;;
  let t := if older then add_points 2 "Version Behind Latest" t else t in
  (* (4) Excessive Open Issues *)
  issues_n <- lift_outcome (as_number (open_issues_count info)) ;;
  issues_per_100_stars <-
    lift_outcome (PyFloat.true_div (issues_n * 100) (Z.max stars_n 1)) ;;
  let t := if PyFloat.gt_int issues_per_100_stars 50
           then add_points 1 "Excessive Open Issues" t else t in
  (* (5) Last Release Date > 2 years *)
  t <- match last_release_date info with
       | Some released =>
           now <- datetime_now h ;;
           delta <- lift_outcome (datetime_sub now released) ;;
           let days_since_release := timedelta_days delta in
           ret (if (days_since_release >? 730)%Z
                then add_points 1 "Stale Release (>2y)" t else t)
       | None => ret t
       end ;;
  (* (6) Open CVE / CWEs *)
  let t := if has_known_cve info then add_points 3 "Known CVE/CWEs" t else t in
  let risk_level :=
    if (score t <=? 1)%Z then "Low"
    else if (score t <=? 3)%Z then "Medium"
    else "High" in
  let notes := PyStr.join ", " (notes_list t) in
  ret (risk_level, notes).

(** Resolution of the global name [parse_maintainer_from_url]. *)
Definition global_parse_maintainer_from_url (h : host) : outcome (string -> string) :=
  match parse_maintainer_from_url h with
  | Some f => Return f
  | None => Raise NameError
  end.

Definition assess_risk (h : host) (repo_url local_version : string)
  : prog world (string * string) :=
  f <- lift_outcome (global_parse_maintainer_from_url h) ;;
  let owner := f repo_url in
  if negb (PyStr.nonempty owner) then ret ("Low", EmptyString)
  else
    match Re.search github_pattern repo_url with
    | None => ret ("Low", EmptyString)
    | Some groups =>
        let repo_name := PyStr.rstrip_chars ".git" (Re.group 2 groups) in
        info <- fetch_github_repo_info h owner repo_name ;;
        assess_risk_scoring h local_version info
    end.

(* ===================================================================== *)
(** ** Aggregation pipeline and report (source lines 334-401) *)
(* ===================================================================== *)

(** The key [(e["name"], e["version"], e["license"])]. *)
Definition entry_key (e : entry) : string * string * string :=
  (name e, version e, license e).

Definition key_eqb (k1 k2 : string * string * string) : bool :=
  let '(n1, v1, l1) := k1 in
  let '(n2, v2, l2) := k2 in
  String.eqb n1 n2 && String.eqb v1 v2 && String.eqb l1 l2.

(** [key in unique_map]; the dict is its list of items in insertion order. *)
Fixpoint key_in (key : string * string * string)
         (unique_map : list ((string * string * string) * entry)) : bool :=
  match unique_map with
  | [] => false
  | (k, _) :: rest => key_eqb key k || key_in key rest
  end.

(** The loop of lines 349-352 from a given [unique_map]. *)
Fixpoint dedup_loop (entries : list entry)
         (unique_map : list ((string * string * string) * entry))
  : list ((string * string * string) * entry) :=
  match entries with
  | [] => unique_map
  | e :: rest =>
      let key := entry_key e in
      dedup_loop rest
        (if negb (key_in key unique_map) then unique_map ++ [(key, e)] else unique_map)
  end.

(** Lines 347-353: [final_entries = list(unique_map.values())]. *)
Definition deduplicate (entries : list entry) : list entry :=
  map snd (dedup_loop entries []).

(** An entry after the enrichment loop has added its three keys. *)
Record enriched := mkEnriched {
  base : entry;
  risk_level : string;
  license_req : string;
  notes : string
}.

(** Lines 364-367: an unknown license replaces what the scorer returned. *)
Definition unknown_license_override (e : entry) (scored : string * string)
  : string * string :=
  if String.eqb (license e) "unknown"
  then ("High", "Unknown License, Manual Review Required")
  else scored.

(** The body of the enrichment loop, lines 357-371. *)
Definition enrich_entry (h : host) (e : entry) : prog world enriched :=
  let license_obj := get_license_object (license e) in
  let license_req :=
    if requires_license_file license_obj
    then "Include License File" else "No License File Required" in
  let license_req :=
    if is_non_commercial_only license_obj
    then (license_req ++ ", NON-COMMERCIAL USE ONLY")%string else license_req in
  scored <- assess_risk h (url e) (version e) ;;
  let '(risk_level, notes) := unknown_license_override e scored in
  ret (mkEnriched e risk_level license_req notes).

(** [risk_priority]. *)
Definition risk_priority : list (string * Z) :=
  [ ("High", 1%Z); ("Medium", 2%Z); ("Low", 3%Z) ].

(** The sort key [(risk_priority.get(e["risk_level"], 999), e["name"].lower())]. *)
Definition sort_key (e : enriched) : Z * string :=
  (get_or (dict_get (risk_level e) risk_priority) 999%Z, PyStr.lower (name (base e))).

(** [a <= b] on the key tuples: first components, then the strings by code point. *)
Definition key_le (a b : Z * string) : bool :=
  (fst a <? fst b)%Z || ((fst a =? fst b)%Z && String.leb (snd a) (snd b)).

(** [list.sort(key=...)] is a stable sort.  Every stable sort returns the
    same list, so it is written as the insertion sort that puts an element
    before the first one of the sorted rest whose key is not smaller. *)
Fixpoint insert_by {A K} (key : A -> K) (le : K -> K -> bool) (x : A) (l : list A)
  : list A :=
  match l with
  | [] => [x]
  | y :: l' => if le (key x) (key y) then x :: l else y :: insert_by key le x l'
  end.

Fixpoint list_sort {A K} (key : A -> K) (le : K -> K -> bool) (l : list A) : list A :=
  match l with
  | [] => []
  | x :: l' => insert_by key le x (list_sort key le l')
  end.

(** Lines 374-377. *)
Definition sort_entries (final_entries : list enriched) : list enriched :=
  list_sort sort_key key_le final_entries.

(** The newline character. *)
Definition nl : string := String (ascii_of_nat 10) EmptyString.

Definition table_header : string :=
  "| Risk Level | Component Name | Version | License | License Requirements | Notes | GitHub Repo URL |".
Definition table_divider : string :=
  "|------------|---------------|---------|---------|----------------------|-------|-----------------|".

(** One row of the table, lines 385-393. *)
Definition table_row (e : enriched) : string :=
  ("| " ++ risk_level e ++ " "
   ++ "| " ++ name (base e) ++ " "
   ++ "| " ++ version (base e) ++ " "
   ++ "| " ++ license (base e) ++ " "
   ++ "| " ++ license_req e ++ " "
   ++ "| " ++ notes e ++ " "
   ++ "| " ++ url (base e) ++ " |")%string.

Definition md_lines (final_entries : list enriched) : list string :=
  table_header :: table_divider :: map table_row final_entries.

(** Lines 341-345: the adapters run on the files that exist. *)
Definition collect_entries (h : host) : outcome (list entry) :=
  from_npm <-? (if os_path_exists (licenses_npm_json h)
                then process_npm_licenses (licenses_npm_json h) else Return []) ;;
  from_poetry <-? (if os_path_exists (licenses_poetry_json h)
                   then process_poetry_licenses (licenses_poetry_json h) else Return []) ;;
  Return (from_npm ++ from_poetry).

Definition main (h : host) : prog world unit :=
  entries <- lift_outcome (collect_entries h) ;;
  let final_entries := deduplicate entries in
  final_entries <- for_each (enrich_entry h) final_entries ;;
  let final_entries := sort_entries final_entries in
  template_content <- lift_outcome (load (cook_soup_template_md h)) ;;
  let final_content :=
    PyStr.replace "{{DEPENDENCY_TABLE}}" (PyStr.join nl (md_lines final_entries))
                  template_content in
  write_SOUP_md h final_content.

(* ===================================================================== *)
(** ** Hosts for the examples *)
(* ===================================================================== *)

(** Days from 1970-01-01 to the given date of the proleptic Gregorian calendar. *)
Definition days_from_civil (y m d : Z) : Z :=
  let y' := if (m <=? 2)%Z then (y - 1)%Z else y in
  let era := (y' / 400)%Z in
  let yoe := (y' - era * 400)%Z in
  let doy := ((153 * (m + (if (2 <? m)%Z then -3 else 9)) + 2) / 5 + d - 1)%Z in
  let doe := (yoe * 365 + yoe / 4 - yoe / 100 + doy)%Z in
  (era * 146097 + doe - 719468)%Z.

Definition days_in_month (y m : Z) : Z :=
  if (m =? 2)%Z then
    if ((y mod 4 =? 0) && (negb (y mod 100 =? 0) || (y mod 400 =? 0)))%Z%bool
    then 29%Z else 28%Z
  else if ((m =? 4) || (m =? 6) || (m =? 9) || (m =? 11))%Z%bool then 30%Z
  else 31%Z.

(** The digits of [s] from position [i] on, [n] of them. *)
Definition number_at (i n : nat) (s : string) : option Z :=
  let part := String.substring i n s in
  if (String.length part =? n)%nat && PyStr.nonempty part
     && String.eqb (PyStr.drop_while PyStr.is_digit part) EmptyString
  then Some (PyStr.int_of_digits part) else None.

(** A [fromisoformat] for the examples: it reads the timestamps GitHub
    sends, [YYYY-MM-DDTHH:MM:SS+00:00] once the script has replaced the
    final Z, as aware, the same without the offset as naive, and rejects
    every other string (Python reads further ISO forms; none occurs in the
    examples). *)
Definition iso8601_utc (s : string) : option datetime :=
  match number_at 0 4 s, number_at 5 2 s, number_at 8 2 s,
        number_at 11 2 s, number_at 14 2 s, number_at 17 2 s with
  | Some y, Some m, Some d, Some hh, Some mm, Some ss =>
      if String.eqb (String.substring 4 1 s) "-"
         && String.eqb (String.substring 7 1 s) "-"
         && String.eqb (String.substring 10 1 s) "T"
         && String.eqb (String.substring 13 1 s) ":"
         && String.eqb (String.substring 16 1 s) ":"
         && (1 <=? y)%Z && (1 <=? m)%Z && (m <=? 12)%Z
         && (1 <=? d)%Z && (d <=? days_in_month y m)%Z
         && (hh <? 24)%Z && (mm <? 60)%Z && (ss <? 60)%Z
      then
        let micros := ((days_from_civil y m d * 86400 + hh * 3600 + mm * 60 + ss)
                       * 1000000)%Z in
        if (String.length s =? 25)%nat && String.eqb (String.substring 19 6 s) "+00:00"
        then Some (Aware micros)
        else if (String.length s =? 19)%nat then Some (Naive micros)
        else None
      else None
  | _, _, _, _, _, _ => None
  end.

(** A binding for the missing global, for hosts that are given one: the
    owner segment of a GitHub URL, the empty string elsewhere. *)
Definition owner_of_url (repo_url : string) : string :=
  match Re.search github_pattern repo_url with
  | Some groups => Re.group 1 groups
  | None => EmptyString
  end.

(** The world before the run. *)
Definition initial_world : world := mkWorld [] 0 None.

(** The script as shipped, without network, at noon of 2025-01-01, with one
    poetry record and the template of the specification. *)
Definition offline_host : host :=
  mkHost EmptyString
         (fun _ _ => Fails URLError)
         iso8601_utc
         (fun _ => 1735732800000000%Z)
         None
         Absent
         (Holds [mkPoetryItem (Some "requests") (Some "2.0.0") (Some EmptyString)
                              (Some EmptyString)])
         (Holds ("HEADER" ++ nl ++ "{{DEPENDENCY_TABLE}}" ++ nl ++ "FOOTER")%string)
         (fun _ => Written).

(** The same surroundings with the missing global bound from outside and a
    GitHub that knows one repository. *)
Definition github_answers (n : nat) (req : request) : response :=
  if String.eqb (req_url req) "https://api.github.com/repos/psf/requests" then
    Delivers (JDict [ ("stargazers_count", JInt 50);
                      ("open_issues_count", JInt 30);
                      ("pushed_at", JStr "2023-06-01T00:00:00Z") ])
  else if String.eqb (req_url req) "https://api.github.com/repos/psf/requests/releases/latest" then
    Delivers (JDict [ ("tag_name", JStr "v2.31.0");
                      ("published_at", JStr "2022-05-22T10:00:00Z") ])
  else if String.eqb (req_url req) "https://api.github.com/repos/psf/requests/security/advisories" then
    Delivers (JList [ JDict [ ("ghsa_id", JStr "GHSA-0000-0000-0000") ] ])
  else Fails (HTTPError 404).

Definition patched_host : host :=
  mkHost "token"
         github_answers
         iso8601_utc
         (fun _ => 1735732800000000%Z)
         (Some owner_of_url)
         (Holds [ ("left-pad@1.3.0", mkNpmInfo (Some (LicStr "WTFPL")) None None) ])
         (Holds [mkPoetryItem (Some "requests") (Some "1.0.0")
                              (Some "https://github.com/psf/requests.git")
                              (Some "Apache-2.0");
                 mkPoetryItem (Some "mystery") (Some "0.1") None None])
         (Holds ("HEADER" ++ nl ++ "{{DEPENDENCY_TABLE}}" ++ nl ++ "FOOTER")%string)
         (fun _ => Written).

(** A GitHub whose repository answer carries counts and a timestamp that is
    no ISO date. *)
Definition malformed_answers (n : nat) (req : request) : response :=
  if String.eqb (req_url req) "https://api.github.com/repos/acme/widget" then
    Delivers (JDict [ ("stargazers_count", JInt 5);
                      ("open_issues_count", JInt 7);
                      ("pushed_at", JStr "yesterday") ])
  else Fails (HTTPError 404).

Definition malformed_host : host :=
  mkHost EmptyString malformed_answers iso8601_utc (fun _ => 1735732800000000%Z)
         None Absent Absent Absent (fun _ => Written).

(* ===================================================================== *)
(** ** Vocabulary of the properties *)
(* ===================================================================== *)

(** Every character of [s] satisfies [p]. *)
Fixpoint all_chars (p : ascii -> bool) (s : string) : bool :=
  match s with
  | EmptyString => true
  | String c s' => p c && all_chars p s'
  end.

(** A non-empty string made of blanks only. *)
Definition only_blanks (s : string) : bool :=
  PyStr.nonempty s && all_chars PyStr.is_space s.

(** The longest prefix whose characters satisfy [p]. *)
Fixpoint take_while (p : ascii -> bool) (s : string) : string :=
  match s with
  | EmptyString => EmptyString
  | String c s' => if p c then String c (take_while p s') else EmptyString
  end.

(** [s] starts with a character of the class. *)
Definition starts_in (cls : ascii -> bool) (s : string) : bool :=
  match s with
  | String c _ => cls c
  | EmptyString => false
  end.

(** [s] starts with the character [c]. *)
Definition followed_by (c : ascii) (s : string) : bool :=
  match s with
  | String d _ => Ascii.eqb c d
  | EmptyString => false
  end.

(** The major number [parse_major] reads: after every leading ["v"], the
    longest run of digits when it is not empty and a dot follows it, and 0
    otherwise. *)
Definition dotted_major (ver : string) : Z :=
  let t := PyStr.drop_while (fun c => Ascii.eqb c "v") ver in
  let digits := take_while PyStr.is_digit t in
  if PyStr.nonempty digits && followed_by "." (PyStr.drop_while PyStr.is_digit t)
  then PyStr.int_of_digits digits else 0%Z.

(** The comparison as the specification words it: one optional leading
    ["v"] is dropped, the leading integer is the longest run of digits, and
    a version without one counts as major 0. *)
Definition spec_parse_major (ver : string) : Z :=
  let t := match ver with String "v" rest => rest | _ => ver end in
  if PyStr.nonempty (take_while PyStr.is_digit t)
  then PyStr.int_of_digits (take_while PyStr.is_digit t) else 0%Z.

Definition spec_is_significantly_older (local_version latest_version : string) : bool :=
  PyStr.nonempty local_version && PyStr.nonempty latest_version
  && (spec_parse_major latest_version - spec_parse_major local_version >=? 1)%Z.

(** What the specification says of one item of the mapping and the record
    made of it. *)
Record npm_parsed (package_key : string) (info : npm_info) (e : entry) : Prop := {
  parsed_split :
    PyStr.mem_char "@" package_key = true ->
    package_key = (name e ++ "@" ++ version e)%string
    /\ PyStr.mem_char "@" (version e) = false;
  parsed_no_at :
    PyStr.mem_char "@" package_key = false ->
    name e = package_key /\ version e = "unknown";
  parsed_license_list :
    forall first others,
      npm_licenses info = Some (LicList (first :: others)) ->
      license e = normalize_license first;
  parsed_license_str :
    forall s, npm_licenses info = Some (LicStr s) -> license e = normalize_license s;
  parsed_license_none :
    npm_licenses info = None \/ npm_licenses info = Some (LicList []) ->
    license e = "unknown";
  parsed_url_repository :
    forall r, npm_repository info = Some r -> r <> EmptyString -> url e = r;
  parsed_url_url :
    forall u,
      npm_repository info = None \/ npm_repository info = Some EmptyString ->
      npm_url info = Some u -> u <> EmptyString -> url e = u;
  parsed_url_empty :
    npm_repository info = None \/ npm_repository info = Some EmptyString ->
    npm_url info = None \/ npm_url info = Some EmptyString ->
    url e = EmptyString
}.

(** The entry carries the key [k]. *)
Definition has_key (k : string * string * string) (e : entry) : bool :=
  key_eqb (entry_key e) k.

(** [e] has the name, the version and the license of [a]. *)
Definition same_triple (a e : entry) : bool :=
  String.eqb (name e) (name a)
  && String.eqb (version e) (version a)
  && String.eqb (license e) (license a).

(** The records seen first, in order of first appearance: the head, then
    what the rest keeps under another key. *)
Fixpoint first_seen (entries : list entry) : list entry :=
  match entries with
  | [] => []
  | e :: rest =>
      e :: filter (fun x => negb (has_key (entry_key e) x)) (first_seen rest)
  end.

(** [x] may stand before [y]: its key is not above the key of [y]. *)
Definition ordered_by {A K : Type} (key : A -> K) (le : K -> K -> bool) (x y : A) : Prop :=
  le (key x) (key y) = true.

(** The rank of a risk category in the report: High first. *)
Definition risk_rank (level : string) : Z :=
  if String.eqb level "High" then 1
  else if String.eqb level "Medium" then 2
  else if String.eqb level "Low" then 3
  else 999.

(** [x] may stand before [y] in the report: a category of higher
    precedence, or the same category and a name that is not greater once
    the case of the letters is ignored. *)
Definition report_order (x y : enriched) : Prop :=
  (risk_rank (risk_level x) < risk_rank (risk_level y))%Z
  \/ (risk_rank (risk_level x) = risk_rank (risk_level y)
      /\ String.leb (PyStr.lower (name (base x))) (PyStr.lower (name (base y))) = true).

(** Same category and same name up to the case of the letters. *)
Definition report_tie (x y : enriched) : bool :=
  (risk_rank (risk_level x) =? risk_rank (risk_level y))%Z
  && String.eqb (PyStr.lower (name (base x))) (PyStr.lower (name (base y))).

(** A report row with the given category and name. *)
Definition row_of (level component : string) : enriched :=
  mkEnriched (mkEntry component "1.0.0" EmptyString "mit") level "Include License File" EmptyString.

(** Which of the six rules apply. *)
Record signals := mkSignals {
  infrequent_commits : bool;
  low_popularity : bool;
  version_behind : bool;
  excessive_open_issues : bool;
  stale_release : bool;
  known_cve : bool
}.

(** The rules in the order they are checked: whether the rule applies, its
    points and its label. *)
Definition rules (sg : signals) : list (bool * Z * string) :=
  [ (infrequent_commits sg,    1%Z, "Infrequent Commits");
    (low_popularity sg,        2%Z, "Low Popularity");
    (version_behind sg,        2%Z, "Version Behind Latest");
    (excessive_open_issues sg, 1%Z, "Excessive Open Issues");
    (stale_release sg,         1%Z, "Stale Release (>2y)");
    (known_cve sg,             3%Z, "Known CVE/CWEs") ].

Definition applies (rule : bool * Z * string) : bool := fst (fst rule).
Definition points (rule : bool * Z * string) : Z := snd (fst rule).
Definition label (rule : bool * Z * string) : string := snd rule.

(** The sum of the points of the rules that apply. *)
Definition total_score (sg : signals) : Z :=
  fold_right Z.add 0%Z (map points (filter applies (rules sg))).

(** The labels of the rules that apply, in rule order. *)
Definition triggered_labels (sg : signals) : list string :=
  map label (filter applies (rules sg)).

(** Low for 0 or 1, Medium for 2 or 3, High for 4 or more. *)
Definition category (total : Z) : option string :=
  if (total =? 0)%Z || (total =? 1)%Z then Some "Low"
  else if (total =? 2)%Z || (total =? 3)%Z then Some "Medium"
  else if (4 <=? total)%Z then Some "High"
  else None.

(** The instant exists and lies [days] times 24 hours or more before [now]. *)
Definition days_before (days now : Z) (stamp : option Z) : bool :=
  match stamp with
  | Some t => (days * 86400000000 <=? now - t)%Z
  | None => false
  end.

(** One reading of the clock is made for a timestamp that exists. *)
Definition clock_readings {A : Type} (stamp : option A) : nat :=
  match stamp with Some _ => 1 | None => 0 end.

(** The latest tag as the fetcher stores it: a string, or [None]. *)
Definition tag_value (tag : option string) : json :=
  match tag with Some latest => JStr latest | None => JNull end.

(** Both versions are there and the dotted major of the latest tag is
    above the dotted major of the local version. *)
Definition behind_latest (local_version : string) (tag : option string) : bool :=
  match tag with
  | Some latest =>
      PyStr.nonempty local_version && PyStr.nonempty latest
      && (dotted_major local_version <? dotted_major latest)%Z
  | None => false
  end.

(** The quotient [x / y] of two integers, [y] positive, lies above
    [50 + 2 ^ -48], the midpoint between 50 and the next [float]. *)
Definition ratio_above_50 (x y : Z) : bool :=
  ((50 * 2 ^ 48 + 1) * y <? x * 2 ^ 48)%Z.

(** The quotient [x / y], [y] positive, is beyond the range of [float]: its
    magnitude reaches [2 ^ 1024 - 2 ^ 970], the midpoint between the largest
    [float] and [2 ^ 1024]. *)
Definition ratio_overflows (x y : Z) : bool :=
  ((2 ^ 1024 - 2 ^ 970) * y <=? Z.abs x)%Z.

(** The [datetime] a timestamp field denotes: none when the field is false
    (absent, null, empty), is no string, or is a string that
    [fromisoformat] rejects. *)
Definition timestamp_of (h : host) (v : json) : option datetime :=
  match v with
  | JStr s =>
      if PyStr.nonempty s then fromisoformat h (PyStr.replace "Z" "+00:00" s) else None
  | _ => None
  end.

(** What the three responses contribute to the result, each on its own:
    stars, open issues and last commit from the repository response; latest
    version and last release from the release response; the flag from the
    advisories response. *)
Definition repo_fields (h : host) (resp : response) : json * json * option datetime :=
  match resp with
  | Delivers (JDict items) =>
      (get_or (dict_get "stargazers_count" items) (JInt 0),
       get_or (dict_get "open_issues_count" items) (JInt 0),
       timestamp_of h (get_or (dict_get "pushed_at" items) (JStr EmptyString)))
  | _ => (JInt 0, JInt 0, None)
  end.

Definition release_fields (h : host) (resp : response) : json * option datetime :=
  match resp with
  | Delivers (JDict items) =>
      (get_or (dict_get "tag_name" items) JNull,
       timestamp_of h (get_or (dict_get "published_at" items) (JStr EmptyString)))
  | _ => (JNull, None)
  end.

Definition advisories_flag (resp : response) : bool :=
  match resp with
  | Delivers (JList (_ :: _)) => true
  | _ => false
  end.

(** The world after one more request. *)
Definition sent (req : request) (w : world) : world :=
  mkWorld (requests w ++ [req]) (clock_reads w) (SOUP_md w).

(** The three requests of one call. *)
Definition repo_request (h : host) (owner repo : string) : request :=
  mkRequest (base_repo_api_url owner repo) (request_headers h).
Definition release_request (h : host) (owner repo : string) : request :=
  mkRequest (releases_api_url owner repo) (request_headers h).
Definition advisories_request (h : host) (owner repo : string) : request :=
  mkRequest (advisories_url owner repo) (request_headers h).

(** The [result] dict after each guarded block, from any [result] before it. *)
Definition after_repo (h : host) (resp : response) (r : repo_info) : repo_info :=
  match resp with
  | Delivers (JDict items) =>
      let r := set_open_issues_count (get_or (dict_get "open_issues_count" items) (JInt 0))
                 (set_stars (get_or (dict_get "stargazers_count" items) (JInt 0)) r) in
      match timestamp_of h (get_or (dict_get "pushed_at" items) (JStr EmptyString)) with
      | Some t => set_last_commit_date t r
      | None => r
      end
  | _ => r
  end.

Definition after_release (h : host) (resp : response) (r : repo_info) : repo_info :=
  match resp with
  | Delivers (JDict items) =>
      let r := set_latest_version (get_or (dict_get "tag_name" items) JNull) r in
      match timestamp_of h (get_or (dict_get "published_at" items) (JStr EmptyString)) with
      | Some t => set_last_release_date t r
      | None => r
      end
  | _ => r
  end.

Definition after_advisories (resp : response) (r : repo_info) : repo_info :=
  if advisories_flag resp then set_has_known_cve true r else r.

(** [c] is an ASCII character. *)
Definition is_ascii (c : ascii) : bool := (PyStr.code c <? 128)%N.

(** [c] is no upper-case letter. *)
Definition not_upper (c : ascii) : bool := negb (PyStr.is_upper c).

(** [old] occurs somewhere in [s]. *)
Fixpoint occurs (old s : string) : bool :=
  prefix old s
  || match s with
     | EmptyString => false
     | String _ s' => occurs old s'
     end.

(** What adapter A makes of one item of [licenses-poetry.json]. *)
Record poetry_parsed (item : poetry_item) (e : entry) : Prop := {
  poetry_name_given : forall n, poetry_Name item = Some n -> name e = n;
  poetry_name_missing : poetry_Name item = None -> name e = "Unknown";
  poetry_version_given : forall v, poetry_Version item = Some v -> version e = v;
  poetry_version_missing : poetry_Version item = None -> version e = "Unknown";
  poetry_url_given : forall u, poetry_URL item = Some u -> url e = u;
  poetry_url_missing : poetry_URL item = None -> url e = EmptyString;
  poetry_license_given :
    forall l, poetry_License item = Some l -> license e = normalize_license l;
  poetry_license_missing : poetry_License item = None -> license e = "unknown"
}.

(** The items of an inventory that is read, none for one that is absent. *)
Definition items_of {A : Type} (f : file (list A)) : list A :=
  match f with
  | Holds content => content
  | _ => []
  end.

(** The file is there but cannot be read or decoded. *)
Definition unreadable {A : Type} (f : file A) : option exn :=
  match f with
  | Unreadable e => Some e
  | _ => None
  end.

(** One of the characters ['.'], ['g'], ['i'], ['t'] that [rstrip(".git")] removes. *)
Definition git_char (c : ascii) : bool := PyStr.mem_char c ".git".

(** [c] is not the letter ['g']. *)
Definition not_g (c : ascii) : bool := negb (Ascii.eqb c "g").

(** The request failed: some step of fetching and decoding raised. *)
Definition failed (resp : response) : bool :=
  match resp with
  | Fails _ => true
  | Delivers _ => false
  end.

(** The surroundings of [patched_host] with a network that is down. *)
Definition unreachable_host : host :=
  mkHost "token" (fun _ _ => Fails TimeoutError) iso8601_utc
         (fun _ => 1735732800000000%Z) (Some owner_of_url) Absent Absent Absent
         (fun _ => Written).

(** A GitHub that answers the repository request with a null star count. *)
Definition null_stars_host : host :=
  mkHost EmptyString
         (fun _ _ => Delivers (JDict [ ("stargazers_count", JNull) ]))
         iso8601_utc (fun _ => 1735732800000000%Z) (Some owner_of_url)
         Absent Absent Absent (fun _ => Written).

(** The placeholder [main] replaces in the template. *)
Definition placeholder : string := "{{DEPENDENCY_TABLE}}".

(** [c] is not an opening brace. *)
Definition not_brace (c : ascii) : bool := negb (Ascii.eqb c "{").

(** The table [main] renders for the enriched records of a run. *)
Definition rendered_table (final_entries : list enriched) : string :=
  PyStr.join nl (md_lines (sort_entries final_entries)).

(** The script as shipped in a directory without inventories. *)
Definition empty_host : host :=
  mkHost EmptyString (fun _ _ => Fails URLError) iso8601_utc
         (fun _ => 1735732800000000%Z) None Absent Absent
         (Holds ("# SOUP" ++ nl ++ "{{DEPENDENCY_TABLE}}" ++ nl)%string)
         (fun _ => Written).

(* ===================================================================== *)
(** * Properties *)
(* ===================================================================== *)

(** ** Facts about the string primitives *)

Ltac each_ascii c :=
  destruct c as [[|] [|] [|] [|] [|] [|] [|] [|]].

Lemma lower_char_idempotent (c : ascii) :
  PyStr.lower_char (PyStr.lower_char c) = PyStr.lower_char c.
Proof. each_ascii c; reflexivity. Qed.

Lemma is_space_lower_char (c : ascii) :
  PyStr.is_space (PyStr.lower_char c) = PyStr.is_space c.
Proof. each_ascii c; reflexivity. Qed.

Lemma casefold_idempotent (s : string) :
  PyStr.casefold (PyStr.casefold s) = PyStr.casefold s.
Proof.
  unfold PyStr.casefold.
  induction s as [|c s IH]; simpl; [reflexivity|].
  now rewrite lower_char_idempotent, IH.
Qed.

Lemma drop_while_empty_iff (p : ascii -> bool) (s : string) :
  PyStr.drop_while p s = EmptyString <-> all_chars p s = true.
Proof.
  induction s as [|c s IH]; simpl.
  - tauto.
  - destruct (p c); simpl; [exact IH|]. split; discriminate.
Qed.

Lemma drop_while_end_empty_iff (p : ascii -> bool) (s : string) :
  PyStr.drop_while_end p s = EmptyString <-> all_chars p s = true.
Proof.
  induction s as [|c s IH]; simpl.
  - tauto.
  - destruct (PyStr.drop_while_end p s) eqn:E.
    + destruct (p c); simpl.
      * split; intros _; [now apply IH | reflexivity].
      * split; discriminate.
    + split; [discriminate|].
      intros H. apply andb_true_iff in H as [_ H].
      apply IH in H. discriminate.
Qed.

(** What [drop_while] leaves does not start with a character of [p]. *)
Lemma drop_while_head (p : ascii -> bool) (s : string) (c : ascii) (r : string) :
  PyStr.drop_while p s = String c r -> p c = false.
Proof.
  induction s as [|d s IH]; simpl; [discriminate|].
  destruct (p d) eqn:E; [exact IH|].
  intros H. now inversion H; subst.
Qed.

Lemma drop_while_stable (p : ascii -> bool) (s : string) :
  match s with String c _ => p c = false | EmptyString => True end ->
  PyStr.drop_while p s = s.
Proof. destruct s as [|c s]; simpl; [reflexivity|]. now intros ->. Qed.

(** [drop_while_end] keeps the first character of a string that it does not
    erase altogether. *)
Lemma drop_while_end_head (p : ascii -> bool) (s : string) :
  match s with
  | EmptyString => PyStr.drop_while_end p s = EmptyString
  | String c s' =>
      PyStr.drop_while_end p s = EmptyString
      \/ exists r, PyStr.drop_while_end p s = String c r
  end.
Proof.
  destruct s as [|c s]; simpl; [reflexivity|].
  destruct (PyStr.drop_while_end p s).
  - destruct (p c); [now left | right; now eexists].
  - right; now eexists.
Qed.

Lemma drop_while_end_idempotent (p : ascii -> bool) (s : string) :
  PyStr.drop_while_end p (PyStr.drop_while_end p s) = PyStr.drop_while_end p s.
Proof.
  induction s as [|c s IH]; simpl; [reflexivity|].
  destruct (PyStr.drop_while_end p s) eqn:E.
  - destruct (p c) eqn:Ec; simpl; [reflexivity|]. now rewrite Ec.
  - simpl in *. now rewrite IH.
Qed.

Lemma strip_idempotent (s : string) :
  PyStr.strip (PyStr.strip s) = PyStr.strip s.
Proof.
  unfold PyStr.strip.
  set (t := PyStr.drop_while PyStr.is_space s).
  assert (Ht : match t with
               | String c _ => PyStr.is_space c = false
               | EmptyString => True
               end).
  { destruct t as [|c r] eqn:E; [exact I|].
    now apply (drop_while_head _ s c r). }
  rewrite (drop_while_stable PyStr.is_space (PyStr.drop_while_end PyStr.is_space t)).
  - apply drop_while_end_idempotent.
  - pose proof (drop_while_end_head PyStr.is_space t) as H.
    destruct t as [|c r].
    + now rewrite H.
    + destruct H as [-> | [r' ->]]; [exact I | exact Ht].
Qed.

Lemma map_chars_drop_while (f : ascii -> ascii) (p : ascii -> bool) (s : string) :
  (forall c, p (f c) = p c) ->
  PyStr.map_chars f (PyStr.drop_while p s) = PyStr.drop_while p (PyStr.map_chars f s).
Proof.
  intros Hp. induction s as [|c s IH]; simpl; [reflexivity|].
  rewrite Hp. now destruct (p c).
Qed.

Lemma map_chars_drop_while_end (f : ascii -> ascii) (p : ascii -> bool) (s : string) :
  (forall c, p (f c) = p c) ->
  PyStr.map_chars f (PyStr.drop_while_end p s)
  = PyStr.drop_while_end p (PyStr.map_chars f s).
Proof.
  intros Hp. induction s as [|c s IH]; simpl; [reflexivity|].
  rewrite <- IH, Hp.
  destruct (PyStr.drop_while_end p s); simpl; [|reflexivity].
  now destruct (p c).
Qed.

Lemma casefold_strip (s : string) :
  PyStr.casefold (PyStr.strip s) = PyStr.strip (PyStr.casefold s).
Proof.
  unfold PyStr.casefold, PyStr.strip.
  rewrite map_chars_drop_while_end by apply is_space_lower_char.
  now rewrite map_chars_drop_while by apply is_space_lower_char.
Qed.

Lemma all_chars_map_chars (f : ascii -> ascii) (p : ascii -> bool) (s : string) :
  (forall c, p (f c) = p c) ->
  all_chars p (PyStr.map_chars f s) = all_chars p s.
Proof.
  intros Hp. induction s as [|c s IH]; simpl; [reflexivity|].
  now rewrite Hp, IH.
Qed.

Lemma strip_empty_iff (s : string) :
  PyStr.strip s = EmptyString <-> all_chars PyStr.is_space s = true.
Proof.
  unfold PyStr.strip. rewrite drop_while_end_empty_iff.
  split; intros H.
  - apply drop_while_empty_iff.
    destruct (PyStr.drop_while PyStr.is_space s) as [|c r] eqn:E; [reflexivity|].
    apply drop_while_head in E. simpl in H. now rewrite E in H.
  - apply drop_while_empty_iff in H. now rewrite H.
Qed.

(** ** License normalization *)

Lemma normalize_license_nonempty_arg (x : string) :
  PyStr.nonempty x = true ->
  normalize_license x = PyStr.strip (PyStr.casefold x).
Proof. unfold normalize_license. now intros ->. Qed.

(** [normalize_license] returns the empty string exactly on the non-empty
    strings of blanks. *)
Lemma normalize_license_empty_iff (x : string) :
  normalize_license x = EmptyString <-> only_blanks x = true.
Proof.
  unfold normalize_license, only_blanks.
  destruct (PyStr.nonempty x); simpl.
  - rewrite strip_empty_iff. unfold PyStr.casefold.
    now rewrite all_chars_map_chars by apply is_space_lower_char.
  - split; discriminate.
Qed.

(** On a non-empty string of blanks the second application gives
    ["unknown"], not the empty string of the first. *)
Lemma normalize_license_twice_blank (x : string) :
  only_blanks x = true ->
  normalize_license x = EmptyString
  /\ normalize_license (normalize_license x) = "unknown".
Proof.
  intros H. apply normalize_license_empty_iff in H. now rewrite H.
Qed.

(** C4, as stated, fails: one blank normalizes to the empty string, and
    the empty string to ["unknown"]. *)
Lemma normalize_license_not_idempotent :
  normalize_license (normalize_license " ") <> normalize_license " ".
Proof. vm_compute. discriminate. Qed.

(** C4 (amended): [normalize_license] is idempotent on every string that is
    not a non-empty run of blanks; the empty string gives ["unknown"], and
    case and surrounding blanks are ignored, [" MIT "] giving ["mit"]. *)
Theorem normalize_license_idempotent (x : string) :
  only_blanks x = false ->
  normalize_license (normalize_license x) = normalize_license x
  /\ normalize_license EmptyString = "unknown"
  /\ normalize_license " MIT " = "mit".
Proof.
  intros Hx. split; [|split; reflexivity].
  destruct (PyStr.nonempty x) eqn:Ex.
  - assert (Hy : normalize_license x <> EmptyString).
    { intros E. apply normalize_license_empty_iff in E. congruence. }
    rewrite (normalize_license_nonempty_arg x Ex) in *.
    set (y := PyStr.strip (PyStr.casefold x)) in *.
    rewrite normalize_license_nonempty_arg by (destruct y; [congruence | reflexivity]).
    subst y. now rewrite casefold_strip, casefold_idempotent, strip_idempotent.
  - destruct x; [reflexivity | discriminate].
Qed.

Lemma normalize_license_idempotent_witness :
  only_blanks " MIT " = false
  /\ normalize_license (normalize_license " MIT ") = normalize_license " MIT ".
Proof.
  split; [reflexivity|].
  apply (normalize_license_idempotent " MIT "). reflexivity.
Defined.

(** ** The matcher on the pattern of [parse_major] *)

Lemma drop_while_ext (p q : ascii -> bool) (s : string) :
  (forall c, p c = q c) -> PyStr.drop_while p s = PyStr.drop_while q s.
Proof.
  intros H. induction s as [|c s IH]; simpl; [reflexivity|].
  now rewrite H, IH.
Qed.

Lemma drop_while_length (p : ascii -> bool) (s : string) :
  String.length (PyStr.drop_while p s) <= String.length s.
Proof.
  induction s as [|c s IH]; simpl; [lia|].
  destruct (p c); simpl; lia.
Qed.

Lemma consumed_drop_while (p : ascii -> bool) (s : string) :
  Re.consumed s (PyStr.drop_while p s) = take_while p s.
Proof.
  unfold Re.consumed.
  induction s as [|c s IH]; [reflexivity|].
  cbn [PyStr.drop_while take_while].
  destruct (p c).
  - pose proof (drop_while_length p s) as L.
    cbn [String.length].
    replace (S (String.length s) - String.length (PyStr.drop_while p s))
      with (S (String.length s - String.length (PyStr.drop_while p s))) by lia.
    cbn [PyStr.take]. now rewrite IH.
  - now rewrite Nat.sub_diag.
Qed.

(** A greedy class gives nothing back when the continuation refuses every
    rest that starts inside the class: it runs on the rest after the longest
    run, and nowhere else. *)
Lemma plus_more_longest {R : Type} (cls : ascii -> bool) (s : string)
      (k : string -> option R) :
  (forall r, starts_in cls r = true -> k r = None) ->
  Re.plus_more cls s k = k (PyStr.drop_while cls s).
Proof.
  intros Hk. induction s as [|c s IH]; simpl; [reflexivity|].
  destruct (cls c) eqn:Ec; [|reflexivity].
  rewrite IH. destruct (k (PyStr.drop_while cls s)) eqn:E; [reflexivity|].
  apply Hk. exact Ec.
Qed.

Lemma strip_prefix_char (c : ascii) (s : string) :
  Re.strip_prefix (String c EmptyString) s =
  if followed_by c s
  then Some (match s with String _ r => r | EmptyString => EmptyString end)
  else None.
Proof.
  destruct s as [|d r]; [reflexivity|].
  cbn [Re.strip_prefix followed_by]. now destruct (Ascii.eqb c d).
Qed.

Lemma match_major_pattern (s : string) :
  Re.match_ major_pattern s =
  if PyStr.nonempty (take_while PyStr.is_digit s)
     && followed_by "." (PyStr.drop_while PyStr.is_digit s)
  then Some [take_while PyStr.is_digit s] else None.
Proof.
  unfold Re.match_, major_pattern. cbn [Re.run].
  destruct s as [|c s]; [reflexivity|].
  cbn [take_while PyStr.drop_while].
  destruct (PyStr.is_digit c) eqn:Ec; [|reflexivity].
  rewrite plus_more_longest.
  - pose proof (consumed_drop_while PyStr.is_digit (String c s)) as Hc.
    cbn [PyStr.drop_while take_while] in Hc. rewrite Ec in Hc.
    rewrite strip_prefix_char. cbn [PyStr.nonempty andb].
    destruct (followed_by "." (PyStr.drop_while PyStr.is_digit s)); [|reflexivity].
    cbn [app]. now rewrite Hc.
  - intros r Hr. rewrite strip_prefix_char.
    destruct r as [|d r]; [discriminate|]. cbn [starts_in followed_by] in *.
    destruct (Ascii.eqb_spec "." d) as [<-|]; [discriminate | reflexivity].
Qed.

(** ** Version comparison *)

Lemma parse_major_dotted (ver : string) :
  parse_major (JStr ver) = Return (dotted_major ver).
Proof.
  unfold parse_major, dotted_major. cbn [as_str and_then].
  unfold PyStr.lstrip_chars.
  rewrite (drop_while_ext _ (fun c => Ascii.eqb c "v")) by
    (intros c; cbn [PyStr.mem_char]; apply orb_false_r).
  rewrite match_major_pattern.
  set (t := PyStr.drop_while _ ver). cbv zeta.
  now destruct (PyStr.nonempty (take_while PyStr.is_digit t)
                && followed_by "." (PyStr.drop_while PyStr.is_digit t)).
Qed.

Lemma is_significantly_older_on_strings (a b : string) :
  is_significantly_older (JStr a) (JStr b)
  = Return (PyStr.nonempty a && PyStr.nonempty b
            && (dotted_major b - dotted_major a >=? 1)%Z).
Proof.
  unfold is_significantly_older. simpl truthy.
  destruct (PyStr.nonempty a); simpl; [|reflexivity].
  destruct (PyStr.nonempty b); simpl; [|reflexivity].
  now rewrite !parse_major_dotted.
Qed.

(** C8, as stated, fails: the tag ["v3"] has leading major 3, two ahead
    of ["1.0.0"], yet the code reads it as 0 because no dot follows. *)
Lemma is_significantly_older_needs_dot :
  spec_is_significantly_older "1.0.0" "v3" = true
  /\ is_significantly_older (JStr "1.0.0") (JStr "v3") = Return false.
Proof. split; reflexivity. Qed.

(** Every leading ["v"] is dropped, not one. *)
Lemma is_significantly_older_strips_every_v :
  spec_is_significantly_older "1.0.0" "vv3.0" = false
  /\ is_significantly_older (JStr "1.0.0") (JStr "vv3.0") = Return true.
Proof. split; reflexivity. Qed.

(** C8 (amended): the comparison drops every leading ["v"], reads the
    leading run of digits as the major only when a dot follows it (0
    otherwise), and is true exactly when both versions are non-empty and the
    latest major exceeds the local one by 1 or more; it is false whenever
    either version is missing ([None] or empty); ["1.2.0"] against
    ["v3.0.0"] is true and ["2.0.0"] against ["2.9.9"] is false. *)
Theorem is_significantly_older_dotted :
  (forall local_version latest_version : string,
      is_significantly_older (JStr local_version) (JStr latest_version)
      = Return (PyStr.nonempty local_version && PyStr.nonempty latest_version
                && (dotted_major latest_version - dotted_major local_version >=? 1)%Z))
  /\ (forall v : json,
         is_significantly_older JNull v = Return false
         /\ is_significantly_older v JNull = Return false
         /\ is_significantly_older (JStr EmptyString) v = Return false
         /\ is_significantly_older v (JStr EmptyString) = Return false)
  /\ is_significantly_older (JStr "1.2.0") (JStr "v3.0.0") = Return true
  /\ is_significantly_older (JStr "2.0.0") (JStr "2.9.9") = Return false.
Proof.
  split; [|split; [|split; reflexivity]].
  - intros l r. unfold is_significantly_older. simpl truthy.
    destruct (PyStr.nonempty l); simpl; [|reflexivity].
    destruct (PyStr.nonempty r); simpl; [|reflexivity].
    now rewrite !parse_major_dotted.
  - intros v. unfold is_significantly_older. simpl.
    repeat split; try reflexivity; now rewrite orb_true_r.
Qed.

(** ** Adapter B: [process_npm_licenses] *)

Lemma rsplit_last_some (sep : ascii) (s a b : string) :
  PyStr.rsplit_last sep s = Some (a, b) ->
  s = (a ++ String sep b)%string /\ PyStr.mem_char sep b = false.
Proof.
  revert a b. induction s as [|c s IH]; intros a b; simpl; [discriminate|].
  destruct (PyStr.rsplit_last sep s) as [[a' b']|] eqn:E.
  - intros H. inversion H; subst. destruct (IH a' b eq_refl) as [-> Hb].
    now split.
  - destruct (Ascii.eqb_spec c sep) as [->|]; [|discriminate].
    intros H. inversion H; subst. split; [reflexivity|].
    clear IH. induction b as [|d b IHb]; [reflexivity|].
    simpl in E. destruct (PyStr.rsplit_last sep b) as [[? ?]|]; [discriminate|].
    destruct (Ascii.eqb_spec d sep) as [->|Hd]; [discriminate|].
    simpl. destruct (Ascii.eqb_spec sep d) as [->|]; [now elim Hd|].
    now apply IHb.
Qed.

Lemma rsplit_last_none (sep : ascii) (s : string) :
  PyStr.rsplit_last sep s = None <-> PyStr.mem_char sep s = false.
Proof.
  induction s as [|c s IH]; simpl; [tauto|].
  destruct (PyStr.rsplit_last sep s) as [[a b]|].
  - split; [discriminate|]. intros H. apply orb_false_iff in H as [_ H].
    apply IH in H. discriminate.
  - rewrite (Ascii.eqb_sym sep c).
    destruct (Ascii.eqb c sep); simpl; [split; discriminate|].
    split; intros _; [now apply IH | reflexivity].
Qed.

Lemma or_else_some (s b : string) : s <> EmptyString -> or_else (Some s) b = s.
Proof. destruct s; [congruence | reflexivity]. Qed.

Lemma or_else_falsy (a : option string) (b : string) :
  a = None \/ a = Some EmptyString -> or_else a b = b.
Proof. now intros [-> | ->]. Qed.

Lemma npm_fields_parsed (package_key : string) (info : npm_info) (n v : string) :
  (PyStr.mem_char "@" package_key = true ->
   package_key = (n ++ "@" ++ v)%string /\ PyStr.mem_char "@" v = false) ->
  (PyStr.mem_char "@" package_key = false -> n = package_key /\ v = "unknown") ->
  npm_parsed package_key info
    (mkEntry n v
       (or_else (npm_repository info) (or_else (npm_url info) EmptyString))
       (normalize_license
          match get_or (npm_licenses info) (LicStr EmptyString) with
          | LicList (first :: _) => first
          | LicList [] => EmptyString
          | LicStr s => s
          end)).
Proof.
  intros Hat Hno.
  constructor; cbn [name version license url].
  - exact Hat.
  - exact Hno.
  - now intros first others ->.
  - now intros s ->.
  - now intros [-> | ->].
  - intros r -> Hr. now apply or_else_some.
  - intros u Hr -> Hu. rewrite (or_else_falsy _ _ Hr). now apply or_else_some.
  - intros Hr Hu. now rewrite (or_else_falsy _ _ Hr), (or_else_falsy _ _ Hu).
Qed.

Lemma npm_entry_parsed (package_key : string) (info : npm_info) :
  exists e, npm_entry package_key info = Return e /\ npm_parsed package_key info e.
Proof.
  unfold npm_entry.
  destruct (PyStr.mem_char "@" package_key) eqn:At.
  - unfold PyStr.rsplit1.
    destruct (PyStr.rsplit_last "@" package_key) as [[n v]|] eqn:E.
    2:{ apply rsplit_last_none in E. congruence. }
    apply rsplit_last_some in E as [Hk Hv].
    eexists; split; [reflexivity|].
    cbn [fst snd]. apply npm_fields_parsed; [now intros _ | intros H; congruence].
  - eexists; split; [reflexivity|].
    cbn [fst snd]. apply npm_fields_parsed; [intros H; congruence | now intros _].
Qed.


(** ** Deduplication *)

Lemma key_eqb_eq (k1 k2 : string * string * string) :
  key_eqb k1 k2 = true <-> k1 = k2.
Proof.
  destruct k1 as [[n1 v1] l1], k2 as [[n2 v2] l2]. unfold key_eqb.
  rewrite !andb_true_iff, !String.eqb_eq.
  split; [intros [[-> ->] ->]; reflexivity | intros H; inversion H; auto].
Qed.

Lemma key_eqb_refl (k : string * string * string) : key_eqb k k = true.
Proof. now apply key_eqb_eq. Qed.

Lemma key_in_app (k : string * string * string) m1 m2 :
  key_in k (m1 ++ m2) = key_in k m1 || key_in k m2.
Proof.
  induction m1 as [|[k' e'] m1 IH]; simpl; [reflexivity|].
  now rewrite IH, orb_assoc.
Qed.

Lemma filter_filter {A} (p q : A -> bool) (l : list A) :
  filter p (filter q l) = filter (fun x => q x && p x) l.
Proof.
  induction l as [|x l IH]; simpl; [reflexivity|].
  destruct (q x); simpl; [|exact IH]. destruct (p x); now rewrite IH.
Qed.

Lemma dedup_loop_first_seen (entries : list entry) :
  forall unique_map,
    map snd (dedup_loop entries unique_map)
    = map snd unique_map
      ++ filter (fun x => negb (key_in (entry_key x) unique_map)) (first_seen entries).
Proof.
  induction entries as [|e rest IH]; intros m; simpl.
  - now rewrite app_nil_r.
  - rewrite IH. destruct (key_in (entry_key e) m) eqn:Ein; simpl.
    + f_equal. rewrite filter_filter. apply filter_ext. intros x.
      unfold has_key. destruct (key_eqb (entry_key x) (entry_key e)) eqn:Ex; simpl.
      * apply key_eqb_eq in Ex. now rewrite Ex, Ein.
      * reflexivity.
    + rewrite map_app. simpl. rewrite <- app_assoc. simpl. do 2 f_equal.
      rewrite filter_filter. apply filter_ext. intros x.
      rewrite key_in_app. simpl. rewrite orb_false_r, negb_orb.
      unfold has_key. apply andb_comm.
Qed.

(** The loop of [main] keeps the records seen first, in their order. *)
Lemma deduplicate_first_seen (entries : list entry) :
  deduplicate entries = first_seen entries.
Proof.
  unfold deduplicate. rewrite dedup_loop_first_seen. simpl.
  induction (first_seen entries) as [|x l IH]; simpl; [reflexivity|].
  now rewrite IH.
Qed.

(** Under every key the output holds the first input record with that key
    and no other. *)
Lemma first_seen_per_key (k : string * string * string) (entries : list entry) :
  filter (has_key k) (first_seen entries)
  = match find (has_key k) entries with
    | Some e => [e]
    | None => []
    end.
Proof.
  induction entries as [|e rest IH]; simpl; [reflexivity|].
  rewrite filter_filter.
  destruct (has_key k e) eqn:Ek.
  - f_equal. unfold has_key in Ek. apply key_eqb_eq in Ek. subst k.
    clear IH. induction (first_seen rest) as [|x l IHl]; simpl; [reflexivity|].
    destruct (has_key (entry_key e) x); simpl; exact IHl.
  - rewrite <- IH. apply filter_ext. intros x.
    unfold has_key in *. destruct (key_eqb (entry_key x) k) eqn:Ex.
    + apply key_eqb_eq in Ex. subst k.
      destruct (key_eqb (entry_key x) (entry_key e)) eqn:Exe; [|reflexivity].
      apply key_eqb_eq in Exe. rewrite Exe, key_eqb_refl in Ek. discriminate.
    + apply andb_false_r.
Qed.

Lemma find_app_none {A} (p : A -> bool) (l1 l2 : list A) :
  (forall x, In x l1 -> p x = false) -> find p (l1 ++ l2) = find p l2.
Proof.
  induction l1 as [|x l1 IH]; intros H; simpl; [reflexivity|].
  rewrite (H x) by now left. apply IH. intros y Hy. apply H. now right.
Qed.

Lemma first_seen_subset (entries : list entry) (e : entry) :
  In e (first_seen entries) -> In e entries.
Proof.
  revert e. induction entries as [|x rest IH]; intros e; cbn [first_seen]; [easy|].
  intros [<- | H]; [now left|]. right. apply filter_In in H as [H _]. now apply IH.
Qed.

Lemma has_key_true (k : string * string * string) (e : entry) :
  has_key k e = true <-> entry_key e = k.
Proof. unfold has_key. apply key_eqb_eq. Qed.

Lemma first_seen_covers (entries : list entry) (e : entry) :
  In e entries ->
  exists e', In e' (first_seen entries) /\ entry_key e' = entry_key e.
Proof.
  intros He.
  pose proof (first_seen_per_key (entry_key e) entries) as H.
  destruct (find (has_key (entry_key e)) entries) as [first|] eqn:Ef.
  - exists first.
    assert (Hin : In first (filter (has_key (entry_key e)) (first_seen entries)))
      by (rewrite H; now left).
    apply filter_In in Hin as [Hin Hk]. split; [exact Hin|].
    now apply has_key_true.
  - apply (find_none _ _ Ef) in He. unfold has_key in He.
    now rewrite key_eqb_refl in He.
Qed.

Lemma same_triple_has_key (a e : entry) :
  same_triple a e = has_key (entry_key a) e.
Proof. reflexivity. Qed.

(** C6: records are keyed by the three fields name, version and license,
    and the one seen first is kept.  Of two input records with the same three
    fields and different urls, the earlier one (no record before it agreeing
    with it in all three fields) is the only record with these fields in the
    final list, and the later one is not in it.  Nothing else is dropped:
    every input record has a record with its name, its version and its
    license in the final list, and the final list holds input records only. *)
Theorem deduplicate_keeps_first (before between after : list entry) (a b : entry) :
  name a = name b -> version a = version b -> license a = license b ->
  url a <> url b ->
  (forall e, In e before ->
             name e <> name a \/ version e <> version a \/ license e <> license a) ->
  let entries := before ++ a :: between ++ b :: after in
  let final_entries := deduplicate entries in
  filter (same_triple a) final_entries = [a]
  /\ In a final_entries
  /\ ~ In b final_entries
  /\ (forall c, In c entries ->
                exists c', In c' final_entries
                           /\ name c' = name c
                           /\ version c' = version c
                           /\ license c' = license c)
  /\ (forall c', In c' final_entries -> In c' entries).
Proof.
  intros Hn Hv Hl Hu Hbefore entries final_entries.
  assert (Hf : filter (same_triple a) final_entries = [a]).
  { rewrite (filter_ext _ _ (same_triple_has_key a)).
    unfold final_entries, entries. rewrite deduplicate_first_seen, first_seen_per_key.
    rewrite find_app_none.
    - simpl. unfold has_key at 1. now rewrite key_eqb_refl.
    - intros e He. unfold has_key.
      destruct (key_eqb (entry_key e) (entry_key a)) eqn:E; [|reflexivity].
      apply key_eqb_eq in E. unfold entry_key in E. inversion E.
      destruct (Hbefore e He) as [H | [H | H]]; contradiction. }
  split; [exact Hf|]. split; [|split; [|split]].
  - assert (H : In a (filter (same_triple a) final_entries))
      by (rewrite Hf; now left).
    now apply filter_In in H.
  - intros Hb.
    assert (H : In b (filter (same_triple a) final_entries)).
    { apply filter_In. split; [exact Hb|]. unfold same_triple.
      now rewrite Hn, Hv, Hl, !String.eqb_refl. }
    rewrite Hf in H. destruct H as [H | []]. subst b. now elim Hu.
  - intros c Hc. unfold final_entries. rewrite deduplicate_first_seen.
    destruct (first_seen_covers entries c Hc) as [c' [Hin Hk]].
    exists c'. split; [exact Hin|]. unfold entry_key in Hk. now inversion Hk.
  - intros c'. unfold final_entries. rewrite deduplicate_first_seen.
    apply first_seen_subset.
Qed.

Lemma deduplicate_keeps_first_witness :
  let a := mkEntry "left-pad" "1.3.0" "https://github.com/left-pad/left-pad" "mit" in
  let b := mkEntry "left-pad" "1.3.0" "https://example.org/left-pad" "mit" in
  let older := mkEntry "left-pad" "1.2.0" EmptyString "mit" in
  let relicensed := mkEntry "left-pad" "1.3.0" EmptyString "isc" in
  let entries := [older] ++ a :: [relicensed] ++ b :: [older] in
  let final_entries := deduplicate entries in
  final_entries = [older; a; relicensed]
  /\ filter (same_triple a) final_entries = [a]
  /\ In a final_entries
  /\ ~ In b final_entries
  /\ (forall c, In c entries ->
                exists c', In c' final_entries
                           /\ name c' = name c
                           /\ version c' = version c
                           /\ license c' = license c)
  /\ (forall c', In c' final_entries -> In c' entries).
Proof.
  intros a b older relicensed entries final_entries.
  split; [reflexivity|].
  apply (deduplicate_keeps_first [older] [relicensed] [older] a b); try reflexivity.
  - vm_compute. discriminate.
  - intros e [<- | []]. right. left. vm_compute. discriminate.
Defined.

(** ** Sorting *)

Lemma string_compare_lt_trans (a b c : string) :
  String.compare a b = Lt -> String.compare b c = Lt -> String.compare a c = Lt.
Proof.
  revert b c. induction a as [|x a IH]; intros [|y b] [|z c]; simpl;
    try discriminate; try reflexivity.
  unfold Ascii.compare.
  destruct (N.compare_spec (N_of_ascii x) (N_of_ascii y)) as [Exy|Lxy|Gxy];
    try discriminate;
    destruct (N.compare_spec (N_of_ascii y) (N_of_ascii z)) as [Eyz|Lyz|Gyz];
    try discriminate; intros H1 H2.
  - rewrite Exy, Eyz, N.compare_refl. now apply (IH b c).
  - rewrite Exy. now apply N.compare_lt_iff in Lyz as ->.
  - rewrite <- Eyz. now apply N.compare_lt_iff in Lxy as ->.
  - assert (L : (N_of_ascii x < N_of_ascii z)%N) by lia.
    now apply N.compare_lt_iff in L as ->.
Qed.

Lemma string_leb_trans (a b c : string) :
  String.leb a b = true -> String.leb b c = true -> String.leb a c = true.
Proof.
  unfold String.leb.
  destruct (String.compare a b) eqn:Eab; try discriminate;
    destruct (String.compare b c) eqn:Ebc; try discriminate; intros _ _.
  - apply String.compare_eq_iff in Eab. subst. now rewrite Ebc.
  - apply String.compare_eq_iff in Eab. subst. now rewrite Ebc.
  - apply String.compare_eq_iff in Ebc. subst. now rewrite Eab.
  - now rewrite (string_compare_lt_trans a b c).
Qed.

Section StableSort.
Context {A K : Type} (key : A -> K) (le : K -> K -> bool).
Hypothesis le_total : forall a b, le a b = true \/ le b a = true.
Hypothesis le_trans : forall a b c, le a b = true -> le b c = true -> le a c = true.

Lemma insert_by_perm (x : A) (l : list A) :
  Permutation (x :: l) (insert_by key le x l).
Proof.
  induction l as [|y l IH]; simpl; [reflexivity|].
  destruct (le (key x) (key y)); [reflexivity|].
  rewrite perm_swap. now constructor.
Qed.

Lemma list_sort_perm (l : list A) : Permutation l (list_sort key le l).
Proof.
  induction l as [|x l IH]; simpl; [reflexivity|].
  rewrite <- insert_by_perm. now constructor.
Qed.

Lemma insert_by_sorted (x : A) (l : list A) :
  StronglySorted (ordered_by key le) l -> StronglySorted (ordered_by key le) (insert_by key le x l).
Proof.
  induction 1 as [|y l Hs IH Hy]; simpl.
  - constructor; constructor.
  - destruct (le (key x) (key y)) eqn:E.
    + constructor; [now constructor|].
      constructor; [exact E|].
      eapply Forall_impl; [|exact Hy]. intros z Hz. unfold ordered_by in *.
      now apply (le_trans _ (key y)).
    + constructor; [exact IH|].
      assert (Hyx : ordered_by key le y x).
      { unfold ordered_by. destruct (le_total (key x) (key y)); congruence. }
      eapply Permutation_Forall; [apply insert_by_perm|].
      now constructor.
Qed.

Lemma list_sort_sorted (l : list A) : StronglySorted (ordered_by key le) (list_sort key le l).
Proof.
  induction l as [|x l IH]; simpl; [constructor|].
  now apply insert_by_sorted.
Qed.

(** Elements that a predicate on keys selects keep their order as long as
    the selected keys are below one another. *)
Lemma insert_by_stable (sel : K -> bool) (x : A) (l : list A) :
  (forall a b, sel a = true -> sel b = true -> le a b = true) ->
  filter (fun y => sel (key y)) (insert_by key le x l)
  = filter (fun y => sel (key y)) (x :: l).
Proof.
  intros Hsel. induction l as [|y l IH]; [reflexivity|].
  cbn [insert_by]. destruct (le (key x) (key y)) eqn:E; [reflexivity|].
  cbn [filter] in *. rewrite IH.
  destruct (sel (key x)) eqn:Ex, (sel (key y)) eqn:Ey; try reflexivity.
  rewrite (Hsel _ _ Ex Ey) in E. discriminate.
Qed.

Lemma list_sort_stable (sel : K -> bool) (l : list A) :
  (forall a b, sel a = true -> sel b = true -> le a b = true) ->
  filter (fun y => sel (key y)) (list_sort key le l)
  = filter (fun y => sel (key y)) l.
Proof.
  intros Hsel. induction l as [|x l IH]; [reflexivity|].
  cbn [list_sort]. rewrite insert_by_stable by exact Hsel.
  cbn [filter]. now rewrite IH.
Qed.

End StableSort.

Lemma key_le_total (a b : Z * string) : key_le a b = true \/ key_le b a = true.
Proof.
  unfold key_le. destruct a as [p s], b as [q t]; simpl.
  destruct (Z.ltb_spec p q); [now left|].
  destruct (Z.ltb_spec q p); [now right|].
  assert (p = q) by lia. subst q. rewrite Z.eqb_refl. simpl.
  apply String.leb_total.
Qed.

Lemma key_le_trans (a b c : Z * string) :
  key_le a b = true -> key_le b c = true -> key_le a c = true.
Proof.
  unfold key_le. destruct a as [p s], b as [q t], c as [r u]; simpl.
  rewrite !orb_true_iff, !andb_true_iff, !Z.ltb_lt, !Z.eqb_eq.
  intros [H1 | [H1 L1]] [H2 | [H2 L2]]; try (left; lia).
  right. split; [lia|]. now apply (string_leb_trans s t u).
Qed.

Lemma sort_key_rank (e : enriched) : fst (sort_key e) = risk_rank (risk_level e).
Proof.
  unfold sort_key, risk_rank, risk_priority. cbn [fst dict_get get_or].
  destruct (String.eqb (risk_level e) "High"); [reflexivity|].
  destruct (String.eqb (risk_level e) "Medium"); [reflexivity|].
  destruct (String.eqb (risk_level e) "Low"); reflexivity.
Qed.

Lemma ordered_by_report_order (x y : enriched) :
  ordered_by sort_key key_le x y <-> report_order x y.
Proof.
  unfold ordered_by, key_le, report_order.
  rewrite orb_true_iff, andb_true_iff, Z.ltb_lt, Z.eqb_eq, !sort_key_rank.
  reflexivity.
Qed.

Lemma string_leb_refl (s : string) : String.leb s s = true.
Proof. destruct (String.leb_total s s); assumption. Qed.

(** C7: the sorted list is a rearrangement of the enriched records in
    which High comes before Medium and Medium before Low, names ascend
    without regard to case inside one category, and records that tie on both
    keep their order (the sort is stable); (High, Bravo), (High, Alpha),
    (Medium, Zed) sort to (High, Alpha), (High, Bravo), (Medium, Zed).
    Letter case does not count: the High rows bravo, Charlie, alpha, Bravo
    sort to alpha, bravo, Bravo, Charlie (by code point the capitals would
    come first), the two that differ in case only in their input order. *)
Theorem sort_entries_report_order (final_entries : list enriched) :
  Permutation final_entries (sort_entries final_entries)
  /\ StronglySorted report_order (sort_entries final_entries)
  /\ (forall e, filter (report_tie e) (sort_entries final_entries)
                = filter (report_tie e) final_entries)
  /\ sort_entries [row_of "High" "Bravo"; row_of "High" "Alpha"; row_of "Medium" "Zed"]
     = [row_of "High" "Alpha"; row_of "High" "Bravo"; row_of "Medium" "Zed"]
  /\ sort_entries [row_of "Low" "Alpha"; row_of "High" "bravo"; row_of "High" "Charlie";
                    row_of "High" "alpha"; row_of "High" "Bravo"]
     = [row_of "High" "alpha"; row_of "High" "bravo"; row_of "High" "Bravo";
        row_of "High" "Charlie"; row_of "Low" "Alpha"]
  /\ String.leb "Charlie" "alpha" = true.
Proof.
  unfold sort_entries. split; [|split; [|split; [|split; [|split]]]].
  - apply list_sort_perm.
  - pose proof (list_sort_sorted sort_key key_le key_le_total key_le_trans
                  final_entries) as H.
    induction H as [|x l Hs IH Hx]; constructor; [exact IH|].
    eapply Forall_impl; [|exact Hx]. intros y. apply ordered_by_report_order.
  - intros e.
    pose proof (list_sort_stable sort_key key_le
                  (fun k => (fst (sort_key e) =? fst k)%Z
                            && String.eqb (snd (sort_key e)) (snd k))
                  final_entries) as H.
    cbv beta in H.
    assert (Hext : forall y, ((fst (sort_key e) =? fst (sort_key y))%Z
                              && String.eqb (snd (sort_key e)) (snd (sort_key y)))
                             = report_tie e y).
    { intros y. unfold report_tie. now rewrite !sort_key_rank. }
    rewrite <- (filter_ext _ _ Hext (list_sort sort_key key_le final_entries)).
    rewrite <- (filter_ext _ _ Hext final_entries).
    apply H. intros a b Ha Hb.
    apply andb_true_iff in Ha as [Ha1 Ha2], Hb as [Hb1 Hb2].
    apply Z.eqb_eq in Ha1, Hb1. apply String.eqb_eq in Ha2, Hb2.
    unfold key_le. rewrite <- Ha1, <- Hb1, <- Ha2, <- Hb2.
    rewrite Z.eqb_refl, string_leb_refl. apply orb_true_r.
  - reflexivity.
  - reflexivity.
  - reflexivity.
Qed.

(** ** Division of integers *)

Local Open Scope Z_scope.

(** Rounding against an integer bound [m]. *)
Lemma round_half_even_above (n d m : Z) :
  0 < d ->
  (m < PyFloat.round_half_even n d
   <-> if Z.even m then (2 * m + 1) * d < 2 * n else (2 * m + 1) * d <= 2 * n).
Proof.
  intros Hd. unfold PyFloat.round_half_even.
  pose proof (Z.div_mod n d ltac:(lia)) as Hn.
  pose proof (Z.mod_pos_bound n d Hd) as Hr.
  set (q := n / d) in *. set (r := n mod d) in *.
  assert (Hcmp : (m + 1 <= q /\ d * (m + 1) <= d * q)
                 \/ (m = q)
                 \/ (q + 1 <= m /\ d * (q + 1) <= d * m)).
  { destruct (Z.lt_trichotomy m q) as [H|[H|H]].
    - left. split; [lia|]. apply Z.mul_le_mono_nonneg_l; lia.
    - right. now left.
    - right. right. split; [lia|]. apply Z.mul_le_mono_nonneg_l; lia. }
  destruct (Z.ltb_spec (2 * r) d) as [H1|H1];
    [|destruct (Z.ltb_spec d (2 * r)) as [H2|H2]].
  - destruct Hcmp as [[H Hm]|[->|[H Hm]]]; destruct (Z.even _); split; intros; lia.
  - destruct Hcmp as [[H Hm]|[->|[H Hm]]]; destruct (Z.even _); split; intros; lia.
  - destruct Hcmp as [[H Hm]|[->|[H Hm]]].
    + destruct (Z.even q), (Z.even m); split; intros; lia.
    + destruct (Z.even q); split; intros; lia.
    + destruct (Z.even q), (Z.even m); split; intros; lia.
Qed.

Lemma round_half_even_bounds (n d lo hi : Z) :
  0 < d -> lo * d <= n -> n < hi * d ->
  lo <= PyFloat.round_half_even n d <= hi.
Proof.
  intros Hd Hlo Hhi. unfold PyFloat.round_half_even.
  pose proof (Z.div_mod n d ltac:(lia)) as Hn.
  pose proof (Z.mod_pos_bound n d Hd) as Hr.
  set (q := n / d) in *. set (r := n mod d) in *.
  assert (lo <= q) by nia. assert (q < hi) by nia.
  destruct (2 * r <? d); [lia|]. destruct (d <? 2 * r); [lia|].
  destruct (Z.even q); lia.
Qed.

Lemma pow2_step (j k : Z) : 0 <= j -> j < k -> 2 * 2 ^ j <= 2 ^ k.
Proof.
  intros Hj Hk. rewrite <- Z.pow_succ_r by exact Hj.
  apply Z.pow_le_mono_r; lia.
Qed.

(** The leading bit of the scaled quotient. *)
Lemma scaled_quotient_bits (A b : Z) :
  0 <= A -> 0 < b ->
  let E := Z.log2 (A / b) in
  0 <= E /\ A < b * 2 ^ (E + 1) /\ (0 < E -> b * 2 ^ E <= A).
Proof.
  intros HA Hb E.
  pose proof (Z.div_mod A b ltac:(lia)) as Hn.
  pose proof (Z.mod_pos_bound A b Hb) as Hr.
  pose proof (Z.log2_nonneg (A / b)) as HE. fold E in HE.
  assert (HQ : 0 <= A / b) by (apply Z.div_pos; lia).
  split; [exact HE|].
  destruct (Z.eq_dec (A / b) 0) as [H0|H0].
  - split.
    + assert (H : 0 < 2 ^ (E + 1)) by (apply Z.pow_pos_nonneg; lia).
      assert (b * 1 <= b * 2 ^ (E + 1)) by (apply Z.mul_le_mono_nonneg_l; lia).
      rewrite H0 in Hn. lia.
    + intros H. subst E. rewrite H0 in H. cbn in H. lia.
  - pose proof (Z.log2_spec (A / b) ltac:(lia)) as [Hlo Hhi]. fold E in Hlo, Hhi.
    rewrite <- Z.add_1_r in Hhi.
    split.
    + assert (b * (A / b + 1) <= b * 2 ^ (E + 1))
        by (apply Z.mul_le_mono_nonneg_l; lia).
      lia.
    + intros _.
      assert (b * 2 ^ E <= b * (A / b)) by (apply Z.mul_le_mono_nonneg_l; lia).
      lia.
Qed.

(** The rounded quotient against a value [M * 2 ^ sigma] of the grid with a
    53-bit [M]: it lies above it exactly when the quotient lies above the
    midpoint to the next value (or on it, for an odd [M]), and then it is at
    least that next value. *)
Lemma nearest_above (a b M sigma : Z) :
  0 <= a -> 0 < b -> 2 ^ 52 <= M < 2 ^ 53 -> 0 <= sigma ->
  (M * 2 ^ sigma < PyFloat.nearest a b
   <-> if Z.even M
       then (2 * M + 1) * (b * 2 ^ sigma) < 2 * (a * 2 ^ 1074)
       else (2 * M + 1) * (b * 2 ^ sigma) <= 2 * (a * 2 ^ 1074))
  /\ (M * 2 ^ sigma < PyFloat.nearest a b -> (M + 1) * 2 ^ sigma <= PyFloat.nearest a b).
Proof.
  intros Ha Hb HM Hsigma. unfold PyFloat.nearest.
  assert (HA : 0 <= a * 2 ^ 1074) by (apply Z.mul_nonneg_nonneg; [lia | now apply Z.pow_nonneg]).
  set (A := a * 2 ^ 1074) in *.
  destruct (scaled_quotient_bits A b HA Hb) as [HE [Hup Hlow]].
  set (E := Z.log2 (A / b)) in *.
  set (s := Z.max (E - 52) 0).
  assert (Hs : 0 <= s) by (subst s; lia).
  assert (Hps : 0 < 2 ^ s) by now apply Z.pow_pos_nonneg.
  assert (Hpsig : 0 < 2 ^ sigma) by now apply Z.pow_pos_nonneg.
  change (2 ^ 52) with 4503599627370496 in HM.
  change (2 ^ 53) with 9007199254740992 in HM.
  assert (Hd : 0 < b * 2 ^ s) by now apply Z.mul_pos_pos.
  assert (Hdsig : 0 < b * 2 ^ sigma) by now apply Z.mul_pos_pos.
  (* the quotient on the grid has at most 53 bits *)
  assert (Hhi : A < 9007199254740992 * (b * 2 ^ s)).
  { assert (H : 2 ^ (E + 1) <= 2 ^ (53 + s)) by (apply Z.pow_le_mono_r; subst s; lia).
    rewrite (Z.pow_add_r 2 53 s) in H by lia. change (2 ^ 53) with 9007199254740992 in H.
    assert (b * 2 ^ (E + 1) <= b * (9007199254740992 * 2 ^ s))
      by (apply Z.mul_le_mono_nonneg_l; lia).
    lia. }
  assert (HMsig : 4503599627370496 * 2 ^ sigma <= M * 2 ^ sigma
                  /\ M * 2 ^ sigma <= 9007199254740991 * 2 ^ sigma).
  { split; apply Z.mul_le_mono_nonneg_r; lia. }
  assert (HMd : 4503599627370496 * (b * 2 ^ sigma) <= M * (b * 2 ^ sigma)
                /\ M * (b * 2 ^ sigma) <= 9007199254740991 * (b * 2 ^ sigma)).
  { split; apply Z.mul_le_mono_nonneg_r; lia. }
  destruct (Z.lt_trichotomy s sigma) as [Hlt|[Heq|Hgt]].
  - (* a coarser bound: the value stays below it *)
    pose proof (pow2_step s sigma Hs Hlt) as Hstep.
    assert (Hbstep : b * (2 * 2 ^ s) <= b * 2 ^ sigma)
      by (apply Z.mul_le_mono_nonneg_l; lia).
    pose proof (round_half_even_bounds A (b * 2 ^ s) 0 9007199254740992 Hd
                  ltac:(lia) Hhi) as [_ Hm].
    set (m := PyFloat.round_half_even A (b * 2 ^ s)) in *.
    assert (H1 : m * 2 ^ s <= 9007199254740992 * 2 ^ s)
      by (apply Z.mul_le_mono_nonneg_r; lia).
    split; [split; intros H; [lia|]; destruct (Z.even M); lia | lia].
  - rewrite Heq in *.
    rewrite <- (round_half_even_above A (b * 2 ^ sigma) M Hd).
    split; [split; intros H|intros H].
    + apply Z.mul_lt_mono_pos_r in H; assumption.
    + apply Z.mul_lt_mono_pos_r; assumption.
    + apply Z.mul_lt_mono_pos_r in H; [|assumption].
      apply Z.mul_le_mono_nonneg_r; lia.
  - (* a finer bound: the value is above it *)
    pose proof (pow2_step sigma s Hsigma Hgt) as Hstep.
    assert (Hbstep : b * (2 * 2 ^ sigma) <= b * 2 ^ s)
      by (apply Z.mul_le_mono_nonneg_l; lia).
    assert (HEs : 2 ^ E = 4503599627370496 * 2 ^ s).
    { replace E with (52 + s) by (subst s; lia). rewrite Z.pow_add_r by lia. reflexivity. }
    assert (Hlo : 4503599627370496 * (b * 2 ^ s) <= A).
    { specialize (Hlow ltac:(subst s; lia)). rewrite HEs in Hlow. lia. }
    pose proof (round_half_even_bounds A (b * 2 ^ s) 4503599627370496 9007199254740992 Hd
                  Hlo Hhi) as [Hm _].
    set (m := PyFloat.round_half_even A (b * 2 ^ s)) in *.
    assert (H1 : 4503599627370496 * 2 ^ s <= m * 2 ^ s)
      by (apply Z.mul_le_mono_nonneg_r; lia).
    split; [split; intros H; [destruct (Z.even M); lia | lia] | lia].
Qed.

Lemma nearest_nonneg (a b : Z) : 0 <= a -> 0 < b -> 0 <= PyFloat.nearest a b.
Proof.
  intros Ha Hb. unfold PyFloat.nearest.
  set (A := a * 2 ^ 1074). set (s := Z.max (Z.log2 (A / b) - 52) 0).
  assert (HA : 0 <= A) by (apply Z.mul_nonneg_nonneg; [lia | now apply Z.pow_nonneg]).
  assert (Hps : 0 < 2 ^ s) by (apply Z.pow_pos_nonneg; subst s; lia).
  assert (Hd : 0 < b * 2 ^ s) by now apply Z.mul_pos_pos.
  assert (Hq : 0 <= A / (b * 2 ^ s)) by (apply Z.div_pos; lia).
  apply Z.mul_nonneg_nonneg; [|lia].
  unfold PyFloat.round_half_even.
  destruct (2 * (A mod (b * 2 ^ s)) <? b * 2 ^ s); [lia|].
  destruct (b * 2 ^ s <? 2 * (A mod (b * 2 ^ s))); [lia|].
  destruct (Z.even _); lia.
Qed.

(** The rounded quotient is above 50 exactly when the quotient is above the
    midpoint between 50 and the next value of the grid. *)
Lemma nearest_above_50 (a b : Z) :
  0 <= a -> 0 < b ->
  (50 * 2 ^ 1074 <? PyFloat.nearest a b) = ratio_above_50 a b.
Proof.
  intros Ha Hb.
  destruct (nearest_above a b (50 * 2 ^ 47) 1027 Ha Hb) as [H _];
    [split; [discriminate | reflexivity] | lia |].
  change (Z.even (50 * 2 ^ 47)) with true in H. cbv iota in H.
  replace (50 * 2 ^ 47 * 2 ^ 1027) with (50 * 2 ^ 1074) in H by reflexivity.
  replace (2 * (a * 2 ^ 1074)) with (a * 2 ^ 48 * 2 ^ 1027) in H
    by (change (2 ^ 1074) with (2 ^ 47 * 2 ^ 1027); change (2 ^ 48) with (2 * 2 ^ 47); ring).
  replace ((2 * (50 * 2 ^ 47) + 1) * (b * 2 ^ 1027))
    with ((50 * 2 ^ 48 + 1) * b * 2 ^ 1027) in H
    by (change (2 ^ 48) with (2 * 2 ^ 47); ring).
  assert (Hp : 0 < 2 ^ 1027) by (apply Z.pow_pos_nonneg; lia).
  pose proof (Z.mul_lt_mono_pos_r (2 ^ 1027) ((50 * 2 ^ 48 + 1) * b) (a * 2 ^ 48) Hp) as Hc.
  unfold ratio_above_50.
  destruct (Z.ltb_spec (50 * 2 ^ 1074) (PyFloat.nearest a b)) as [L|L];
    destruct (Z.ltb_spec ((50 * 2 ^ 48 + 1) * b) (a * 2 ^ 48)) as [R|R];
    try reflexivity.
  - apply H, Hc in L. lia.
  - apply Hc, H in R. lia.
Qed.

(** The rounded quotient reaches [2 ^ 1024] exactly when the quotient
    reaches the midpoint between the largest value of the format and
    [2 ^ 1024]. *)
Lemma nearest_overflows (a b : Z) :
  0 <= a -> 0 < b ->
  (2 ^ 2098 <=? PyFloat.nearest a b) = ((2 ^ 1024 - 2 ^ 970) * b <=? a).
Proof.
  intros Ha Hb.
  destruct (nearest_above a b (2 ^ 53 - 1) 2045 Ha Hb) as [H Hgrid];
    [split; [discriminate | reflexivity] | lia |].
  change (Z.even (2 ^ 53 - 1)) with false in H. cbv iota in H.
  replace ((2 ^ 53 - 1 + 1) * 2 ^ 2045) with (2 ^ 2098) in Hgrid by reflexivity.
  assert (Hbelow : (2 ^ 53 - 1) * 2 ^ 2045 < 2 ^ 2098) by reflexivity.
  replace (2 * (a * 2 ^ 1074)) with (a * 2 ^ 1075) in H
    by (change (2 ^ 1075) with (2 * 2 ^ 1074); ring).
  replace ((2 * (2 ^ 53 - 1) + 1) * (b * 2 ^ 2045))
    with ((2 ^ 1024 - 2 ^ 970) * b * 2 ^ 1075) in H
    by (change (2 ^ 2045) with (2 ^ 970 * 2 ^ 1075);
        change (2 ^ 1024) with (2 ^ 54 * 2 ^ 970);
        change (2 * (2 ^ 53 - 1) + 1) with (2 ^ 54 - 1); ring).
  assert (Hp : 0 < 2 ^ 1075) by (apply Z.pow_pos_nonneg; lia).
  pose proof (Z.mul_le_mono_pos_r ((2 ^ 1024 - 2 ^ 970) * b) a (2 ^ 1075) Hp) as Hc.
  destruct (Z.leb_spec (2 ^ 2098) (PyFloat.nearest a b)) as [L|L];
    destruct (Z.leb_spec ((2 ^ 1024 - 2 ^ 970) * b) a) as [R|R];
    try reflexivity.
  - assert (L' : (2 ^ 53 - 1) * 2 ^ 2045 < PyFloat.nearest a b)
      by (eapply Z.lt_le_trans; eassumption).
    apply H in L'. apply Hc in L'. lia.
  - apply Hc, H, Hgrid in R. lia.
Qed.

(** [x / y] for a positive divisor: [OverflowError] beyond the range of
    [float], and otherwise a [float] that is above 50 exactly when the
    quotient is above [50 + 2 ^ -48]. *)
Lemma true_div_ratio (x y : Z) :
  0 < y ->
  if ratio_overflows x y
  then PyFloat.true_div x y = Raise OverflowError
  else exists f, PyFloat.true_div x y = Return f
                 /\ PyFloat.gt_int f 50 = ratio_above_50 x y.
Proof.
  intros Hy. unfold PyFloat.true_div, ratio_overflows.
  destruct (Z.eqb_spec y 0) as [->|_]; [lia|].
  rewrite (Z.abs_eq y) by lia.
  rewrite (nearest_overflows (Z.abs x) y (Z.abs_nonneg x) Hy).
  destruct ((2 ^ 1024 - 2 ^ 970) * y <=? Z.abs x); [reflexivity|].
  eexists. split; [reflexivity|].
  unfold PyFloat.gt_int. cbn [PyFloat.units].
  pose proof (nearest_nonneg (Z.abs x) y (Z.abs_nonneg x) Hy) as Hk.
  rewrite (Z.sgn_pos y Hy), Z.mul_1_r.
  destruct (Z.lt_trichotomy x 0) as [Hx|[->|Hx]].
  - rewrite (Z.sgn_neg x Hx). unfold ratio_above_50.
    assert (H48 : 0 < 2 ^ 48) by reflexivity.
    assert (H1074 : 0 < 50 * 2 ^ 1074) by reflexivity.
    assert (x * 2 ^ 48 < 0) by (apply Z.mul_neg_pos; assumption).
    assert (0 < (50 * 2 ^ 48 + 1) * y) by (apply Z.mul_pos_pos; [reflexivity | assumption]).
    destruct (Z.ltb_spec (50 * 2 ^ 1074) (-1 * PyFloat.nearest (Z.abs x) y));
      destruct (Z.ltb_spec ((50 * 2 ^ 48 + 1) * y) (x * 2 ^ 48)); try reflexivity; lia.
  - cbn [Z.sgn Z.mul]. unfold ratio_above_50.
    assert (0 < (50 * 2 ^ 48 + 1) * y) by (apply Z.mul_pos_pos; [reflexivity | assumption]).
    destruct (Z.ltb_spec ((50 * 2 ^ 48 + 1) * y) (0 * 2 ^ 48)); [lia | reflexivity].
  - rewrite (Z.sgn_pos x Hx), Z.mul_1_l, (Z.abs_eq x) by lia.
    apply nearest_above_50; lia.
Qed.

Local Close Scope Z_scope.

(** ** The score of the fetched signals *)

(** The whole-day age exceeds [limit] exactly from [limit + 1] full days on. *)
Lemma timedelta_days_above (limit delta : Z) :
  (timedelta_days delta >? limit)%Z = ((limit + 1) * 86400000000 <=? delta)%Z.
Proof.
  unfold timedelta_days.
  destruct (Z.leb_spec ((limit + 1) * 86400000000) delta) as [H|H].
  - apply Z.gtb_lt.
    assert (limit + 1 <= delta / 86400000000)%Z
      by (apply Z.div_le_lower_bound; lia).
    lia.
  - destruct (Z.gtb_spec (delta / 86400000000) limit) as [G|G]; [|reflexivity].
    assert (Hd : (limit + 1 <= delta / 86400000000)%Z) by lia.
    apply (Z.mul_le_mono_nonneg_r _ _ 86400000000) in Hd; [|lia].
    pose proof (Z.mul_div_le delta 86400000000). lia.
Qed.

(** The comparison against the tag the fetcher stored. *)
Lemma is_significantly_older_tag (local_version : string) (tag : option string) :
  is_significantly_older (JStr local_version) (tag_value tag)
  = Return (behind_latest local_version tag).
Proof.
  destruct tag as [latest|]; cbn [tag_value behind_latest].
  - rewrite is_significantly_older_on_strings. do 2 f_equal.
    destruct (Z.geb_spec (dotted_major latest - dotted_major local_version) 1);
      destruct (Z.ltb_spec (dotted_major local_version) (dotted_major latest));
      try reflexivity; lia.
  - unfold is_significantly_older. cbn [truthy negb]. now rewrite orb_true_r.
Qed.

(** Every sum of points has a category. *)
Lemma category_total (sg : signals) :
  exists level, category (total_score sg) = Some level.
Proof. destruct sg as [[] [] [] [] [] []]; eexists; reflexivity. Qed.

(** The score of signals of the expected types, rule by rule. *)
Lemma scoring_on_signals
      (h : host) (local_version : string) (info : repo_info) (w : world)
      (stars_n issues_n : Z) (tag : option string) (pushed released : option Z) :
  stars info = JInt stars_n ->
  open_issues_count info = JInt issues_n ->
  latest_version info = tag_value tag ->
  last_commit_date info = option_map Aware pushed ->
  last_release_date info = option_map Aware released ->
  assess_risk_scoring h local_version info w
  = match PyFloat.true_div (issues_n * 100) (Z.max stars_n 1) with
    | Raise e =>
        (Raise e, mkWorld (requests w) (clock_reads w + clock_readings pushed) (SOUP_md w))
    | Return f =>
        let sg :=
          mkSignals (days_before 366 (utc_now h (clock_reads w)) pushed)
                    (stars_n <? 100)%Z
                    (behind_latest local_version tag)
                    (PyFloat.gt_int f 50)
                    (days_before 731 (utc_now h (clock_reads w + clock_readings pushed))
                                 released)
                    (has_known_cve info) in
        (match category (total_score sg) with
         | Some level => Return (level, PyStr.join ", " (triggered_labels sg))
         | None => Raise ValueError
         end,
         mkWorld (requests w)
                 (clock_reads w + (clock_readings pushed + clock_readings released))
                 (SOUP_md w))
    end.
Proof.
  intros Hs Hi Hv Hc Hr.
  unfold assess_risk_scoring. rewrite Hs, Hi, Hv, Hc, Hr, is_significantly_older_tag.
  destruct w as [reqs reads soup].
  unfold bind, ret, lift_outcome, datetime_now, as_number.
  destruct pushed as [t1|], released as [t2|];
    cbn [option_map clock_readings days_before datetime_sub requests clock_reads SOUP_md];
    rewrite ?timedelta_days_above, ?Nat.add_0_r, ?Nat.add_1_r;
    change ((365 + 1) * 86400000000)%Z with (366 * 86400000000)%Z;
    change ((730 + 1) * 86400000000)%Z with (731 * 86400000000)%Z;
    destruct (PyFloat.true_div (issues_n * 100) (Z.max stars_n 1)) as [f|e];
    cbv zeta;
    repeat match goal with
           | |- context [(?k * 86400000000 <=? ?d)%Z] =>
               destruct (k * 86400000000 <=? d)%Z
           end;
    try destruct (stars_n <? 100)%Z, (behind_latest local_version tag),
      (PyFloat.gt_int f 50), (has_known_cve info);
    (apply (f_equal2 pair); [reflexivity | f_equal; lia]).
Qed.

(** A timestamp without offset cannot be subtracted from the clock. *)
Lemma scoring_naive_commit_date
      (h : host) (local_version : string) (info : repo_info) (w : world) (wall : Z) :
  last_commit_date info = Some (Naive wall) ->
  assess_risk_scoring h local_version info w
  = (Raise TypeError, mkWorld (requests w) (clock_reads w + 1) (SOUP_md w)).
Proof.
  intros Hc. unfold assess_risk_scoring. rewrite Hc.
  unfold bind, ret, lift_outcome, datetime_now. cbn [datetime_sub].
  now rewrite Nat.add_1_r.
Qed.

Lemma scoring_naive_release_date
      (h : host) (local_version : string) (info : repo_info) (w : world)
      (stars_n issues_n : Z) (tag : option string) (pushed : option Z) (wall : Z)
      (f : PyFloat.float) :
  stars info = JInt stars_n ->
  open_issues_count info = JInt issues_n ->
  latest_version info = tag_value tag ->
  last_commit_date info = option_map Aware pushed ->
  last_release_date info = Some (Naive wall) ->
  PyFloat.true_div (issues_n * 100) (Z.max stars_n 1) = Return f ->
  assess_risk_scoring h local_version info w
  = (Raise TypeError,
     mkWorld (requests w) (clock_reads w + (clock_readings pushed + 1)) (SOUP_md w)).
Proof.
  intros Hs Hi Hv Hc Hr Hf.
  unfold assess_risk_scoring. rewrite Hs, Hi, Hv, Hc, Hr, is_significantly_older_tag.
  destruct w as [reqs reads soup].
  unfold bind, ret, lift_outcome, datetime_now, as_number. rewrite Hf.
  destruct pushed as [t1|];
    cbn [option_map clock_readings datetime_sub requests clock_reads SOUP_md];
    (apply (f_equal2 pair); [reflexivity | f_equal; lia]).
Qed.

(** C5, as stated, fails in three of its rules.  The tag ["v3"] is two
    majors ahead of ["1.0.0"] and gains no point, because no dot follows its
    digits.  A commit pushed 365 days and twelve hours before the reading of
    the clock is more than 365 days old and gains no point, because the age
    is counted in whole days.  And with 2^55 stars and 2^54 + 1 open issues
    the ratio exceeds 50 and gains no point, because the quotient is a
    [float] and rounds to 50.0. *)
Lemma assess_risk_scoring_not_as_worded :
  (spec_is_significantly_older "1.0.0" "v3" = true
   /\ assess_risk_scoring offline_host "1.0.0"
        (mkRepoInfo (JInt 1000) None (JStr "v3") (JInt 0) None false) initial_world
      = (Return ("Low", EmptyString), initial_world))
  /\ ((365 * 86400000000 < utc_now offline_host 0 - 1704153600000000)%Z
      /\ assess_risk_scoring offline_host "1.0.0"
           (mkRepoInfo (JInt 1000) (Some (Aware 1704153600000000%Z)) JNull (JInt 0)
                       None false)
           initial_world
         = (Return ("Low", EmptyString), mkWorld [] 1 None))
  /\ ((50 * Z.max (2 ^ 55) 1 < (2 ^ 54 + 1) * 100)%Z
      /\ assess_risk_scoring offline_host "1.0.0"
           (mkRepoInfo (JInt (2 ^ 55)) None JNull (JInt (2 ^ 54 + 1)) None false)
           initial_world
         = (Return ("Low", EmptyString), initial_world)).
Proof. repeat split; vm_compute; reflexivity. Qed.

(** C5 (amended): on integer counts and a latest tag that is a string
    or absent, with timestamps that carry a UTC offset, the score is the sum
    of six independent contributions: +1 when the last commit lies 366 times
    24 hours or more back (its age in whole days exceeds 365), +2 for fewer
    than 100 stars, +2 when both versions are there and the dotted major of
    the latest tag is above the dotted major of the local version, +1 when
    open issues times 100 over max(stars, 1) lies above 50 + 2^-48 (the
    quotient, rounded to a [float], exceeds 50), +1 when the last release
    lies 731 times 24 hours or more back, +3 for a known vulnerability.  The
    sum maps to Low for 0 or 1, Medium for 2 or 3, High for 4 or more, and
    the notes are the labels of the rules that apply, in rule order, joined
    by a comma and a space.  The clock is read once for each timestamp that
    exists.  Instead of a score the call raises [OverflowError] when the
    quotient is beyond the range of [float], and [TypeError] when a
    timestamp carries no offset. *)
Theorem assess_risk_scoring_rules
        (h : host) (local_version : string) (info : repo_info) (w : world)
        (stars_n issues_n : Z) (tag : option string) :
  stars info = JInt stars_n ->
  open_issues_count info = JInt issues_n ->
  latest_version info = tag_value tag ->
  let dividend := (issues_n * 100)%Z in
  let divisor := Z.max stars_n 1 in
  let after (readings : nat) :=
    mkWorld (requests w) (clock_reads w + readings) (SOUP_md w) in
  (forall pushed released : option Z,
      last_commit_date info = option_map Aware pushed ->
      last_release_date info = option_map Aware released ->
      let first_now := utc_now h (clock_reads w) in
      let second_now := utc_now h (clock_reads w + clock_readings pushed) in
      let sg :=
        mkSignals (days_before 366 first_now pushed)
                  (stars_n <? 100)%Z
                  (behind_latest local_version tag)
                  (ratio_above_50 dividend divisor)
                  (days_before 731 second_now released)
                  (has_known_cve info) in
      (ratio_overflows dividend divisor = false ->
       exists level,
         category (total_score sg) = Some level
         /\ assess_risk_scoring h local_version info w
            = (Return (level, PyStr.join ", " (triggered_labels sg)),
               after (clock_readings pushed + clock_readings released)))
      /\ (ratio_overflows dividend divisor = true ->
          assess_risk_scoring h local_version info w
          = (Raise OverflowError, after (clock_readings pushed))))
  /\ (forall wall : Z,
         last_commit_date info = Some (Naive wall) ->
         assess_risk_scoring h local_version info w = (Raise TypeError, after 1))
  /\ (forall (pushed : option Z) (wall : Z),
         last_commit_date info = option_map Aware pushed ->
         last_release_date info = Some (Naive wall) ->
         ratio_overflows dividend divisor = false ->
         assess_risk_scoring h local_version info w
         = (Raise TypeError, after (clock_readings pushed + 1))).
Proof.
  intros Hs Hi Hv dividend divisor after.
  assert (Hy : (0 < divisor)%Z) by (subst divisor; lia).
  pose proof (true_div_ratio dividend divisor Hy) as Hdiv.
  split; [|split].
  - intros pushed released Hc Hr first_now second_now sg.
    rewrite (scoring_on_signals h local_version info w stars_n issues_n tag
               pushed released Hs Hi Hv Hc Hr).
    fold dividend divisor.
    split; intros Ho; rewrite Ho in Hdiv.
    + destruct Hdiv as [f [-> Hf]]. cbv zeta. rewrite Hf. fold first_now second_now sg.
      destruct (category_total sg) as [level Hl]. rewrite Hl.
      exists level. split; [reflexivity|]. subst after. cbv beta.
      now rewrite Nat.add_assoc.
    + now rewrite Hdiv.
  - intros wall Hc. exact (scoring_naive_commit_date h local_version info w wall Hc).
  - intros pushed wall Hc Hr Ho. rewrite Ho in Hdiv. destruct Hdiv as [f [Hf _]].
    subst after. cbv beta. rewrite Nat.add_assoc.
    rewrite (scoring_naive_release_date h local_version info w stars_n issues_n tag
               pushed wall f Hs Hi Hv Hc Hr Hf).
    now rewrite Nat.add_assoc.
Qed.

Lemma assess_risk_scoring_rules_witness :
  let info := mkRepoInfo (JInt 50) (Some (Aware 1685577600000000%Z)) (JStr "v2.31.0")
                         (JInt 30) (Some (Aware 1653213600000000%Z)) true in
  stars info = JInt 50
  /\ open_issues_count info = JInt 30
  /\ latest_version info = tag_value (Some "v2.31.0")
  /\ ratio_overflows (30 * 100) (Z.max 50 1) = false
  /\ exists level,
      category (total_score (mkSignals true true true true true true)) = Some level
      /\ assess_risk_scoring offline_host "1.0.0" info initial_world
         = (Return (level,
                    "Infrequent Commits, Low Popularity, Version Behind Latest, Excessive Open Issues, Stale Release (>2y), Known CVE/CWEs"),
            mkWorld [] 2 None).
Proof.
  intros info.
  destruct (assess_risk_scoring_rules offline_host "1.0.0" info initial_world
              50 30 (Some "v2.31.0") eq_refl eq_refl eq_refl) as [H _].
  destruct (H (Some 1685577600000000%Z) (Some 1653213600000000%Z) eq_refl eq_refl)
    as [Hok _].
  split; [reflexivity|]. split; [reflexivity|]. split; [reflexivity|].
  split; [reflexivity|]. exact (Hok eq_refl).
Defined.

(** ** The fetcher *)

Ltac step_prog :=
  unfold try_except, bind, outer, urlopen_json, lift_outcome, set_local, pass, ret;
  cbn [fst snd requests clock_reads SOUP_md].

Lemma timestamp_step (h : host) (v : json) (set : datetime -> repo_info -> repo_info)
      (r : repo_info) (w : world) :
  exists o,
    (if truthy v
     then bind (lift_outcome (parse_timestamp h v)) (fun t => set_local (set t))
     else pass) (r, w)
    = (o, (match timestamp_of h v with Some t => set t r | None => r end, w)).
Proof.
  unfold bind, lift_outcome, set_local, pass, ret, parse_timestamp, timestamp_of.
  destruct v as [|b|n|s|items|items]; cbn [truthy as_str and_then fst snd].
  - eexists; reflexivity.
  - destruct b; eexists; reflexivity.
  - destruct (negb (n =? 0)%Z); eexists; reflexivity.
  - destruct (PyStr.nonempty s); [|eexists; reflexivity].
    destruct (fromisoformat h _); eexists; reflexivity.
  - destruct items; eexists; reflexivity.
  - destruct items; eexists; reflexivity.
Qed.

Lemma repo_block (h : host) (owner repo : string) (r : repo_info) (w : world) :
  try_except (fetch_repo_body h owner repo) [ (Exception, fun _ => pass) ] (r, w)
  = (Return tt,
     (after_repo h (urlopen h (List.length (requests w)) (repo_request h owner repo)) r,
      sent (repo_request h owner repo) w)).
Proof.
  unfold fetch_repo_body, after_repo, repo_request, sent. step_prog.
  destruct (urlopen h _ _) as [e|data]; [reflexivity|].
  destruct data as [|b|n|s|items|items]; try reflexivity.
  cbn [json_get fst snd].
  match goal with
  | |- context [if truthy ?v then _ else _] =>
      destruct (timestamp_step h v set_last_commit_date
                  (set_open_issues_count
                     (get_or (dict_get "open_issues_count" items) (JInt 0))
                     (set_stars (get_or (dict_get "stargazers_count" items) (JInt 0)) r))
                  (mkWorld (requests w ++ [mkRequest (base_repo_api_url owner repo)
                                                     (request_headers h)])
                           (clock_reads w) (SOUP_md w))) as [o Ho]
  end.
  unfold get_or in *. unfold bind, lift_outcome, set_local, pass, ret in Ho.
  cbn [fst snd] in Ho. rewrite Ho.
  destruct o as [[]|e]; reflexivity.
Qed.

Lemma release_block (h : host) (owner repo : string) (r : repo_info) (w : world) :
  try_except (fetch_release_body h owner repo)
    [ (urllib_error_HTTPError,
       fun e => match e with
                | HTTPError code => if negb (code =? 404)%Z then pass else pass
                | _ => pass
                end);
      (Exception, fun _ => pass) ] (r, w)
  = (Return tt,
     (after_release h (urlopen h (List.length (requests w)) (release_request h owner repo)) r,
      sent (release_request h owner repo) w)).
Proof.
  unfold fetch_release_body, after_release, release_request, sent. step_prog.
  destruct (urlopen h _ _) as [e|data].
  { destruct e; try reflexivity. cbn [find_handler isinstance].
    now destruct (negb (code =? 404)%Z). }
  destruct data as [|b|n|s|items|items]; try reflexivity.
  cbn [json_get fst snd].
  match goal with
  | |- context [if truthy ?v then _ else _] =>
      destruct (timestamp_step h v set_last_release_date
                  (set_latest_version (get_or (dict_get "tag_name" items) JNull) r)
                  (mkWorld (requests w ++ [mkRequest (releases_api_url owner repo)
                                                     (request_headers h)])
                           (clock_reads w) (SOUP_md w))) as [o Ho]
  end.
  unfold get_or in *. unfold bind, lift_outcome, set_local, pass, ret in Ho.
  cbn [fst snd] in Ho. rewrite Ho.
  destruct o as [[]|e]; [reflexivity|].
  destruct e; try reflexivity. cbn [find_handler isinstance].
  now destruct (negb (code =? 404)%Z).
Qed.

Lemma advisories_block (h : host) (owner repo : string) (r : repo_info) (w : world) :
  try_except (fetch_advisories_body h owner repo)
    [ (urllib_error_HTTPError, fun _ => pass); (Exception, fun _ => pass) ] (r, w)
  = (Return tt,
     (after_advisories
        (urlopen h (List.length (requests w)) (advisories_request h owner repo)) r,
      sent (advisories_request h owner repo) w)).
Proof.
  unfold fetch_advisories_body, after_advisories, advisories_flag,
    advisories_request, sent.
  step_prog.
  destruct (urlopen h _ _) as [e|data].
  { destruct e; reflexivity. }
  destruct data as [|b|n|s|items|items]; try reflexivity.
  destruct items; reflexivity.
Qed.

(** The call sends its three requests one after the other, whatever the
    answers, and returns the [result] the three blocks leave. *)
Lemma fetch_github_repo_info_blocks (h : host) (owner repo : string) (w : world) :
  let w1 := sent (repo_request h owner repo) w in
  let w2 := sent (release_request h owner repo) w1 in
  let w3 := sent (advisories_request h owner repo) w2 in
  fetch_github_repo_info h owner repo w
  = (Return
       (after_advisories
          (urlopen h (List.length (requests w2)) (advisories_request h owner repo))
          (after_release h
             (urlopen h (List.length (requests w1)) (release_request h owner repo))
             (after_repo h
                (urlopen h (List.length (requests w)) (repo_request h owner repo))
                default_result))),
     w3).
Proof.
  intros w1 w2 w3. unfold fetch_github_repo_info, with_local.
  unfold bind at 1. rewrite repo_block. fold w1.
  unfold bind at 1. rewrite release_block. fold w2.
  unfold bind at 1. rewrite advisories_block. fold w3.
  reflexivity.
Qed.

Lemma after_repo_default (h : host) (resp : response) :
  after_repo h resp default_result
  = mkRepoInfo (fst (fst (repo_fields h resp))) (snd (repo_fields h resp)) JNull
               (snd (fst (repo_fields h resp))) None false.
Proof.
  unfold after_repo, repo_fields.
  destruct resp as [e|[|b|n|s|items|items]]; try reflexivity.
  cbn [fst snd]. now destruct (timestamp_of h _).
Qed.

Lemma after_release_fields (h : host) (resp : response) (s i : json)
      (c : option datetime) :
  after_release h resp (mkRepoInfo s c JNull i None false)
  = mkRepoInfo s c (fst (release_fields h resp)) i (snd (release_fields h resp)) false.
Proof.
  unfold after_release, release_fields.
  destruct resp as [e|[|b|n|t|items|items]]; try reflexivity.
  cbn [fst snd]. now destruct (timestamp_of h _).
Qed.

(** C9, as stated, fails: the first block raises [ValueError] on the
    malformed timestamp, the exception is caught, and the counts assigned
    before it stay in the result instead of the defaults. *)
Lemma fetch_keeps_counts_of_malformed_response :
  fst (fetch_repo_body malformed_host "acme" "widget" (default_result, initial_world))
  = Raise ValueError
  /\ exists w,
      fetch_github_repo_info malformed_host "acme" "widget" initial_world
      = (Return (mkRepoInfo (JInt 5) None JNull (JInt 7) None false), w)
      /\ JInt 5 <> stars default_result
      /\ JInt 7 <> open_issues_count default_result.
Proof.
  split; [reflexivity|].
  eexists. split; [reflexivity|]. split; discriminate.
Qed.

(** C9 (amended): the call never raises and always sends its three
    requests, one after the other; each group of fields depends on the answer
    to its own request only.  A request that fails (network error, HTTP
    status, timeout, undecodable body) or delivers something other than a
    JSON object leaves its fields at the defaults (stars 0, open issues 0,
    no timestamps, no latest version, flag false); so does a 404 on the
    latest release.  When a JSON object is delivered its counts
    and tag are kept, whether or not its timestamp can be read, and only a
    timestamp that is missing or cannot be read stays absent. *)
Theorem fetch_github_repo_info_best_effort (h : host) (owner repo : string) (w : world) :
  let n := List.length (requests w) in
  let resp1 := urlopen h n (repo_request h owner repo) in
  let resp2 := urlopen h (n + 1) (release_request h owner repo) in
  let resp3 := urlopen h (n + 2) (advisories_request h owner repo) in
  fetch_github_repo_info h owner repo w
  = (Return (mkRepoInfo (fst (fst (repo_fields h resp1)))
                        (snd (repo_fields h resp1))
                        (fst (release_fields h resp2))
                        (snd (fst (repo_fields h resp1)))
                        (snd (release_fields h resp2))
                        (advisories_flag resp3)),
     mkWorld (requests w ++ [ repo_request h owner repo;
                              release_request h owner repo;
                              advisories_request h owner repo ])
             (clock_reads w) (SOUP_md w))
  /\ (forall e, repo_fields h (Fails e) = (JInt 0, JInt 0, None)
                /\ release_fields h (Fails e) = (JNull, None)
                /\ advisories_flag (Fails e) = false)
  /\ release_fields h (Fails (HTTPError 404)) = (JNull, None)
  /\ (forall b k s items fields,
         let defaults := (JInt 0, JInt 0, @None datetime) in
         repo_fields h (Delivers JNull) = defaults
         /\ repo_fields h (Delivers (JBool b)) = defaults
         /\ repo_fields h (Delivers (JInt k)) = defaults
         /\ repo_fields h (Delivers (JStr s)) = defaults
         /\ repo_fields h (Delivers (JList items)) = defaults
         /\ release_fields h (Delivers JNull) = (JNull, None)
         /\ release_fields h (Delivers (JBool b)) = (JNull, None)
         /\ release_fields h (Delivers (JInt k)) = (JNull, None)
         /\ release_fields h (Delivers (JStr s)) = (JNull, None)
         /\ release_fields h (Delivers (JList items)) = (JNull, None)
         /\ advisories_flag (Delivers JNull) = false
         /\ advisories_flag (Delivers (JBool b)) = false
         /\ advisories_flag (Delivers (JInt k)) = false
         /\ advisories_flag (Delivers (JStr s)) = false
         /\ advisories_flag (Delivers (JList [])) = false
         /\ advisories_flag (Delivers (JDict fields)) = false)
  /\ (forall items,
         fst (repo_fields h (Delivers (JDict items)))
         = (get_or (dict_get "stargazers_count" items) (JInt 0),
            get_or (dict_get "open_issues_count" items) (JInt 0))
         /\ snd (repo_fields h (Delivers (JDict items)))
            = timestamp_of h (get_or (dict_get "pushed_at" items) (JStr EmptyString))
         /\ fst (release_fields h (Delivers (JDict items)))
            = get_or (dict_get "tag_name" items) JNull
         /\ snd (release_fields h (Delivers (JDict items)))
            = timestamp_of h (get_or (dict_get "published_at" items) (JStr EmptyString))).
Proof.
  intros n resp1 resp2 resp3.
  split; [|repeat split].
  rewrite fetch_github_repo_info_blocks.
  unfold sent. cbn [requests clock_reads SOUP_md].
  rewrite !length_app. cbn [List.length].
  rewrite <- !app_assoc. cbn [app].
  replace (List.length (requests w) + 1 + 1) with (n + 2) by (subst n; lia).
  fold n. fold resp1 resp2 resp3.
  rewrite after_repo_default, after_release_fields.
  unfold after_advisories. now destruct (advisories_flag resp3).
Qed.

(** ** The missing global *)

Lemma assess_risk_shipped (h : host) (repo_url local_version : string) (w : world) :
  shipped h -> assess_risk h repo_url local_version w = (Raise NameError, w).
Proof.
  unfold shipped, assess_risk, global_parse_maintainer_from_url, bind, lift_outcome.
  now intros ->.
Qed.

Lemma enrich_entry_shipped (h : host) (e : entry) (w : world) :
  shipped h -> enrich_entry h e w = (Raise NameError, w).
Proof.
  intros Hs. unfold enrich_entry, bind.
  now rewrite (assess_risk_shipped h (url e) (version e) w Hs).
Qed.

(** C1: in the script as shipped every call of [assess_risk] raises
    [NameError], whatever its arguments, because the global
    [parse_maintainer_from_url] is bound nowhere; so [main] raises
    [NameError] as soon as the adapters have produced one record, and it
    leaves the world as it found it: no request sent, no clock read, no
    report written. *)
Theorem assess_risk_raises_NameError (h : host) :
  shipped h ->
  (forall repo_url local_version w,
      assess_risk h repo_url local_version w = (Raise NameError, w))
  /\ (forall entries w,
         collect_entries h = Return entries ->
         entries <> [] ->
         main h w = (Raise NameError, w)).
Proof.
  intros Hs. split.
  - intros repo_url local_version w. now apply assess_risk_shipped.
  - intros entries w Hc Hne. unfold main, bind at 1, lift_outcome.
    rewrite Hc. rewrite deduplicate_first_seen.
    destruct entries as [|e rest]; [congruence|].
    cbn [first_seen for_each]. unfold bind.
    now rewrite (enrich_entry_shipped h e w Hs).
Qed.

Lemma assess_risk_raises_NameError_witness :
  shipped offline_host
  /\ assess_risk offline_host "https://github.com/psf/requests" "2.0.0" initial_world
     = (Raise NameError, initial_world)
  /\ collect_entries offline_host
     = Return [mkEntry "requests" "2.0.0" EmptyString "unknown"]
  /\ main offline_host initial_world = (Raise NameError, initial_world).
Proof.
  destruct (assess_risk_raises_NameError offline_host eq_refl) as [Ha Hm].
  split; [reflexivity|]. split; [apply Ha|]. split; [reflexivity|].
  apply (Hm [mkEntry "requests" "2.0.0" EmptyString "unknown"]);
    [reflexivity | discriminate].
Defined.

(** ** URLs that are no GitHub URLs *)

(** Where the missing global is bound, a URL the pattern does not match is
    rated Low with empty notes, and nothing is requested. *)
Lemma assess_risk_skips_non_github
      (h : host) (f : string -> string) (repo_url local_version : string) (w : world) :
  parse_maintainer_from_url h = Some f ->
  Re.search github_pattern repo_url = None ->
  assess_risk h repo_url local_version w = (Return ("Low", EmptyString), w).
Proof.
  unfold assess_risk, global_parse_maintainer_from_url, bind, lift_outcome, ret.
  intros -> ->. now destruct (negb (PyStr.nonempty (f repo_url))).
Qed.

(** Where the missing global is bound to a function that names an owner and
    the pattern matches, the call fetches the repository named by the second
    group (without its trailing characters of [".git"]) and scores it. *)
Lemma assess_risk_github
      (h : host) (f : string -> string) (repo_url local_version : string)
      (groups : list string) (w : world) :
  parse_maintainer_from_url h = Some f ->
  PyStr.nonempty (f repo_url) = true ->
  Re.search github_pattern repo_url = Some groups ->
  assess_risk h repo_url local_version w
  = bind (fetch_github_repo_info h (f repo_url)
            (PyStr.rstrip_chars ".git" (Re.group 2 groups)))
         (assess_risk_scoring h local_version) w.
Proof.
  unfold assess_risk, global_parse_maintainer_from_url.
  intros -> Hf ->. unfold bind at 1, lift_outcome. now rewrite Hf.
Qed.

(** C2 at the failing inputs: neither the GitLab URL nor the empty
    string matches the pattern, and on both the script as shipped raises
    [NameError] where the specification has it return Low with empty
    notes. *)
Theorem assess_risk_non_github_raises :
  Re.search github_pattern "https://gitlab.com/x/y" = None
  /\ Re.search github_pattern EmptyString = None
  /\ assess_risk offline_host "https://gitlab.com/x/y" "1.0.0" initial_world
     = (Raise NameError, initial_world)
  /\ assess_risk offline_host EmptyString "1.0.0" initial_world
     = (Raise NameError, initial_world).
Proof. repeat split. Qed.

(** ** The override for unknown licenses *)

(** The enriched record carries the scorer's result after the override. *)
Lemma enrich_entry_returns
      (h : host) (e : entry) (w : world) (e' : enriched) (w' : world) :
  enrich_entry h e w = (Return e', w') ->
  exists scored,
    assess_risk h (url e) (version e) w = (Return scored, w')
    /\ (risk_level e', notes e') = unknown_license_override e scored.
Proof.
  unfold enrich_entry, bind, ret.
  destruct (assess_risk h (url e) (version e) w) as [[scored|x] w1]; [|discriminate].
  destruct (unknown_license_override e scored) as [level text] eqn:E.
  intros H. inversion H; subst. now exists scored.
Qed.

(** Outside the override the enriched record carries what the scorer returned. *)
Lemma enrich_entry_keeps_score
      (h : host) (e : entry) (w : world) (e' : enriched) (w' : world) :
  enrich_entry h e w = (Return e', w') ->
  license e <> "unknown" ->
  assess_risk h (url e) (version e) w = (Return (risk_level e', notes e'), w').
Proof.
  intros H Hl. apply enrich_entry_returns in H as [scored [Ha Ho]].
  unfold unknown_license_override in Ho.
  apply String.eqb_neq in Hl. rewrite Hl in Ho. now rewrite Ho.
Qed.

(** Whatever is bound to the missing global, the record with the
    unregistered license ["wtfpl"] and no url is enriched to Low. *)
Lemma unregistered_license_stays_low (h : host) (f : string -> string) (w : world) :
  parse_maintainer_from_url h = Some f ->
  let e := mkEntry "left-pad" "1.3.0" EmptyString "wtfpl" in
  enrich_entry h e w
  = (Return (mkEnriched e "Low" "No License File Required" EmptyString), w).
Proof.
  intros Hf e. unfold enrich_entry, bind.
  rewrite (assess_risk_skips_non_github h f _ _ w Hf) by reflexivity.
  reflexivity.
Qed.

(** C3, as stated, fails: ["wtfpl"] is not in the registry, yet lines
    364-367 leave the Low of the scorer in place. *)
Lemma unrecognized_license_not_forced_high :
  let e := mkEntry "left-pad" "1.3.0" EmptyString "wtfpl" in
  dict_get (license e) LICENSE_MAPPING = None
  /\ get_license_object (license e) = unknown_license
  /\ unknown_license_override e ("Low", EmptyString) = ("Low", EmptyString).
Proof. repeat split. Qed.

(** C3 (amended): a record whose normalized license is ["unknown"] (a
    missing or empty license, or that very word) is enriched to risk High
    with the note "Unknown License, Manual Review Required", whatever the
    scorer returned. *)
Theorem enrich_entry_unknown_license (h : host) (e : entry) (w : world) :
  license e = "unknown" ->
  (forall scored,
      unknown_license_override e scored
      = ("High", "Unknown License, Manual Review Required"))
  /\ (forall e' w',
         enrich_entry h e w = (Return e', w') ->
         risk_level e' = "High"
         /\ notes e' = "Unknown License, Manual Review Required").
Proof.
  intros Hl.
  assert (Ho : forall scored,
             unknown_license_override e scored
             = ("High", "Unknown License, Manual Review Required")).
  { intros scored. unfold unknown_license_override. now rewrite Hl. }
  split; [exact Ho|].
  intros e' w' H. apply enrich_entry_returns in H as [scored [_ Hs]].
  rewrite Ho in Hs. now inversion Hs.
Qed.

Lemma enrich_entry_unknown_license_witness :
  let e := mkEntry "mystery" "0.1" EmptyString (normalize_license EmptyString) in
  license e = "unknown"
  /\ unknown_license_override e ("Low", EmptyString)
     = ("High", "Unknown License, Manual Review Required")
  /\ exists e',
      enrich_entry patched_host e initial_world = (Return e', initial_world)
      /\ risk_level e' = "High"
      /\ notes e' = "Unknown License, Manual Review Required".
Proof.
  intros e.
  destruct (enrich_entry_unknown_license patched_host e initial_world eq_refl)
    as [Ho He].
  split; [reflexivity|]. split; [apply Ho|].
  eexists. split; [reflexivity|]. apply (He _ initial_world). reflexivity.
Defined.

(** ** One whole run *)

(** With the missing global bound, the run on the example inventories
    requests the one GitHub repository, forces the record without license to
    High, leaves the record with the unregistered license at Low, and writes
    the table sorted by risk and name into the template. *)
Lemma main_patched_host_report :
  exists w,
    main patched_host initial_world = (Return tt, w)
    /\ map req_url (requests w)
       = [ "https://api.github.com/repos/psf/requests";
           "https://api.github.com/repos/psf/requests/releases/latest";
           "https://api.github.com/repos/psf/requests/security/advisories" ]
    /\ SOUP_md w
       = Some ("HEADER" ++ nl
               ++ table_header ++ nl
               ++ table_divider ++ nl
               ++ "| High | mystery | 0.1 | unknown | No License File Required | Unknown License, Manual Review Required |  |" ++ nl
               ++ "| High | requests | 1.0.0 | apache-2.0 | Include License File | Infrequent Commits, Low Popularity, Version Behind Latest, Excessive Open Issues, Stale Release (>2y), Known CVE/CWEs | https://github.com/psf/requests.git |" ++ nl
               ++ "| Low | left-pad | 1.3.0 | wtfpl | No License File Required |  |  |" ++ nl
               ++ "FOOTER")%string.
Proof. eexists. repeat split; vm_compute; reflexivity. Qed.

(** * Further properties of the script *)

(** ** The license registry *)

Lemma all_chars_drop_while (p q : ascii -> bool) (s : string) :
  all_chars p s = true -> all_chars p (PyStr.drop_while q s) = true.
Proof.
  induction s as [|c s IH]; simpl; [reflexivity|].
  intros H. apply andb_true_iff in H as [Hc Hs].
  destruct (q c); [now apply IH|]. simpl. now rewrite Hc, Hs.
Qed.

Lemma all_chars_drop_while_end (p q : ascii -> bool) (s : string) :
  all_chars p s = true -> all_chars p (PyStr.drop_while_end q s) = true.
Proof.
  induction s as [|c s IH]; simpl; [reflexivity|].
  intros H. apply andb_true_iff in H as [Hc Hs]. specialize (IH Hs).
  destruct (PyStr.drop_while_end q s) as [|d r].
  - destruct (q c); simpl; [reflexivity|]. now rewrite Hc.
  - cbn [all_chars] in *. now rewrite Hc, IH.
Qed.

Lemma not_upper_lower_char (c : ascii) : not_upper (PyStr.lower_char c) = true.
Proof. each_ascii c; reflexivity. Qed.

Lemma all_chars_casefold (s : string) : all_chars not_upper (PyStr.casefold s) = true.
Proof.
  unfold PyStr.casefold. induction s as [|c s IH]; simpl; [reflexivity|].
  now rewrite not_upper_lower_char, IH.
Qed.

(** The normalized identifier the registry is asked for. *)
Lemma strip_casefold_fixed (x : string) :
  PyStr.strip (PyStr.casefold (PyStr.strip (PyStr.casefold x)))
  = PyStr.strip (PyStr.casefold x).
Proof. now rewrite casefold_strip, casefold_idempotent, strip_idempotent. Qed.

(** X1: the registry answers alike for a raw license text and for its
    normalized form, so the lookup [main] makes on the normalized license is
    the lookup on what the scanner wrote. *)
Theorem get_license_object_normalized (x : string) :
  get_license_object (normalize_license x) = get_license_object x.
Proof.
  destruct (PyStr.nonempty x) eqn:Ex.
  - rewrite (normalize_license_nonempty_arg x Ex).
    unfold get_license_object. now rewrite strip_casefold_fixed.
  - destruct x; [reflexivity | discriminate].
Qed.

Ltac case_key y :=
  repeat match goal with
         | |- context [String.eqb y ?k] =>
             destruct (String.eqb_spec y k) as [->|?]; [reflexivity|]
         end.

(** X2: only the identifier [cc-by-nc-4.0] (in any case, with any
    surrounding blanks) is non-commercial, and a license file is required
    for every registered identifier except [cc0-1.0] and [unknown]; an
    identifier that is not registered requires none. *)
Theorem get_license_object_attributes (x : string) :
  let normalized := PyStr.strip (PyStr.casefold x) in
  is_non_commercial_only (get_license_object x)
  = String.eqb normalized "cc-by-nc-4.0"
  /\ requires_license_file (get_license_object x)
     = match dict_get normalized LICENSE_MAPPING with
       | Some _ => negb (String.eqb normalized "cc0-1.0"
                         || String.eqb normalized "unknown")
       | None => false
       end.
Proof.
  intros normalized. unfold get_license_object. fold normalized.
  generalize normalized. clear normalized. intros y.
  unfold LICENSE_MAPPING. cbn [dict_get].
  split; case_key y; reflexivity.
Qed.

(** ** Normalized licenses *)

(** X3: for every input made of ASCII characters, a normalized license
    holds no upper-case letter and is not changed by stripping: it has no
    blank at either end. *)
Theorem normalize_license_lower_trimmed (x : string) :
  all_chars is_ascii x = true ->
  all_chars not_upper (normalize_license x) = true
  /\ PyStr.strip (normalize_license x) = normalize_license x.
Proof.
  intros _. unfold normalize_license. destruct (PyStr.nonempty x); simpl.
  - split; [|apply strip_idempotent].
    unfold PyStr.strip. apply all_chars_drop_while_end, all_chars_drop_while.
    apply all_chars_casefold.
  - split; reflexivity.
Qed.

Lemma normalize_license_lower_trimmed_witness :
  all_chars is_ascii "  Apache-2.0 " = true
  /\ normalize_license "  Apache-2.0 " = "apache-2.0"
  /\ all_chars not_upper (normalize_license "  Apache-2.0 ") = true
  /\ PyStr.strip (normalize_license "  Apache-2.0 ") = normalize_license "  Apache-2.0 ".
Proof.
  split; [reflexivity|]. split; [reflexivity|].
  exact (normalize_license_lower_trimmed "  Apache-2.0 " eq_refl).
Defined.

(** ** The adapters *)

(** X4: adapter A returns one record per item, in order: a missing name
    or version becomes ["Unknown"], a missing url the empty string, a missing
    license ["unknown"], and a license that is given is normalized; on a file
    that does not exist it raises [FileNotFoundError], and on one it cannot
    decode the error of the decoder. *)
Theorem process_poetry_licenses_parses :
  (forall data,
      exists entries,
        process_poetry_licenses (Holds data) = Return entries
        /\ Forall2 poetry_parsed data entries)
  /\ process_poetry_licenses Absent = Raise FileNotFoundError
  /\ (forall e, process_poetry_licenses (Unreadable e) = Raise e).
Proof.
  split; [|split; reflexivity].
  intros data. unfold process_poetry_licenses. cbn [load and_then].
  eexists. split; [reflexivity|].
  induction data as [|item data IH]; cbn [map]; constructor; [|exact IH].
  constructor; cbn [name version url license].
  - now intros n ->.
  - now intros ->.
  - now intros v ->.
  - now intros ->.
  - now intros u ->.
  - now intros ->.
  - now intros l ->.
  - now intros ->.
Qed.

Lemma rsplit_last_join (sep : ascii) (n v : string) :
  PyStr.mem_char sep v = false ->
  PyStr.rsplit_last sep (n ++ String sep v)%string = Some (n, v).
Proof.
  intros Hv. induction n as [|c n IH]; cbn [append PyStr.rsplit_last].
  - apply rsplit_last_none in Hv. rewrite Hv. now rewrite Ascii.eqb_refl.
  - now rewrite IH.
Qed.

Lemma mem_char_join (sep : ascii) (n v : string) :
  PyStr.mem_char sep (n ++ String sep v)%string = true.
Proof.
  induction n as [|c n IH]; cbn [append PyStr.mem_char].
  - now rewrite Ascii.eqb_refl.
  - rewrite IH. apply orb_true_r.
Qed.

(** X5: splitting undoes joining: for every name (also one that holds
    ["@"] itself, as a scoped package does, or the empty one) and every
    version without ["@"], the key [name@version] yields exactly that name
    and that version.  A key that starts with ["@"] and holds no other one
    is therefore read as an empty name with the rest as version. *)
Theorem npm_entry_split_join (n v : string) (info : npm_info) :
  PyStr.mem_char "@" v = false ->
  exists e,
    npm_entry (n ++ "@" ++ v)%string info = Return e
    /\ name e = n /\ version e = v.
Proof.
  intros Hv. unfold npm_entry.
  change (n ++ "@" ++ v)%string with (n ++ String "@" v)%string.
  rewrite mem_char_join. unfold PyStr.rsplit1.
  rewrite (rsplit_last_join "@" n v Hv).
  eexists. split; [reflexivity|]. split; reflexivity.
Qed.

Lemma npm_entry_split_join_witness :
  PyStr.mem_char "@" "7.24.0" = false
  /\ exists e,
      npm_entry "@babel/core@7.24.0" (mkNpmInfo None None None) = Return e
      /\ name e = "@babel/core" /\ version e = "7.24.0".
Proof.
  split; [reflexivity|].
  exact (npm_entry_split_join "@babel/core" "7.24.0" (mkNpmInfo None None None) eq_refl).
Defined.

Lemma npm_entries_length (data : list (string * npm_info)) :
  exists entries,
    npm_entries data = Return entries /\ List.length entries = List.length data.
Proof.
  induction data as [|[package_key info] data [entries [IH1 IH2]]].
  - now exists [].
  - destruct (npm_entry_parsed package_key info) as [e [He _]].
    exists (e :: entries). cbn [npm_entries]. rewrite He, IH1.
    split; [reflexivity|]. cbn [List.length]. now rewrite IH2.
Qed.

(** X6: ingestion loses and invents nothing and keeps the order: when
    neither inventory is unreadable the merged list is what the npm adapter
    returns for the npm items followed by what the poetry adapter returns
    for the poetry items, one record per item of each file that exists
    (none for a file that is absent); an unreadable npm inventory raises its
    error before the poetry inventory is looked at, an unreadable poetry
    inventory raises its error too. *)
Theorem collect_entries_merges (h : host) :
  (unreadable (licenses_npm_json h) = None ->
   unreadable (licenses_poetry_json h) = None ->
   exists from_npm from_poetry,
     collect_entries h = Return (from_npm ++ from_poetry)
     /\ process_npm_licenses (Holds (items_of (licenses_npm_json h))) = Return from_npm
     /\ List.length from_npm = List.length (items_of (licenses_npm_json h))
     /\ process_poetry_licenses (Holds (items_of (licenses_poetry_json h)))
        = Return from_poetry
     /\ List.length from_poetry = List.length (items_of (licenses_poetry_json h)))
  /\ (forall e, unreadable (licenses_npm_json h) = Some e ->
                collect_entries h = Raise e)
  /\ (forall e, unreadable (licenses_npm_json h) = None ->
                unreadable (licenses_poetry_json h) = Some e ->
                collect_entries h = Raise e).
Proof.
  unfold collect_entries.
  destruct (licenses_npm_json h) as [|en|dn], (licenses_poetry_json h) as [|ep|dp];
    cbn [unreadable os_path_exists items_of process_npm_licenses
         process_poetry_licenses load and_then npm_entries];
    (split; [|split]); try discriminate;
    try (intros e H; inversion H; subst; reflexivity);
    try (intros e _ H; inversion H; subst).
  - intros _ _. exists [], []. repeat split.
  - reflexivity.
  - intros _ _. eexists [], _. cbn [app]. split; [reflexivity|].
    split; [reflexivity|]. split; [reflexivity|]. split; [reflexivity|].
    now rewrite length_map.
  - intros _ _. destruct (npm_entries_length dn) as [entries [H1 H2]].
    exists entries, []. rewrite H1. cbn [and_then]. repeat split. exact H2.
  - destruct (npm_entries_length dn) as [entries [H1 H2]].
    rewrite H1. reflexivity.
  - intros _ _. destruct (npm_entries_length dn) as [entries [H1 H2]].
    eexists entries, _. rewrite H1. cbn [and_then].
    split; [reflexivity|]. split; [reflexivity|]. split; [exact H2|].
    split; [reflexivity|]. now rewrite length_map.
Qed.

(** ** The repository a URL names *)

Lemma drop_while_end_app_all (p : ascii -> bool) (s t : string) :
  all_chars p t = true ->
  PyStr.drop_while_end p (s ++ t)%string = PyStr.drop_while_end p s.
Proof.
  intros Ht. induction s as [|c s IH]; cbn [append PyStr.drop_while_end].
  - now apply drop_while_end_empty_iff.
  - now rewrite IH.
Qed.

Lemma drop_while_end_keeps (p : ascii -> bool) (m : string) (c : ascii) :
  p c = false ->
  PyStr.drop_while_end p (m ++ String c EmptyString)%string
  = (m ++ String c EmptyString)%string.
Proof.
  intros Hc. induction m as [|d m IH]; cbn [append PyStr.drop_while_end].
  - now rewrite Hc.
  - rewrite IH. now destruct m.
Qed.

(** X7: [rstrip(".git")] removes characters, not a suffix: everything
    that a repository name ends with among ['.'], ['g'], ['i'], ['t'] goes,
    so a name is cut back to its last other character whether or not
    [.git] follows it (["widget"] and ["widget.git"] both become
    ["widge"]); a name whose last character is none of the four comes back
    whole, also from under a trailing [.git]. *)
Theorem rstrip_git_removes_characters :
  (forall n t,
      all_chars git_char t = true ->
      PyStr.rstrip_chars ".git" (n ++ t)%string = PyStr.rstrip_chars ".git" n)
  /\ (forall m c,
         git_char c = false ->
         PyStr.rstrip_chars ".git" (m ++ String c EmptyString)%string
         = (m ++ String c EmptyString)%string
         /\ PyStr.rstrip_chars ".git" ((m ++ String c EmptyString) ++ ".git")%string
            = (m ++ String c EmptyString)%string)
  /\ (forall n,
         PyStr.rstrip_chars ".git" (PyStr.rstrip_chars ".git" n)
         = PyStr.rstrip_chars ".git" n).
Proof.
  unfold PyStr.rstrip_chars, git_char. split; [|split].
  - intros n t Ht. now apply drop_while_end_app_all.
  - intros m c Hc. split.
    + now apply drop_while_end_keeps.
    + rewrite drop_while_end_app_all by reflexivity.
      now apply drop_while_end_keeps.
  - intros n. apply drop_while_end_idempotent.
Qed.

Lemma strip_prefix_prefix (text s r : string) :
  Re.strip_prefix text s = Some r -> prefix text s = true.
Proof.
  revert s. induction text as [|a text IH]; intros s; [now destruct s|].
  destruct s as [|b s]; cbn [Re.strip_prefix prefix]; [discriminate|].
  destruct (Ascii.eqb_spec a b) as [->|]; [|discriminate].
  destruct (ascii_dec b b); [apply IH | congruence].
Qed.

Lemma match_github_prefix (s : string) (gs : list string) :
  Re.match_ github_pattern s = Some gs -> prefix "github.com/" s = true.
Proof.
  unfold Re.match_, github_pattern. cbn [Re.run].
  destruct (Re.strip_prefix "github.com/" s) eqn:E; [|discriminate].
  intros _. now apply strip_prefix_prefix in E.
Qed.

Lemma search_github_occurs (s : string) (gs : list string) :
  Re.search github_pattern s = Some gs -> occurs "github.com/" s = true.
Proof.
  induction s as [|c s IH]; cbn [Re.search occurs].
  - destruct (Re.match_ github_pattern EmptyString) eqn:E; [|discriminate].
    intros _. now rewrite (match_github_prefix _ _ E).
  - destruct (Re.match_ github_pattern (String c s)) eqn:E.
    + intros _. now rewrite (match_github_prefix _ _ E).
    + intros H. rewrite (IH H). apply orb_true_r.
Qed.

(** X8: a URL in which the text [github.com/] does not occur is never
    looked up: the call leaves the world as it was (no request, no clock
    reading), whether it raises for want of the missing global or returns
    Low with empty notes. *)
Theorem assess_risk_offline_without_github
        (h : host) (repo_url local_version : string) (w : world) :
  occurs "github.com/" repo_url = false ->
  assess_risk h repo_url local_version w = (Raise NameError, w)
  \/ assess_risk h repo_url local_version w = (Return ("Low", EmptyString), w).
Proof.
  intros Ho.
  destruct (parse_maintainer_from_url h) as [f|] eqn:Ef.
  - right. apply (assess_risk_skips_non_github h f); [exact Ef|].
    destruct (Re.search github_pattern repo_url) eqn:E; [|reflexivity].
    apply search_github_occurs in E. congruence.
  - left. now apply assess_risk_shipped.
Qed.

Lemma assess_risk_offline_without_github_witness :
  occurs "github.com/" "git@github.com:psf/requests.git" = false
  /\ (assess_risk patched_host "git@github.com:psf/requests.git" "2.0.0" initial_world
      = (Raise NameError, initial_world)
      \/ assess_risk patched_host "git@github.com:psf/requests.git" "2.0.0" initial_world
         = (Return ("Low", EmptyString), initial_world)).
Proof.
  split; [reflexivity|].
  apply (assess_risk_offline_without_github patched_host). reflexivity.
Defined.

Lemma drop_while_app_stop (p : ascii -> bool) (a b : string) :
  all_chars p a = true -> starts_in p b = false ->
  PyStr.drop_while p (a ++ b)%string = b.
Proof.
  intros Ha Hb. induction a as [|c a IH]; cbn [append].
  - destruct b as [|d b]; [reflexivity|]. cbn in *. now rewrite Hb.
  - cbn in Ha. apply andb_true_iff in Ha as [Hc Ha]. cbn. rewrite Hc. now apply IH.
Qed.

Lemma take_while_app_stop (p : ascii -> bool) (a b : string) :
  all_chars p a = true -> starts_in p b = false ->
  take_while p (a ++ b)%string = a.
Proof.
  intros Ha Hb. induction a as [|c a IH]; cbn [append].
  - destruct b as [|d b]; [reflexivity|]. cbn in *. now rewrite Hb.
  - cbn in Ha. apply andb_true_iff in Ha as [Hc Ha]. cbn. rewrite Hc.
    now rewrite IH.
Qed.

(** A greedy class keeps all it can take when the continuation accepts
    the rest after the longest run. *)
Lemma plus_more_accepts {R : Type} (cls : ascii -> bool) (s : string)
      (k : string -> option R) (r : R) :
  k (PyStr.drop_while cls s) = Some r -> Re.plus_more cls s k = Some r.
Proof.
  induction s as [|c s IH]; cbn [Re.plus_more PyStr.drop_while]; [easy|].
  destruct (cls c); [|easy]. intros H. now rewrite (IH H).
Qed.

(** The pattern at the text [github.com/owner/repo]: the groups are the two
    segments. *)
Lemma match_github_segments (owner repo rest : string) :
  PyStr.nonempty owner = true -> all_chars not_slash owner = true ->
  PyStr.nonempty repo = true -> all_chars not_slash repo = true ->
  starts_in not_slash rest = false ->
  Re.match_ github_pattern ("github.com/" ++ owner ++ "/" ++ repo ++ rest)%string
  = Some [owner; repo].
Proof.
  intros Ho Hos Hr Hrs Hrest.
  unfold Re.match_, github_pattern. cbn [Re.run].
  change (Re.strip_prefix "github.com/"
            ("github.com/" ++ owner ++ "/" ++ repo ++ rest)%string)
    with (Some (owner ++ "/" ++ repo ++ rest)%string).
  set (s := (owner ++ "/" ++ repo ++ rest)%string).
  assert (Hd : PyStr.drop_while not_slash s = ("/" ++ repo ++ rest)%string).
  { apply drop_while_app_stop; [exact Hos | reflexivity]. }
  assert (Ht : take_while not_slash s = owner).
  { apply take_while_app_stop; [exact Hos | reflexivity]. }
  pose proof (consumed_drop_while not_slash s) as Hc. rewrite Hd, Ht in Hc.
  assert (Hd2 : PyStr.drop_while not_slash (repo ++ rest) = rest).
  { now apply drop_while_app_stop. }
  assert (Ht2 : take_while not_slash (repo ++ rest) = repo).
  { now apply take_while_app_stop. }
  pose proof (consumed_drop_while not_slash (repo ++ rest)) as Hc2.
  rewrite Hd2, Ht2 in Hc2.
  destruct owner as [|c o]; [discriminate|].
  cbn [all_chars] in Hos. apply andb_true_iff in Hos as [Hcs Hos].
  cbn [append] in s. subst s. cbv beta iota. rewrite Hcs.
  cbn [PyStr.drop_while] in Hd. rewrite Hcs in Hd.
  rewrite plus_more_longest.
  - rewrite Hd. rewrite strip_prefix_char.
    change (followed_by "/" ("/" ++ repo ++ rest)%string) with (Ascii.eqb "/" "/").
    rewrite Ascii.eqb_refl. cbn [append].
    destruct repo as [|d r]; [discriminate|].
    cbn [all_chars] in Hrs. apply andb_true_iff in Hrs as [Hds Hrs].
    cbn [append]. rewrite Hds.
    cbn [append PyStr.drop_while] in Hd2. rewrite Hds in Hd2.
    apply plus_more_accepts. rewrite Hd2.
    cbn [append] in Hc, Hc2. cbn [app]. now rewrite Hc, Hc2.
  - intros t Hs. rewrite strip_prefix_char.
    destruct t as [|e t]; [discriminate|]. cbn [starts_in followed_by] in *.
    unfold not_slash in Hs. apply negb_true_iff in Hs.
    now rewrite Ascii.eqb_sym, Hs.
Qed.

Lemma match_github_not_g (c : ascii) (s : string) :
  not_g c = true -> Re.match_ github_pattern (String c s) = None.
Proof.
  unfold not_g, Re.match_, github_pattern. intros H. apply negb_true_iff in H.
  cbn [Re.run Re.strip_prefix]. now rewrite Ascii.eqb_sym, H.
Qed.

(** In a URL whose text before [github.com/] holds no ['g'], the pattern
    finds the two path segments after it. *)
Lemma search_github_segments (before owner repo rest : string) :
  all_chars not_g before = true ->
  PyStr.nonempty owner = true -> all_chars not_slash owner = true ->
  PyStr.nonempty repo = true -> all_chars not_slash repo = true ->
  starts_in not_slash rest = false ->
  Re.search github_pattern
    (before ++ "github.com/" ++ owner ++ "/" ++ repo ++ rest)%string
  = Some [owner; repo].
Proof.
  intros Hb Ho Hos Hr Hrs Hrest.
  induction before as [|c before IH].
  - cbn [append].
    pose proof (match_github_segments owner repo rest Ho Hos Hr Hrs Hrest) as H.
    cbn [append] in H. cbn [Re.search]. now rewrite H.
  - cbn [all_chars] in Hb. apply andb_true_iff in Hb as [Hc Hb].
    change ((String c before ++ "github.com/" ++ owner ++ "/" ++ repo ++ rest)%string)
      with (String c (before ++ "github.com/" ++ owner ++ "/" ++ repo ++ rest)%string).
    cbn [Re.search]. rewrite (match_github_not_g c _ Hc). now apply IH.
Qed.

(** X9: for such a URL, with the missing global bound to a function that
    names an owner, the call queries GitHub for that owner and for the
    second path segment cut back by [rstrip(".git")], and scores what it
    fetched; the first path segment of the URL is not used. *)
Theorem assess_risk_fetches_second_segment
        (h : host) (f : string -> string)
        (before owner repo rest local_version : string) (w : world) :
  let repo_url := (before ++ "github.com/" ++ owner ++ "/" ++ repo ++ rest)%string in
  parse_maintainer_from_url h = Some f ->
  PyStr.nonempty (f repo_url) = true ->
  all_chars not_g before = true ->
  PyStr.nonempty owner = true -> all_chars not_slash owner = true ->
  PyStr.nonempty repo = true -> all_chars not_slash repo = true ->
  starts_in not_slash rest = false ->
  assess_risk h repo_url local_version w
  = bind (fetch_github_repo_info h (f repo_url) (PyStr.rstrip_chars ".git" repo))
         (assess_risk_scoring h local_version) w.
Proof.
  intros repo_url Hf Hn Hb Ho Hos Hr Hrs Hrest.
  rewrite (assess_risk_github h f repo_url local_version [owner; repo] w Hf Hn).
  - reflexivity.
  - now apply search_github_segments.
Qed.

Lemma assess_risk_fetches_second_segment_witness :
  let repo_url := "https://github.com/psf/requests/tree/main" in
  parse_maintainer_from_url patched_host = Some owner_of_url
  /\ PyStr.nonempty (owner_of_url repo_url) = true
  /\ assess_risk patched_host repo_url "1.0.0" initial_world
     = bind (fetch_github_repo_info patched_host "psf" "requests")
            (assess_risk_scoring patched_host "1.0.0") initial_world.
Proof.
  intros repo_url. split; [reflexivity|]. split; [reflexivity|].
  exact (assess_risk_fetches_second_segment
           patched_host owner_of_url "https://" "psf" "requests" "/tree/main"
           "1.0.0" initial_world eq_refl eq_refl eq_refl eq_refl eq_refl eq_refl
           eq_refl eq_refl).
Defined.

(** ** What the fetcher sends *)

Lemma string_append_assoc (a b c : string) :
  ((a ++ b) ++ c = a ++ (b ++ c))%string.
Proof. induction a as [|x a IH]; cbn [append]; [reflexivity | now rewrite IH]. Qed.

Lemma prefix_append (a b : string) : prefix a (a ++ b)%string = true.
Proof.
  induction a as [|x a IH]; cbn [append prefix].
  - now destruct b.
  - destruct (ascii_dec x x); [exact IH | congruence].
Qed.

(** X10: every call sends exactly three requests, all to addresses under
    [https://api.github.com/repos/], all with the same headers: the [Accept]
    header always, and an [Authorization] header exactly when
    [GITHUB_TOKEN] is not empty, carrying the word Bearer and the token. *)
Theorem fetch_github_repo_info_requests (h : host) (owner repo : string) (w : world) :
  exists sent_now,
    requests (snd (fetch_github_repo_info h owner repo w)) = requests w ++ sent_now
    /\ List.length sent_now = 3
    /\ Forall (fun req =>
                 prefix "https://api.github.com/repos/" (req_url req) = true
                 /\ dict_get "Accept" (req_headers req)
                    = Some "application/vnd.github+json"
                 /\ dict_get "Authorization" (req_headers req)
                    = if PyStr.nonempty (GITHUB_TOKEN h)
                      then Some ("Bearer " ++ GITHUB_TOKEN h)%string
                      else None)
              sent_now.
Proof.
  exists [ repo_request h owner repo; release_request h owner repo;
           advisories_request h owner repo ].
  rewrite fetch_github_repo_info_blocks. cbn [snd].
  unfold sent. cbn [requests]. rewrite <- !app_assoc. cbn [app].
  split; [reflexivity|]. split; [reflexivity|].
  assert (Hh : dict_get "Accept" (request_headers h)
               = Some "application/vnd.github+json"
               /\ dict_get "Authorization" (request_headers h)
                  = if PyStr.nonempty (GITHUB_TOKEN h)
                    then Some ("Bearer " ++ GITHUB_TOKEN h)%string
                    else None).
  { unfold request_headers. now destruct (PyStr.nonempty (GITHUB_TOKEN h)). }
  unfold repo_request, release_request, advisories_request,
    releases_api_url, advisories_url, base_repo_api_url.
  constructor; [|constructor; [|constructor; [|constructor]]];
    cbn [req_url req_headers]; (split; [|exact Hh]).
  - apply prefix_append.
  - rewrite string_append_assoc. apply prefix_append.
  - apply prefix_append.
Qed.

(** ** Scoring what the fetcher returns *)

Lemma fetch_all_failed (h : host) (owner repo : string) (w : world) :
  (forall n req, failed (urlopen h n req) = true) ->
  fetch_github_repo_info h owner repo w
  = (Return default_result,
     sent (advisories_request h owner repo)
       (sent (release_request h owner repo)
          (sent (repo_request h owner repo) w))).
Proof.
  intros Hf. rewrite fetch_github_repo_info_blocks. cbv zeta.
  repeat match goal with
         | |- context [urlopen h ?n ?req] =>
             let E := fresh "E" in
             pose proof (Hf n req) as E;
             destruct (urlopen h n req); [clear E | discriminate E]
         end.
  reflexivity.
Qed.

(** X11: when every request fails, a dependency whose URL names a GitHub
    repository is rated Medium with the single note "Low Popularity", whatever
    its version: the default of zero stars counts as fewer than 100.  Three
    requests were tried and the clock was not read. *)
Theorem assess_risk_unreachable_is_medium
        (h : host) (f : string -> string) (repo_url local_version : string)
        (groups : list string) (w : world) :
  parse_maintainer_from_url h = Some f ->
  PyStr.nonempty (f repo_url) = true ->
  Re.search github_pattern repo_url = Some groups ->
  (forall n req, failed (urlopen h n req) = true) ->
  exists w',
    assess_risk h repo_url local_version w
    = (Return ("Medium", "Low Popularity"), w')
    /\ List.length (requests w') = List.length (requests w) + 3
    /\ clock_reads w' = clock_reads w.
Proof.
  intros Hf Hn Hs Hfail.
  rewrite (assess_risk_github h f repo_url local_version groups w Hf Hn Hs).
  unfold bind at 1. rewrite (fetch_all_failed h _ _ w Hfail).
  eexists. split.
  - unfold assess_risk_scoring, default_result, bind, ret, lift_outcome.
    cbn [last_commit_date stars latest_version open_issues_count
         last_release_date has_known_cve as_number].
    unfold is_significantly_older. cbn [truthy]. rewrite orb_true_r.
    reflexivity.
  - unfold sent. cbn [requests clock_reads]. rewrite !length_app. cbn [List.length].
    split; [lia | reflexivity].
Qed.

Lemma assess_risk_unreachable_is_medium_witness :
  exists w',
    assess_risk unreachable_host "https://github.com/psf/requests" "2.0.0" initial_world
    = (Return ("Medium", "Low Popularity"), w')
    /\ List.length (requests w') = List.length (requests initial_world) + 3
    /\ clock_reads w' = clock_reads initial_world.
Proof.
  apply (assess_risk_unreachable_is_medium unreachable_host owner_of_url
           "https://github.com/psf/requests" "2.0.0" ["psf"; "requests"]);
    reflexivity.
Defined.

Lemma scoring_needs_numeric_stars
      (h : host) (local_version : string) (info : repo_info) (w : world) :
  as_number (stars info) = Raise TypeError ->
  fst (assess_risk_scoring h local_version info w) = Raise TypeError.
Proof.
  intros Hs. unfold assess_risk_scoring, bind, ret, lift_outcome, datetime_now.
  rewrite Hs. destruct (last_commit_date info) as [[pushed|wall]|]; reflexivity.
Qed.

Lemma after_blocks_stars (h : host) (resp2 resp3 : response) (r : repo_info) :
  stars (after_advisories resp3 (after_release h resp2 r)) = stars r.
Proof.
  unfold after_advisories, after_release.
  destruct (advisories_flag resp3), resp2 as [e|[|b|n|s|items|items]];
    try reflexivity;
    now destruct (timestamp_of h _).
Qed.

Lemma after_repo_stars (h : host) (items : list (string * json)) (r : repo_info) :
  stars (after_repo h (Delivers (JDict items)) r)
  = get_or (dict_get "stargazers_count" items) (JInt 0).
Proof. unfold after_repo. now destruct (timestamp_of h _). Qed.

(** X12: the fetcher stores whatever value the repository answer holds
    under [stargazers_count] and raises nothing, but a value that is no
    number (null, a string, a list, an object) makes the scorer raise
    [TypeError] at the comparison with 100: the call of [assess_risk] fails
    after the three requests were sent. *)
Theorem assess_risk_raises_on_non_numeric_stars
        (h : host) (f : string -> string) (repo_url local_version : string)
        (groups : list string) (w : world)
        (items : list (string * json)) (value : json) :
  parse_maintainer_from_url h = Some f ->
  PyStr.nonempty (f repo_url) = true ->
  Re.search github_pattern repo_url = Some groups ->
  urlopen h (List.length (requests w))
          (repo_request h (f repo_url) (PyStr.rstrip_chars ".git" (Re.group 2 groups)))
  = Delivers (JDict items) ->
  dict_get "stargazers_count" items = Some value ->
  as_number value = Raise TypeError ->
  (exists info w', fetch_github_repo_info h (f repo_url)
                     (PyStr.rstrip_chars ".git" (Re.group 2 groups)) w
                   = (Return info, w') /\ stars info = value)
  /\ fst (assess_risk h repo_url local_version w) = Raise TypeError.
Proof.
  intros Hf Hn Hs Hresp Hitem Hvalue.
  assert (Hstars : forall info w',
             fetch_github_repo_info h (f repo_url)
               (PyStr.rstrip_chars ".git" (Re.group 2 groups)) w = (Return info, w') ->
             stars info = value).
  { intros info w'. rewrite fetch_github_repo_info_blocks. cbv zeta.
    intros H. inversion H; subst. rewrite after_blocks_stars, Hresp, after_repo_stars.
    now rewrite Hitem. }
  split.
  - rewrite fetch_github_repo_info_blocks in *. cbv zeta in *.
    eexists _, _. split; [reflexivity|]. now apply (Hstars _ _ eq_refl).
  - rewrite (assess_risk_github h f repo_url local_version groups w Hf Hn Hs).
    unfold bind at 1.
    destruct (fetch_github_repo_info h (f repo_url)
                (PyStr.rstrip_chars ".git" (Re.group 2 groups)) w)
      as [[info|e] w'] eqn:E.
    + apply scoring_needs_numeric_stars. now rewrite (Hstars info w' eq_refl).
    + rewrite fetch_github_repo_info_blocks in E. discriminate E.
Qed.

Lemma assess_risk_raises_on_non_numeric_stars_witness :
  (exists info w', fetch_github_repo_info null_stars_host "psf" "requests" initial_world
                   = (Return info, w') /\ stars info = JNull)
  /\ fst (assess_risk null_stars_host "https://github.com/psf/requests" "2.0.0"
                      initial_world) = Raise TypeError.
Proof.
  exact (assess_risk_raises_on_non_numeric_stars
           null_stars_host owner_of_url "https://github.com/psf/requests" "2.0.0"
           ["psf"; "requests"] initial_world [ ("stargazers_count", JNull) ] JNull
           eq_refl eq_refl eq_refl eq_refl eq_refl eq_refl).
Defined.

(** ** Risk levels *)

(** Every result of the scoring block is one of the 64 tallies. *)
Lemma scoring_cases
      (h : host) (local_version : string) (info : repo_info) (w : world)
      (level text : string) (w' : world) :
  assess_risk_scoring h local_version info w = (Return (level, text), w') ->
  exists b1 b2 b3 b4 b5 : bool,
    let sg := mkSignals b1 b2 b3 b4 b5 (has_known_cve info) in
    category (total_score sg) = Some level
    /\ text = PyStr.join ", " (triggered_labels sg).
Proof.
  unfold assess_risk_scoring, bind, ret, lift_outcome, datetime_now.
  intros H.
  exists (match last_commit_date info with
          | Some (Aware t) =>
              (timedelta_days (utc_now h (clock_reads w) - t) >? 365)%Z
          | _ => false
          end),
    (match as_number (stars info) with
     | Return stars_n => (stars_n <? 100)%Z
     | Raise _ => false
     end),
    (match is_significantly_older (JStr local_version) (latest_version info) with
     | Return older => older
     | Raise _ => false
     end),
    (match as_number (stars info), as_number (open_issues_count info) with
     | Return stars_n, Return issues_n =>
         match PyFloat.true_div (issues_n * 100) (Z.max stars_n 1) with
         | Return f => PyFloat.gt_int f 50
         | Raise _ => false
         end
     | _, _ => false
     end),
    (match last_release_date info with
     | Some (Aware t) =>
         (timedelta_days
            (utc_now h (clock_reads w + clock_readings (last_commit_date info)) - t)
          >? 730)%Z
     | _ => false
     end).
  revert H.
  destruct (last_commit_date info) as [[t1|wall1]|];
    cbn [datetime_sub clock_readings requests clock_reads SOUP_md];
    try discriminate;
    (destruct (as_number (stars info)) as [stars_n|e1]; [|discriminate]);
    (destruct (is_significantly_older (JStr local_version) (latest_version info))
      as [older|e2]; [|discriminate]);
    (destruct (as_number (open_issues_count info)) as [issues_n|e3]; [|discriminate]);
    (destruct (PyFloat.true_div (issues_n * 100) (Z.max stars_n 1)) as [f|e4];
     [|discriminate]);
    destruct (last_release_date info) as [[t2|wall2]|];
    cbn [datetime_sub clock_readings requests clock_reads SOUP_md];
    try discriminate;
    rewrite ?Nat.add_0_r, ?Nat.add_1_r;
    repeat match goal with
           | |- context [(timedelta_days ?d >? ?b)%Z] =>
               destruct (timedelta_days d >? b)%Z
           end;
    destruct (stars_n <? 100)%Z, older, (PyFloat.gt_int f 50), (has_known_cve info);
    intros H; inversion H; split; reflexivity.
Qed.

Lemma signals_level_and_notes (sg : signals) (level : string) :
  category (total_score sg) = Some level ->
  (level = "Low" \/ level = "Medium" \/ level = "High")
  /\ (PyStr.join ", " (triggered_labels sg) = EmptyString -> level = "Low")
  /\ (level = "High" -> occurs ", " (PyStr.join ", " (triggered_labels sg)) = true)
  /\ (known_cve sg = true -> level <> "Low").
Proof.
  destruct sg as [[] [] [] [] [] []]; vm_compute; intros H; inversion H;
    repeat split; auto; try discriminate.
Qed.

(** X13: a call that returns names one of the three levels Low, Medium
    and High; without any note the level is Low, and High comes with at
    least two notes (no single rule reaches four points).  In the scoring
    block a known vulnerability never leaves the level at Low. *)
Theorem assess_risk_level_and_notes :
  (forall h repo_url local_version w level text w',
      assess_risk h repo_url local_version w = (Return (level, text), w') ->
      (level = "Low" \/ level = "Medium" \/ level = "High")
      /\ (text = EmptyString -> level = "Low")
      /\ (level = "High" -> occurs ", " text = true))
  /\ (forall h local_version info w level text w',
         assess_risk_scoring h local_version info w = (Return (level, text), w') ->
         has_known_cve info = true ->
         level <> "Low").
Proof.
  split.
  - intros h repo_url local_version w level text w'.
    unfold assess_risk. unfold bind at 1, lift_outcome.
    destruct (global_parse_maintainer_from_url h) as [f|e]; [|discriminate].
    destruct (negb (PyStr.nonempty (f repo_url))).
    { unfold ret. intros H. inversion H; subst.
      split; [now left|]. split; [reflexivity | discriminate]. }
    destruct (Re.search github_pattern repo_url) as [groups|].
    2:{ unfold ret. intros H. inversion H; subst.
        split; [now left|]. split; [reflexivity | discriminate]. }
    unfold bind.
    destruct (fetch_github_repo_info h _ _ w) as [[info|e] w1]; [|discriminate].
    intros H. apply scoring_cases in H as [b1 [b2 [b3 [b4 [b5 [Hc Ht]]]]]].
    subst text. apply signals_level_and_notes in Hc. tauto.
  - intros h local_version info w level text w' H Hcve.
    apply scoring_cases in H as [b1 [b2 [b3 [b4 [b5 [Hc Ht]]]]]].
    apply signals_level_and_notes in Hc. now apply Hc.
Qed.

Lemma assess_risk_level (h : host) (repo_url local_version : string) (w : world)
      (level text : string) (w' : world) :
  assess_risk h repo_url local_version w = (Return (level, text), w') ->
  level = "Low" \/ level = "Medium" \/ level = "High".
Proof.
  unfold assess_risk. unfold bind at 1, lift_outcome.
  destruct (global_parse_maintainer_from_url h) as [f|e]; [|discriminate].
  destruct (negb (PyStr.nonempty (f repo_url))).
  { unfold ret. intros H. inversion H. auto. }
  destruct (Re.search github_pattern repo_url) as [groups|].
  2:{ unfold ret. intros H. inversion H. auto. }
  unfold bind.
  destruct (fetch_github_repo_info h _ _ w) as [[info|e] w1]; [|discriminate].
  intros H. apply scoring_cases in H as [b1 [b2 [b3 [b4 [b5 [Hc Ht]]]]]].
  now apply signals_level_and_notes in Hc.
Qed.

(** X14: every record that leaves the enrichment loop carries one of the
    three levels, so its sort rank is 1, 2 or 3 and the fallback rank 999 of
    the sort key is never taken. *)
Theorem enrich_entry_level (h : host) (e : entry) (w : world)
        (e' : enriched) (w' : world) :
  enrich_entry h e w = (Return e', w') ->
  (risk_level e' = "Low" \/ risk_level e' = "Medium" \/ risk_level e' = "High")
  /\ (1 <= fst (sort_key e') <= 3)%Z.
Proof.
  intros H. apply enrich_entry_returns in H as [[level text] [Ha Ho]].
  apply assess_risk_level in Ha.
  assert (Hl : risk_level e' = "Low" \/ risk_level e' = "Medium"
               \/ risk_level e' = "High").
  { unfold unknown_license_override in Ho.
    destruct (String.eqb (license e) "unknown");
      inversion Ho as [[Hr Hn]]; rewrite Hr; auto. }
  split; [exact Hl|]. rewrite sort_key_rank.
  destruct Hl as [-> | [-> | ->]]; vm_compute; split; discriminate.
Qed.

Lemma enrich_entry_level_witness :
  let e := mkEntry "left-pad" "1.3.0" EmptyString "wtfpl" in
  exists e',
    enrich_entry patched_host e initial_world = (Return e', initial_world)
    /\ (risk_level e' = "Low" \/ risk_level e' = "Medium" \/ risk_level e' = "High")
    /\ (1 <= fst (sort_key e') <= 3)%Z.
Proof.
  intros e. eexists. split; [reflexivity|].
  apply (enrich_entry_level patched_host e initial_world _ initial_world).
  reflexivity.
Defined.

(** ** Comparing versions in both directions *)

(** X15: the comparison never holds in both directions and never of a
    version against itself; two versions with the same major number
    (whatever their minor and patch parts) are never significantly apart. *)
Theorem is_significantly_older_asymmetric (a b : string) :
  (is_significantly_older (JStr a) (JStr b) = Return true ->
   is_significantly_older (JStr b) (JStr a) = Return false)
  /\ is_significantly_older (JStr a) (JStr a) = Return false
  /\ (dotted_major a = dotted_major b ->
      is_significantly_older (JStr a) (JStr b) = Return false).
Proof.
  rewrite !is_significantly_older_on_strings. split; [|split].
  - intros H. inversion H as [Hb].
    apply andb_true_iff in Hb as [Hn Hd]. apply andb_true_iff in Hn as [Ha Hb].
    rewrite Ha, Hb. cbn. f_equal. apply Z.geb_le in Hd.
    destruct (Z.geb_spec (dotted_major a - dotted_major b) 1); [lia | reflexivity].
  - rewrite Z.sub_diag. now rewrite andb_false_r.
  - intros ->. rewrite Z.sub_diag. now rewrite andb_false_r.
Qed.

(** ** Deduplication as a whole *)

Lemma filter_keeps_distinct_keys (keep : entry -> bool) (entries : list entry) :
  NoDup (map entry_key entries) ->
  NoDup (map entry_key (filter keep entries)).
Proof.
  intros Hnd. induction entries as [|x rest IH]; [exact Hnd|].
  cbn [map] in Hnd. apply NoDup_cons_iff in Hnd as [Hx Hrest].
  cbn [filter]. destruct (keep x); [|exact (IH Hrest)].
  cbn [map]. apply NoDup_cons; [|exact (IH Hrest)].
  rewrite in_map_iff. intros [y [Hk Hy]]. apply filter_In in Hy as [Hy _].
  apply Hx. rewrite in_map_iff. exists y. split; assumption.
Qed.

Lemma first_seen_keys_nodup (entries : list entry) :
  NoDup (map entry_key (first_seen entries)).
Proof.
  induction entries as [|x rest IH]; cbn [first_seen map]; constructor.
  - intros H. apply in_map_iff in H as [y [Hk Hy]].
    apply filter_In in Hy as [_ Hy]. apply negb_true_iff in Hy.
    apply has_key_true in Hk. congruence.
  - now apply filter_keeps_distinct_keys.
Qed.

Lemma first_seen_fixed (entries : list entry) :
  NoDup (map entry_key entries) -> first_seen entries = entries.
Proof.
  induction entries as [|x rest IH]; cbn [first_seen map]; [reflexivity|].
  intros H. inversion H as [|? ? Hx Hrest]; subst. rewrite (IH Hrest). f_equal.
  clear IH Hrest H. induction rest as [|y rest IHr]; [reflexivity|].
  cbn [filter]. destruct (has_key (entry_key x) y) eqn:E.
  - apply has_key_true in E. elim Hx. left. exact E.
  - cbn [negb]. f_equal. apply IHr. intros Hin. apply Hx. now right.
Qed.

(** X16: in the deduplicated list no two records share the triple of
    name, version and license; every record of it is an input record; and
    every input record has a record with its triple in it. *)
Theorem deduplicate_distinct_and_complete (entries : list entry) :
  NoDup (map entry_key (deduplicate entries))
  /\ (forall e, In e (deduplicate entries) -> In e entries)
  /\ (forall e, In e entries ->
                exists e', In e' (deduplicate entries)
                           /\ entry_key e' = entry_key e).
Proof.
  rewrite deduplicate_first_seen. split; [|split].
  - apply first_seen_keys_nodup.
  - intros e. apply first_seen_subset.
  - intros e. apply first_seen_covers.
Qed.

(** X17: deduplicating twice changes nothing more, and a list whose
    records all differ in the triple is returned as it is, in its order. *)
Theorem deduplicate_idempotent (entries : list entry) :
  deduplicate (deduplicate entries) = deduplicate entries
  /\ (NoDup (map entry_key entries) -> deduplicate entries = entries).
Proof.
  rewrite !deduplicate_first_seen. split.
  - apply first_seen_fixed, first_seen_keys_nodup.
  - apply first_seen_fixed.
Qed.

(** ** Sorting what is sorted *)

Lemma list_sort_fixed {A K : Type} (key : A -> K) (le : K -> K -> bool) (l : list A) :
  StronglySorted (ordered_by key le) l -> list_sort key le l = l.
Proof.
  induction 1 as [|x l Hs IH Hx]; cbn [list_sort]; [reflexivity|].
  rewrite IH. destruct l as [|y l]; [reflexivity|].
  cbn [insert_by]. inversion Hx as [|? ? Hxy _]; subst.
  unfold ordered_by in Hxy. now rewrite Hxy.
Qed.

(** X18: sorting is idempotent, and a list that already stands in report
    order (High before Medium before Low, names ascending without regard to
    case within a level) is returned unchanged: records that tie keep their
    places. *)
Theorem sort_entries_idempotent (final_entries : list enriched) :
  sort_entries (sort_entries final_entries) = sort_entries final_entries
  /\ (StronglySorted report_order final_entries ->
      sort_entries final_entries = final_entries).
Proof.
  unfold sort_entries. split.
  - apply list_sort_fixed.
    apply (list_sort_sorted sort_key key_le key_le_total key_le_trans).
  - intros H. apply list_sort_fixed.
    induction H as [|x l Hs IH Hx]; constructor; [exact IH|].
    eapply Forall_impl; [|exact Hx]. intros y. apply ordered_by_report_order.
Qed.

(** ** The template *)

Lemma replace_from_skip (old new a s : string) :
  PyStr.replace_from old new (a ++ s)%string (String.length a)
  = PyStr.replace_from old new s 0.
Proof.
  induction a as [|x a IH]; cbn [append String.length]; [reflexivity|].
  cbn [PyStr.replace_from]. exact IH.
Qed.

Lemma replace_absent (old new s : string) :
  occurs old s = false -> PyStr.replace old new s = s.
Proof.
  unfold PyStr.replace. induction s as [|c s IH]; [reflexivity|].
  cbn [occurs]. intros H. apply orb_false_iff in H as [Hp Hs].
  cbn [PyStr.replace_from]. rewrite Hp. now rewrite (IH Hs).
Qed.

Lemma prefix_head_differs (c x : ascii) (old' s : string) :
  Ascii.eqb x c = false -> prefix (String c old') (String x s) = false.
Proof.
  intros H. cbn [prefix]. destruct (ascii_dec c x) as [->|]; [|reflexivity].
  now rewrite Ascii.eqb_refl in H.
Qed.

Lemma replace_first (c : ascii) (old' new before after : string) :
  all_chars (fun x => negb (Ascii.eqb x c)) before = true ->
  PyStr.replace (String c old') new (before ++ String c old' ++ after)%string
  = (before ++ new ++ PyStr.replace (String c old') new after)%string.
Proof.
  intros Hb. unfold PyStr.replace.
  induction before as [|x before IH].
  - cbn [append]. cbn [PyStr.replace_from].
    change (String c (old' ++ after)%string) with (String c old' ++ after)%string.
    rewrite prefix_append.
    replace (String.length (String c old') - 1) with (String.length old')
      by (cbn [String.length]; lia).
    now rewrite replace_from_skip.
  - cbn [all_chars] in Hb. apply andb_true_iff in Hb as [Hx Hb].
    apply negb_true_iff in Hx.
    change ((String x before ++ String c old' ++ after)%string)
      with (String x (before ++ String c old' ++ after)%string).
    cbn [PyStr.replace_from].
    rewrite (prefix_head_differs c x old' _ Hx).
    rewrite (IH Hb). reflexivity.
Qed.

(** ** The whole run *)

Lemma scoring_keeps_report
      (h : host) (local_version : string) (info : repo_info) (w : world) :
  SOUP_md (snd (assess_risk_scoring h local_version info w)) = SOUP_md w.
Proof.
  unfold assess_risk_scoring, bind, ret, lift_outcome, datetime_now.
  destruct (last_commit_date info) as [[t1|wall1]|],
    (as_number (stars info)) as [stars_n|e1],
    (is_significantly_older (JStr local_version) (latest_version info)),
    (as_number (open_issues_count info)) as [issues_n|e3];
    cbn [datetime_sub]; try reflexivity;
    destruct (PyFloat.true_div (issues_n * 100) (Z.max stars_n 1));
    try reflexivity;
    destruct (last_release_date info) as [[t2|wall2]|]; reflexivity.
Qed.

Lemma assess_risk_keeps_report (h : host) (repo_url local_version : string) (w : world) :
  SOUP_md (snd (assess_risk h repo_url local_version w)) = SOUP_md w.
Proof.
  unfold assess_risk. unfold bind at 1, lift_outcome.
  destruct (global_parse_maintainer_from_url h) as [f|e]; [|reflexivity].
  destruct (negb (PyStr.nonempty (f repo_url))); [reflexivity|].
  destruct (Re.search github_pattern repo_url) as [groups|]; [|reflexivity].
  unfold bind. rewrite fetch_github_repo_info_blocks. cbv zeta.
  now rewrite scoring_keeps_report.
Qed.

Lemma enrich_entry_keeps_report (h : host) (e : entry) (w : world) :
  SOUP_md (snd (enrich_entry h e w)) = SOUP_md w.
Proof.
  unfold enrich_entry, bind, ret.
  pose proof (assess_risk_keeps_report h (url e) (version e) w) as H.
  destruct (assess_risk h (url e) (version e) w) as [[scored|x] w1]; [|exact H].
  now destruct (unknown_license_override e scored).
Qed.

Lemma for_each_enrich_keeps_report (h : host) (entries : list entry) (w : world) :
  SOUP_md (snd (for_each (enrich_entry h) entries w)) = SOUP_md w.
Proof.
  revert w. induction entries as [|e rest IH]; intros w; [reflexivity|].
  cbn [for_each]. unfold bind, ret.
  pose proof (enrich_entry_keeps_report h e w) as He.
  destruct (enrich_entry h e w) as [[e'|x] w1]; [|exact He].
  pose proof (IH w1) as Hr.
  destruct (for_each (enrich_entry h) rest w1) as [[es|x] w2]; cbn [snd] in *;
    congruence.
Qed.

(** What [main] does, step by step. *)
Lemma main_steps (h : host) (w : world) :
  main h w
  = match collect_entries h with
    | Raise e => (Raise e, w)
    | Return entries =>
        match for_each (enrich_entry h) (deduplicate entries) w with
        | (Raise e, w1) => (Raise e, w1)
        | (Return final_entries, w1) =>
            match load (cook_soup_template_md h) with
            | Raise e => (Raise e, w1)
            | Return template_content =>
                write_SOUP_md h
                  (PyStr.replace placeholder (rendered_table final_entries)
                                 template_content)
                  w1
            end
        end
    end.
Proof.
  unfold main, bind, lift_outcome.
  destruct (collect_entries h) as [entries|e]; [|reflexivity].
  destruct (for_each (enrich_entry h) (deduplicate entries) w) as [[final|e] w1];
    [|reflexivity].
  now destruct (load (cook_soup_template_md h)).
Qed.

(** What the write leaves behind. *)
Lemma write_SOUP_md_cases (h : host) (content : string) (w : world) :
  match SOUP_md_writes h content with
  | OpenFails e => write_SOUP_md h content w = (Raise e, w)
  | WriteFails e stored =>
      write_SOUP_md h content w
      = (Raise e,
         mkWorld (requests w) (clock_reads w) (Some (PyStr.take stored content)))
  | Written =>
      write_SOUP_md h content w
      = (Return tt, mkWorld (requests w) (clock_reads w) (Some content))
  end.
Proof. unfold write_SOUP_md. now destruct (SOUP_md_writes h content). Qed.

(** X19: [SOUP.md] is touched last and by the write alone.  A run that
    returns has written one content, whole, into it.  A run that raises has
    either left it as it found it (it failed while reading, enriching or
    loading the template, or the report could not be opened), or it failed
    after opening the report: then the file was emptied and holds the
    characters stored before the failure, not what the run found. *)
Theorem main_writes_report_last (h : host) (w : world) :
  match fst (main h w) with
  | Return _ =>
      exists content,
        SOUP_md_writes h content = Written
        /\ SOUP_md (snd (main h w)) = Some content
  | Raise e =>
      SOUP_md (snd (main h w)) = SOUP_md w
      \/ exists content stored,
           SOUP_md_writes h content = WriteFails e stored
           /\ SOUP_md (snd (main h w)) = Some (PyStr.take stored content)
  end.
Proof.
  rewrite main_steps.
  destruct (collect_entries h) as [entries|e]; [|now left].
  pose proof (for_each_enrich_keeps_report h (deduplicate entries) w) as H.
  destruct (for_each (enrich_entry h) (deduplicate entries) w) as [[final|e] w1];
    [|now left].
  destruct (load (cook_soup_template_md h)) as [template_content|e]; [|now left].
  set (content := PyStr.replace placeholder (rendered_table final) template_content).
  pose proof (write_SOUP_md_cases h content w1) as Hw.
  destruct (SOUP_md_writes h content) as [e|e stored|] eqn:E; rewrite Hw;
    cbn [fst snd SOUP_md].
  - now left.
  - right. now exists content, stored.
  - now exists content.
Qed.

(** X20: the failures of [main] come in the order of its steps: an
    inventory that cannot be read stops the run before anything else
    happens; the template is opened only after every record was enriched, so
    a missing template raises [FileNotFoundError] with all the requests of
    the enrichment already sent. *)
Theorem main_failure_order (h : host) (w : world) :
  (forall e, collect_entries h = Raise e -> main h w = (Raise e, w))
  /\ (forall entries final_entries w1,
         collect_entries h = Return entries ->
         for_each (enrich_entry h) (deduplicate entries) w = (Return final_entries, w1) ->
         cook_soup_template_md h = Absent ->
         main h w = (Raise FileNotFoundError, w1))
  /\ (forall entries e w1,
         collect_entries h = Return entries ->
         for_each (enrich_entry h) (deduplicate entries) w = (Raise e, w1) ->
         main h w = (Raise e, w1)).
Proof.
  rewrite main_steps. split; [|split].
  - now intros e ->.
  - now intros entries final_entries w1 -> -> ->.
  - now intros entries e w1 -> ->.
Qed.

(** X21: with no record to enrich the run succeeds also in the script as
    shipped, provided the report can be written: it sends no request, does
    not read the clock, and writes the template with the placeholder
    replaced by the two header lines of the table. *)
Theorem main_without_entries (h : host) (w : world) (template_content : string) :
  collect_entries h = Return [] ->
  cook_soup_template_md h = Holds template_content ->
  SOUP_md_writes h (PyStr.replace placeholder
                                  (table_header ++ nl ++ table_divider)%string
                                  template_content)
  = Written ->
  main h w
  = (Return tt,
     mkWorld (requests w) (clock_reads w)
             (Some (PyStr.replace placeholder
                                  (table_header ++ nl ++ table_divider)%string
                                  template_content))).
Proof.
  intros Hc Ht Hw. rewrite main_steps, Hc, Ht.
  cbn [deduplicate dedup_loop map for_each load]. unfold ret.
  unfold write_SOUP_md, rendered_table.
  cbn [sort_entries list_sort md_lines map PyStr.join String.concat].
  now rewrite Hw.
Qed.

Lemma main_without_entries_witness :
  shipped empty_host
  /\ main empty_host initial_world
     = (Return tt,
        mkWorld [] 0
                (Some ("# SOUP" ++ nl ++ table_header ++ nl ++ table_divider ++ nl)%string)).
Proof.
  split; [reflexivity|].
  rewrite (main_without_entries empty_host initial_world
             ("# SOUP" ++ nl ++ "{{DEPENDENCY_TABLE}}" ++ nl)%string
             eq_refl eq_refl eq_refl).
  reflexivity.
Defined.

(** X22: what a completed run writes is the template with the table in
    place of the placeholder: for a template that holds no opening brace
    before the placeholder and no second placeholder after it, the report is
    the text before, the table, and the text after; for a template in which
    the placeholder does not occur the report is the template itself and the
    table is dropped without notice. *)
Theorem main_fills_template
        (h : host) (w w' : world) (template_content : string) :
  main h w = (Return tt, w') ->
  cook_soup_template_md h = Holds template_content ->
  exists entries final_entries w1,
    collect_entries h = Return entries
    /\ for_each (enrich_entry h) (deduplicate entries) w = (Return final_entries, w1)
    /\ (occurs placeholder template_content = false ->
        SOUP_md w' = Some template_content)
    /\ (forall before after,
           template_content = (before ++ placeholder ++ after)%string ->
           all_chars not_brace before = true ->
           occurs placeholder after = false ->
           SOUP_md w'
           = Some (before ++ rendered_table final_entries ++ after)%string).
Proof.
  rewrite main_steps. intros H Ht. rewrite Ht in H. cbn [load] in H.
  destruct (collect_entries h) as [entries|e]; [|discriminate].
  destruct (for_each (enrich_entry h) (deduplicate entries) w) as [[final|e] w1] eqn:E;
    [|discriminate].
  unfold write_SOUP_md in H.
  destruct (SOUP_md_writes h _); try discriminate.
  inversion H; subst. exists entries, final, w1.
  split; [reflexivity|]. split; [exact E|]. cbn [SOUP_md]. split.
  - intros Ho. now rewrite replace_absent.
  - intros before after -> Hb Ha. unfold placeholder at 1 2.
    rewrite replace_first by exact Hb.
    fold placeholder. now rewrite (replace_absent placeholder _ after Ha).
Qed.

Lemma main_fills_template_witness :
  let w' := snd (main patched_host initial_world) in
  main patched_host initial_world = (Return tt, w')
  /\ cook_soup_template_md patched_host
     = Holds ("HEADER" ++ nl ++ placeholder ++ nl ++ "FOOTER")%string
  /\ exists final_entries,
      SOUP_md w'
      = Some (("HEADER" ++ nl) ++ rendered_table final_entries ++ (nl ++ "FOOTER"))%string.
Proof.
  intros w'.
  assert (Hm : main patched_host initial_world = (Return tt, w'))
    by (vm_compute; reflexivity).
  split; [exact Hm|]. split; [reflexivity|].
  destruct (main_fills_template patched_host initial_world w'
              ("HEADER" ++ nl ++ placeholder ++ nl ++ "FOOTER")%string
              Hm eq_refl)
    as [entries [final_entries [w1 [_ [_ [_ H]]]]]].
  exists final_entries.
  apply (H ("HEADER" ++ nl)%string (nl ++ "FOOTER")%string); reflexivity.
Defined.

(** ** License requirements in the report *)

Lemma enrich_entry_license_req
      (h : host) (e : entry) (w : world) (e' : enriched) (w' : world) :
  enrich_entry h e w = (Return e', w') ->
  license_req e'
  = let license_obj := get_license_object (license e) in
    let text := if requires_license_file license_obj
                then "Include License File" else "No License File Required" in
    if is_non_commercial_only license_obj
    then (text ++ ", NON-COMMERCIAL USE ONLY")%string else text.
Proof.
  unfold enrich_entry, bind, ret.
  destruct (assess_risk h (url e) (version e) w) as [[scored|x] w1]; [|discriminate].
  destruct (unknown_license_override e scored).
  intros H. now inversion H.
Qed.

(** X23: the requirement text of an enriched record is one of three
    texts; it names non-commercial use exactly for the license
    [cc-by-nc-4.0]; and a license that the registry does not know is
    reported as requiring no license file. *)
Theorem enrich_entry_license_requirement
        (h : host) (e : entry) (w : world) (e' : enriched) (w' : world) :
  enrich_entry h e w = (Return e', w') ->
  let normalized := PyStr.strip (PyStr.casefold (license e)) in
  (license_req e' = "Include License File"
   \/ license_req e' = "No License File Required"
   \/ license_req e' = "Include License File, NON-COMMERCIAL USE ONLY")
  /\ (license_req e' = "Include License File, NON-COMMERCIAL USE ONLY"
      <-> normalized = "cc-by-nc-4.0")
  /\ (dict_get normalized LICENSE_MAPPING = None ->
      license_req e' = "No License File Required").
Proof.
  intros H normalized. rewrite (enrich_entry_license_req h e w e' w' H).
  unfold get_license_object. fold normalized.
  generalize normalized. clear. intros y.
  unfold LICENSE_MAPPING. cbn [dict_get].
  repeat match goal with
         | |- context [String.eqb y ?k] =>
             destruct (String.eqb_spec y k) as [->|?];
               [ cbv zeta; cbn;
                 split; [auto|]; split; [split; intros; try discriminate; reflexivity|];
                 discriminate |]
         end.
  cbv zeta. cbn. split; [auto|]. split; [|reflexivity].
  split; [discriminate | congruence].
Qed.

Lemma enrich_entry_license_requirement_witness :
  let e := mkEntry "left-pad" "1.3.0" EmptyString "wtfpl" in
  exists e',
    enrich_entry patched_host e initial_world = (Return e', initial_world)
    /\ dict_get (PyStr.strip (PyStr.casefold (license e))) LICENSE_MAPPING = None
    /\ license_req e' = "No License File Required".
Proof.
  intros e. eexists. split; [reflexivity|]. split; [reflexivity|].
  apply (enrich_entry_license_requirement patched_host e initial_world _ initial_world
           eq_refl).
  reflexivity.
Defined.

(** ** Ingestion and deduplication together *)

(** X24: two poetry items with the same name and version whose licenses
    differ only in the case of letters and in surrounding blanks are one
    dependency: after ingestion and deduplication only the first is left,
    with its url. *)
Theorem poetry_duplicates_merge (n v u1 u2 l1 l2 : string) :
  PyStr.nonempty l1 = true -> PyStr.nonempty l2 = true ->
  PyStr.strip (PyStr.casefold l1) = PyStr.strip (PyStr.casefold l2) ->
  exists entries,
    process_poetry_licenses
      (Holds [ mkPoetryItem (Some n) (Some v) (Some u1) (Some l1);
               mkPoetryItem (Some n) (Some v) (Some u2) (Some l2) ])
    = Return entries
    /\ deduplicate entries = [ mkEntry n v u1 (PyStr.strip (PyStr.casefold l1)) ].
Proof.
  intros H1 H2 Heq. eexists. split; [reflexivity|].
  cbn [map get_or poetry_Name poetry_Version poetry_URL poetry_License].
  rewrite !normalize_license_nonempty_arg by assumption. rewrite <- Heq.
  unfold deduplicate, entry_key.
  cbn [dedup_loop key_in app name version license negb].
  rewrite key_eqb_refl. reflexivity.
Qed.

Lemma poetry_duplicates_merge_witness :
  exists entries,
    process_poetry_licenses
      (Holds [ mkPoetryItem (Some "requests") (Some "2.0.0") (Some "a") (Some "Apache-2.0");
               mkPoetryItem (Some "requests") (Some "2.0.0") (Some "b") (Some " apache-2.0 ") ])
    = Return entries
    /\ deduplicate entries = [ mkEntry "requests" "2.0.0" "a" "apache-2.0" ].
Proof.
  exact (poetry_duplicates_merge "requests" "2.0.0" "a" "b" "Apache-2.0" " apache-2.0 "
           eq_refl eq_refl eq_refl).
Defined.
